(** * Moving-average crossover backtest: a shallow embedding of [main.cpp]

    The program has three functions: [calculateSMA], [runTradingSimulation]
    and [main].  All prices and cash amounts are C++ [double]s, share counts
    and window lengths are [int]s, container sizes are [size_t]s.

    - A [double] is an IEEE 754 binary64 number, modelled by the standard
      library's [spec_float] at precision 53 and maximal exponent 1024.
      Every operation of the source is one operation here, rounded to
      nearest-even on its own ([SFadd], [SFsub], [SFmul], [SFdiv]: no
      fused multiply-add, no wider intermediate format); the comparisons
      are the IEEE ones ([SFltb], [SFleb]), false on NaN.
    - An [int] is a [Z] in the 32-bit two's complement range, a [size_t] a
      [Z] below [2^64]; the conversions the program performs implicitly are
      written out ([size_t_of_int], [double_of_int], [int_of_double]).
    - The converting initialisation [int sharesToBuy = <double>] is undefined
      when the truncated value does not fit an [int]; the loop therefore
      returns an [option], [None] standing for undefined behaviour.
    - Standard output is a list of structured records, one per printed line. *)

From Stdlib Require Import ZArith List Bool Lia Sorted.
From Stdlib Require Import Floats.SpecFloat.
Import ListNotations.

Local Open Scope Z_scope.

(** ** Machine numbers *)

Module Num.

(** binary64 *)
Definition prec : Z := 53.
Definition emax : Z := 1024.

Definition double : Type := spec_float.

Definition add : double -> double -> double := SFadd prec emax.
Definition sub : double -> double -> double := SFsub prec emax.
Definition mul : double -> double -> double := SFmul prec emax.
Definition div : double -> double -> double := SFdiv prec emax.

(** [x < y], [x <= y], and the derived [x > y], [x >= y] *)
Definition lt (x y : double) : bool := SFltb x y.
Definition le (x y : double) : bool := SFleb x y.
Definition gt (x y : double) : bool := SFltb y x.
Definition ge (x y : double) : bool := SFleb y x.

Definition zero : double := S754_zero false.

Definition INT_MIN : Z := - 2 ^ 31.
Definition INT_MAX : Z := 2 ^ 31 - 1.
Definition int_range (z : Z) : Prop := INT_MIN <= z <= INT_MAX.

(** [int] to [double]: exact, every 32-bit integer is representable *)
Definition double_of_int (z : Z) : double :=
  binary_normalize prec emax z 0 false.

(** [int] to [size_t]: reduction modulo [2^64], so a negative [int]
    becomes a very large unsigned number *)
Definition size_t_of_int (z : Z) : Z := z mod 2 ^ 64.

(** truncation toward zero of a finite double *)
Definition trunc (x : double) : option Z :=
  match x with
  | S754_zero _ => Some 0
  | S754_finite s m e => Some (cond_Zopp s (Z.shiftl (Zpos m) e))
  | S754_infinity _ | S754_nan => None
  end.

(** [double] to [int]: the fractional part is discarded; undefined when
    the truncated value is not representable in the destination type *)
Definition int_of_double (x : double) : option Z :=
  match trunc x with
  | Some z => if (INT_MIN <=? z) && (z <=? INT_MAX) then Some z else None
  | None => None
  end.

(** the comparison [n < period] of a container size with an [int], which
    C++ performs after converting the [int] to [size_t] *)
Definition size_lt_int (n : nat) (period : Z) : bool :=
  Z.of_nat n <? size_t_of_int period.

End Num.

Import Num.

(** ** [calculateSMA] *)

(** [std::accumulate(first, last, 0.0)]: a left fold starting from [0.0] *)
Definition accumulate (l : list double) (init : double) : double :=
  fold_left add l init.

(** the range [prices.end() - period, prices.end()) *)
Definition last_elements (period : Z) (prices : list double) : list double :=
  skipn (length prices - Z.to_nat period) prices.

(** For a negative [period] the guard compares the size with at least
    [2^64 - 2^31] and holds for every vector that fits in memory, so that
    the range below is only ever taken with [0 <= period <= size]. *)
Definition calculateSMA (prices : list double) (period : Z) : double :=
  if size_lt_int (length prices) period then zero
  else
    let sum := accumulate (last_elements period prices) zero in
    div sum (double_of_int period).

(** ** [runTradingSimulation] *)

(** One record per line the program prints. *)
Inductive event : Type :=
| Banner (shortWindow longWindow : Z)
| BuySignal (day : nat) (price : double) (shares : Z)
| SellSignal (day : nat) (price : double) (shares : Z) (portfolio : double)
| EndOfSimulation (shares : Z) (price : double)
| SimulationComplete
| FinalPortfolioValue (value : double).

(** The local variables of [runTradingSimulation], and what has been
    written to standard output so far. *)
Record sim_state : Type := mkState {
  currentPrices : list double;
  portfolioValue : double;
  sharesOwned : Z;
  positionOpen : bool;
  prevShortSMA : double;
  prevLongSMA : double;
  output : list event
}.

Definition ten_thousand : double := double_of_int 10000.

Definition initial_state (shortWindow longWindow : Z) : sim_state :=
  {| currentPrices := [];
     portfolioValue := ten_thousand;
     sharesOwned := 0;
     positionOpen := false;
     prevShortSMA := zero;
     prevLongSMA := zero;
     output := [Banner shortWindow longWindow] |}.

Section Loop.

Variables shortWindow longWindow : Z.

(** The body of the [for] loop at index [i], where [price] is
    [marketData[i]]. *)
Definition loop_body (i : nat) (price : double) (st : sim_state)
  : option sim_state :=
  let cur := currentPrices st ++ [price] in
  if size_lt_int (length cur) longWindow then
    (* continue *)
    Some {| currentPrices := cur;
            portfolioValue := portfolioValue st;
            sharesOwned := sharesOwned st;
            positionOpen := positionOpen st;
            prevShortSMA := prevShortSMA st;
            prevLongSMA := prevLongSMA st;
            output := output st |}
  else
    let shortSMA := calculateSMA cur shortWindow in
    let longSMA := calculateSMA cur longWindow in
    if gt shortSMA longSMA && le (prevShortSMA st) (prevLongSMA st)
       && negb (positionOpen st)
    then
      match int_of_double (div (portfolioValue st) price) with
      | None => None
      | Some sharesToBuy =>
        Some {| currentPrices := cur;
                portfolioValue :=
                  sub (portfolioValue st)
                      (mul (double_of_int sharesToBuy) price);
                sharesOwned := sharesToBuy;
                positionOpen := true;
                prevShortSMA := shortSMA;
                prevLongSMA := longSMA;
                output := output st ++ [BuySignal (S i) price sharesToBuy] |}
      end
    else if lt shortSMA longSMA && ge (prevShortSMA st) (prevLongSMA st)
            && positionOpen st
    then
      let saleValue := mul (double_of_int (sharesOwned st)) price in
      let portfolioValue' := add (portfolioValue st) saleValue in
      Some {| currentPrices := cur;
              portfolioValue := portfolioValue';
              sharesOwned := 0;
              positionOpen := false;
              prevShortSMA := shortSMA;
              prevLongSMA := longSMA;
              output := output st
                        ++ [SellSignal (S i) price (sharesOwned st)
                                       portfolioValue'] |}
    else
      Some {| currentPrices := cur;
              portfolioValue := portfolioValue st;
              sharesOwned := sharesOwned st;
              positionOpen := positionOpen st;
              prevShortSMA := shortSMA;
              prevLongSMA := longSMA;
              output := output st |}.

(** The [for] loop over the prices from index [i] on. *)
Fixpoint sim_loop (days : list double) (i : nat) (st : sim_state)
  : option sim_state :=
  match days with
  | [] => Some st
  | price :: rest =>
    match loop_body i price st with
    | None => None
    | Some st' => sim_loop rest (S i) st'
    end
  end.

(** The block after the loop: a position still open is sold at
    [marketData.back()].  [sharesOwned] and [positionOpen] are left as
    they are. *)
Definition final_liquidation (marketData : list double) (st : sim_state)
  : sim_state :=
  if positionOpen st then
    let back := last marketData zero in
    let finalSaleValue := mul (double_of_int (sharesOwned st)) back in
    {| currentPrices := currentPrices st;
       portfolioValue := add (portfolioValue st) finalSaleValue;
       sharesOwned := sharesOwned st;
       positionOpen := positionOpen st;
       prevShortSMA := prevShortSMA st;
       prevLongSMA := prevLongSMA st;
       output := output st ++ [EndOfSimulation (sharesOwned st) back] |}
  else st.

(** The state when the function returns. *)
Definition final_state (marketData : list double) : option sim_state :=
  match sim_loop marketData 0 (initial_state shortWindow longWindow) with
  | None => None
  | Some st => Some (final_liquidation marketData st)
  end.

(** The state after the first [n] iterations of the loop. *)
Definition state_after (marketData : list double) (n : nat)
  : option sim_state :=
  sim_loop (firstn n marketData) 0 (initial_state shortWindow longWindow).

End Loop.

(** What the function prints. *)
Definition runTradingSimulation (marketData : list double)
           (shortWindow longWindow : Z) : option (list event) :=
  match final_state shortWindow longWindow marketData with
  | None => None
  | Some st =>
    Some (output st
          ++ [SimulationComplete; FinalPortfolioValue (portfolioValue st)])
  end.

(** ** [main] *)

Definition ten : double := double_of_int 10.
Definition hundred : double := double_of_int 100.

Section Main.

(** [std::mt19937] and [std::normal_distribution<>] belong to the C++
    standard library.  [gen] is the joint state of the engine and the
    distribution object, [draw] is one evaluation of [d(gen)], and
    [seed_gen] builds the engine from the value read from
    [std::random_device]. *)
Variable gen : Type.
Variable seed_gen : Z -> gen.
Variable draw : gen -> double * gen.

(** The generating loop, [n] iterations from [lastPrice]. *)
Fixpoint generate (n : nat) (g : gen) (lastPrice : double) : list double :=
  match n with
  | O => []
  | S n' =>
    let (change, g') := draw g in
    let lastPrice1 := add lastPrice change in
    let lastPrice2 := if lt lastPrice1 ten then ten else lastPrice1 in
    lastPrice2 :: generate n' g' lastPrice2
  end.

Definition marketData_of (rd : Z) : list double :=
  generate 200 (seed_gen rd) hundred.

(** [main], as a function of the value [rd()] returns. *)
Definition main (rd : Z) : option (list event) :=
  runTradingSimulation (marketData_of rd) 10 30.

End Main.

(** ** Vocabulary of the properties *)

(** The mean of a sequence of doubles, as the Moving Average Calculator is
    specified: the sum of the elements divided by their number, in double
    arithmetic. *)
Definition mean (l : list double) : double :=
  div (fold_left add l zero) (double_of_int (Z.of_nat (length l))).

(** The last [n] elements of a sequence. *)
Definition last_n (n : nat) (l : list double) : list double :=
  skipn (length l - n) l.

(** The guard of the warm-up [continue], on the day [price] is appended. *)
Definition warming_up (longWindow : Z) (st : sim_state) (price : double)
  : bool :=
  size_lt_int (length (currentPrices st ++ [price])) longWindow.

(** The two averages of the day [price] is appended. *)
Definition shortSMA_of (shortWindow : Z) (st : sim_state) (price : double)
  : double :=
  calculateSMA (currentPrices st ++ [price]) shortWindow.

Definition longSMA_of (longWindow : Z) (st : sim_state) (price : double)
  : double :=
  calculateSMA (currentPrices st ++ [price]) longWindow.

(** A BUY, respectively SELL, line was printed between [st] and [st']. *)
Definition buy_fired (st st' : sim_state) : Prop :=
  exists day price shares,
    output st' = output st ++ [BuySignal day price shares].

Definition sell_fired (st st' : sim_state) : Prop :=
  exists day price shares cash,
    output st' = output st ++ [SellSignal day price shares cash].

(** The state is untouched except for the price history. *)
Definition only_history_grows (st st' : sim_state) (price : double) : Prop :=
  currentPrices st' = currentPrices st ++ [price]
  /\ portfolioValue st' = portfolioValue st
  /\ sharesOwned st' = sharesOwned st
  /\ positionOpen st' = positionOpen st
  /\ prevShortSMA st' = prevShortSMA st
  /\ prevLongSMA st' = prevLongSMA st
  /\ output st' = output st.

(** Days of the BUY and SELL lines of a report, and the value of its last
    line. *)
Fixpoint buy_days (out : list event) : list nat :=
  match out with
  | [] => []
  | BuySignal d _ _ :: rest => d :: buy_days rest
  | _ :: rest => buy_days rest
  end.

Fixpoint sell_days (out : list event) : list nat :=
  match out with
  | [] => []
  | SellSignal d _ _ _ :: rest => d :: sell_days rest
  | _ :: rest => sell_days rest
  end.

(** Days of all the trade lines, in the order of the report. *)
Fixpoint trade_days (out : list event) : list nat :=
  match out with
  | [] => []
  | BuySignal d _ _ :: rest => d :: trade_days rest
  | SellSignal d _ _ _ :: rest => d :: trade_days rest
  | _ :: rest => trade_days rest
  end.


(** The price of day [d] (days count from 1) of the rising series, and the
    series over 200 days. *)
Definition rising_price (d : Z) : Z := 100 + d.

Definition rising_series : list double :=
  map (fun d => double_of_int (rising_price (Z.of_nat d))) (seq 1 200).

(** A configuration the specification calls invalid. *)
Definition invalid_configuration (shortWindow longWindow : Z) : Prop :=
  shortWindow <= 0 \/ longWindow <= 0.

(** The simulation was started and ran to its last line. *)
Definition simulation_ran (r : option (list event)) : Prop :=
  exists sw lw trades v,
    r = Some (Banner sw lw :: trades
              ++ [SimulationComplete; FinalPortfolioValue v]).

(** [std::vector<double>::max_size()] where [size_t] has 64 bits. *)
Definition vector_max_size : Z := (2 ^ 63 - 1) / 8.

(** Cash and holdings valued at price [p], in double arithmetic. *)
Definition marked_to_market (st : sim_state) (p : double) : double :=
  add (portfolioValue st) (mul (double_of_int (sharesOwned st)) p).

(** Sample inputs. *)

Definition three_days : list double :=
  [double_of_int 100; double_of_int 101; double_of_int 102].

(** 151.51515151515153, that is [0x1.2f07c1f07c1f1p+7] *)
Definition price_151_52 : double := S754_finite false 0x12f07c1f07c1f1 (-45).

(** 29 days rising by 1.75 a day from 101.75 to 150.75, then 151.51... *)
Definition overspend_series : list double :=
  map (fun k => div (double_of_int (400 + 7 * Z.of_nat k)) (double_of_int 4))
      (seq 1 29)
  ++ [price_151_52].

Definition expensive_series : list double :=
  repeat (double_of_int 10000) 29 ++ [double_of_int 20000].

(** The state after one day at price 100 with windows 1 and 2, the next
    day being the first warmed-up one; and the state a day later, after
    the purchase at 101. *)
Definition day1_state : sim_state :=
  {| currentPrices := [double_of_int 100];
     portfolioValue := ten_thousand;
     sharesOwned := 0;
     positionOpen := false;
     prevShortSMA := zero;
     prevLongSMA := zero;
     output := [Banner 1 2] |}.

Definition day2_state : sim_state :=
  match loop_body 1 2 1 (double_of_int 101) day1_state with
  | Some st => st
  | None => day1_state
  end.

(** Three days on which windows 1 and 2 buy at 101 and sell at 90. *)
Definition zigzag_days : list double :=
  [double_of_int 100; double_of_int 101; double_of_int 90].

Definition day3_state : sim_state :=
  match loop_body 1 2 2 (double_of_int 90) day2_state with
  | Some st => st
  | None => day2_state
  end.

(** ** Vocabulary of the binary64 facts *)

(** The second half of [binary_round_aux]: the mantissa [m1] obtained by
    rounding is renormalised and the exponent range checked. *)
Definition finish (s : bool) (m1 e1 : Z) : spec_float :=
  let '(mrs, e2) := shr_fexp prec emax m1 e1 loc_Exact in
  match shr_m mrs with
  | Z0 => S754_zero s
  | Zpos m => if e2 <=? emax - prec then S754_finite s m e2 else S754_infinity s
  | Zneg _ => S754_nan
  end.

(** [f] is the number of sign [s] and magnitude [M * 2^E], in canonical
    form, or the infinity that replaces it beyond the exponent range. *)
Definition represents (s : bool) (M E : Z) (f : spec_float) : Prop :=
  (M = 0 /\ f = S754_zero s)
  \/ exists m e,
      E <= e /\ Zpos m * 2 ^ (e - E) = M
      /\ canonical_mantissa prec emax m e = true
      /\ f = if e <=? emax - prec then S754_finite s m e else S754_infinity s.

(** The magnitude [m * 2^e] counted in units of [2^-1074], the least
    positive double. *)
Definition units (m : positive) (e : Z) : Z := Zpos m * 2 ^ (e + 1074).

(** A price that is a positive finite double. *)
Definition finite_positive (p : double) : bool :=
  match p with
  | S754_finite false m e => bounded prec emax m e
  | _ => false
  end.

(** Zero, a positive finite double, or plus infinity. *)
Definition non_negative (x : double) : bool :=
  match x with
  | S754_zero false | S754_infinity false => true
  | S754_finite false m e => bounded prec emax m e
  | _ => false
  end.

(** A term of [spec_float] that is a binary64 number: [spec_float] also
    holds mantissa and exponent pairs outside the format, which no C++
    [double] is. *)
Definition binary64 (x : double) : bool := valid_binary prec emax x.

(** A finite binary64 number: a zero or a number of the format. *)
Definition finite_double (x : double) : bool :=
  match x with
  | S754_zero _ => true
  | S754_finite _ m e => bounded prec emax m e
  | _ => false
  end.

(** The largest finite double, [0x1.fffffffffffffp+1023], and a third of
    [2^1024] rounded down, [0x1.5555555555555p+1022]. *)
Definition DBL_MAX : double := S754_finite false (2 ^ 53 - 1) 971.

Definition third_of_two_pow_1024 : double :=
  S754_finite false 0x15555555555555 970.

(** Six days on which windows 1 and 2 buy one share at 10000, sell it at
    [DBL_MAX] and buy again at [third_of_two_pow_1024]. *)
Definition overflow_days : list double :=
  [double_of_int 9000; double_of_int 10000; DBL_MAX; DBL_MAX;
   double_of_int 1; third_of_two_pow_1024].

(** Two days on which windows 3 and 1 buy at -1.0 and sell at plus
    infinity. *)
Definition infinite_price_days : list double :=
  [double_of_int (-1); S754_infinity false].

(** ** Vocabulary of the further properties *)

(** The report of a run without a single trade. *)
Definition quiet_report (shortWindow longWindow : Z) : list event :=
  [Banner shortWindow longWindow; SimulationComplete;
   FinalPortfolioValue ten_thousand].

(** The end-of-simulation lines of a report. *)
Fixpoint end_lines (out : list event) : list (Z * double) :=
  match out with
  | [] => []
  | EndOfSimulation n p :: rest => (n, p) :: end_lines rest
  | _ :: rest => end_lines rest
  end.

(** The state while the long window is not yet full: the initial one, but
    for the history. *)
Definition warm_up_state (sw lw : Z) (history : list double) : sim_state :=
  {| currentPrices := history;
     portfolioValue := ten_thousand;
     sharesOwned := 0;
     positionOpen := false;
     prevShortSMA := zero;
     prevLongSMA := zero;
     output := [Banner sw lw] |}.

(** What the program prints on [zigzag_days] with windows 1 and 2. *)
Definition zigzag_report : list event :=
  [Banner 1 2;
   BuySignal 2 (double_of_int 101) 99;
   SellSignal 3 (double_of_int 90) 99 (double_of_int 8911);
   SimulationComplete;
   FinalPortfolioValue (double_of_int 8911)].






(** A distribution that always draws 1.0, whatever the engine. *)
Definition steady_draw (g : unit) : double * unit := (double_of_int 1, g).

(** The state before the last day of [overspend_series], and after it. *)
Definition overspend_day29_state : sim_state :=
  match state_after 10 30 overspend_series 29 with
  | Some st => st
  | None => initial_state 10 30
  end.

Definition overspend_day30_state : sim_state :=
  match loop_body 10 30 29 price_151_52 overspend_day29_state with
  | Some st => st
  | None => overspend_day29_state
  end.

(** Plus infinity, or a positive double of at least [n] units of
    [2^-1074]. *)
Definition at_least_units (n : Z) (x : double) : Prop :=
  x = S754_infinity false
  \/ exists m e,
       x = S754_finite false m e /\ bounded prec emax m e = true
       /\ n <= units m e.

(** * Properties *)

(** ** binary64 arithmetic

    What the properties of the ledger need from IEEE arithmetic, proved on
    the definitions of [SpecFloat]: [binary_round_aux] returns one of the
    two neighbours of the exact result on the grid of the result
    ([binary_round_aux_spec]), a representable value is returned as it is
    ([binary_round_exact]), a difference of two numbers within a factor two
    of each other is exact ([sub_then_add_exact]), and so is a purchase of
    [int(c / p)] shares at [p] valued at [p], when its cost is finite
    ([purchase_at_finite_cost_is_exact]). *)

(** A few results of the model, as any binary64 implementation gives
    them: [1/10 = 0x1.999999999999ap-4], [0.1 + 0.2 = 0x1.3333333333334p-2],
    [1/3 = 0x1.5555555555555p-2], and [0/0] is NaN. *)
Example binary64_samples :
  div (double_of_int 1) (double_of_int 10)
  = S754_finite false 0x1999999999999a (-56)
  /\ add (S754_finite false 0x1999999999999a (-56))
         (S754_finite false 0x1999999999999a (-55))
     = S754_finite false 0x13333333333334 (-54)
  /\ div (double_of_int 1) (double_of_int 3)
     = S754_finite false 0x15555555555555 (-54)
  /\ div zero zero = S754_nan.
Proof. repeat split; vm_compute; reflexivity. Qed.

Lemma fexp_eq (e : Z) : fexp prec emax e = Z.max (e - 53) (-1074).
Proof. reflexivity. Qed.

Lemma pow2_pos (k : Z) : 0 <= k -> 0 < 2 ^ k.
Proof. intros. apply Z.pow_pos_nonneg; lia. Qed.

Lemma pow2_succ (k : Z) : 0 <= k -> 2 ^ (k + 1) = 2 * 2 ^ k.
Proof. intros. rewrite Z.pow_add_r by lia. lia. Qed.

Lemma digits2_pos_bounds (m : positive) :
  2 ^ (Zpos (digits2_pos m) - 1) <= Zpos m < 2 ^ Zpos (digits2_pos m).
Proof.
  induction m as [p IH | p IH | ]; simpl digits2_pos.
  - rewrite Pos2Z.inj_succ.
    replace (Z.succ (Zpos (digits2_pos p)) - 1) with (Zpos (digits2_pos p) - 1 + 1) by lia.
    unfold Z.succ. rewrite !pow2_succ by lia. lia.
  - rewrite Pos2Z.inj_succ.
    replace (Z.succ (Zpos (digits2_pos p)) - 1) with (Zpos (digits2_pos p) - 1 + 1) by lia.
    unfold Z.succ. rewrite !pow2_succ by lia. lia.
  - simpl. lia.
Qed.

(** digits are determined by the bounds *)
Lemma digits2_pos_unique (m : positive) (d : Z) :
  2 ^ (d - 1) <= Zpos m < 2 ^ d -> 0 < d -> Zpos (digits2_pos m) = d.
Proof.
  intros [Hlo Hhi] Hd.
  destruct (digits2_pos_bounds m) as [Hlo' Hhi'].
  set (d' := Zpos (digits2_pos m)) in *.
  assert (0 < d') by (unfold d'; lia).
  destruct (Z.lt_trichotomy d d') as [Hlt | [Heq | Hgt]]; [ | lia | ].
  - assert (2 ^ d <= 2 ^ (d' - 1)) by (apply Z.pow_le_mono_r; lia). lia.
  - assert (2 ^ d' <= 2 ^ (d - 1)) by (apply Z.pow_le_mono_r; lia). lia.
Qed.

Lemma iter_pos_nat {A : Type} (f : A -> A) (p : positive) (x : A) :
  iter_pos f p x = Nat.iter (Pos.to_nat p) f x.
Proof.
  revert x. induction p as [p IH | p IH | ]; intros x; simpl iter_pos.
  - rewrite !IH. rewrite Pos2Nat.inj_xI.
    replace (S (2 * Pos.to_nat p)) with (Pos.to_nat p + (Pos.to_nat p + 1))%nat by lia.
    rewrite !Nat.iter_add. simpl. reflexivity.
  - rewrite !IH. rewrite Pos2Nat.inj_xO.
    replace (2 * Pos.to_nat p)%nat with (Pos.to_nat p + Pos.to_nat p)%nat by lia.
    rewrite Nat.iter_add. reflexivity.
  - reflexivity.
Qed.

Lemma pos_iter_xO (m : positive) (d : positive) :
  Zpos (Pos.iter xO m d) = Zpos m * 2 ^ Zpos d.
Proof.
  induction d as [ | d IH ] using Pos.peano_ind.
  - simpl. lia.
  - rewrite Pos.iter_succ, Pos2Z.inj_succ. unfold Z.succ.
    rewrite pow2_succ by lia. rewrite Pos2Z.inj_xO, IH. lia.
Qed.

(** one right shift *)
Lemma shr_1_m (mrs : shr_record) :
  0 <= shr_m mrs -> shr_m (shr_1 mrs) = shr_m mrs / 2.
Proof.
  destruct mrs as [m r s]. cbn [shr_m]. intros Hm.
  destruct m as [ | [p | p | ] | p ]; cbn [shr_1 shr_m]; try lia.
  - reflexivity.
  - apply Z.div_unique with (r := 1); lia.
  - apply Z.div_unique with (r := 0); lia.
  - reflexivity.
Qed.

Lemma shr_1_exact (mrs : shr_record) :
  0 <= shr_m mrs ->
  (shr_r (shr_1 mrs) || shr_s (shr_1 mrs) = false
   <-> (shr_r mrs || shr_s mrs = false /\ shr_m mrs mod 2 = 0)).
Proof.
  destruct mrs as [m r s]. cbn [shr_m shr_r shr_s]. intros Hm.
  destruct m as [ | [p | p | ] | p ]; cbn [shr_1 shr_m shr_r shr_s]; try lia.
  - rewrite Z.mod_0_l by lia. destruct r, s; simpl; intuition congruence.
  - replace (Zpos p~1) with (1 + Zpos p * 2) by lia.
    rewrite Z.mod_add by lia. simpl. intuition (try discriminate).
  - replace (Zpos p~0) with (0 + Zpos p * 2) by lia.
    rewrite Z.mod_add by lia. simpl. destruct r, s; simpl; intuition congruence.
  - simpl. intuition (try discriminate).
Qed.

Lemma shr_iter_m (n : nat) (mrs : shr_record) :
  0 <= shr_m mrs ->
  shr_m (Nat.iter n shr_1 mrs) = shr_m mrs / 2 ^ Z.of_nat n
  /\ (shr_r (Nat.iter n shr_1 mrs) || shr_s (Nat.iter n shr_1 mrs) = false
      <-> (shr_r mrs || shr_s mrs = false /\ shr_m mrs mod 2 ^ Z.of_nat n = 0)).
Proof.
  intros Hm. induction n as [|n [IHm IHx]].
  - simpl. rewrite Z.div_1_r, Z.mod_1_r. intuition.
  - rewrite Nat.iter_succ.
    assert (0 <= shr_m (Nat.iter n shr_1 mrs)) as Hn.
    { rewrite IHm. apply Z.div_pos; [ lia | apply pow2_pos; lia ]. }
    rewrite shr_1_m by exact Hn.
    rewrite shr_1_exact by exact Hn.
    rewrite IHm, IHx.
    rewrite Nat2Z.inj_succ. unfold Z.succ.
    rewrite pow2_succ by lia.
    assert (0 < 2 ^ Z.of_nat n) as Hp by (apply pow2_pos; lia).
    split.
    + rewrite Z.div_div by lia. f_equal. lia.
    + set (P := 2 ^ Z.of_nat n) in *. set (m := shr_m mrs) in *.
      assert (m mod (2 * P) = m mod P + P * ((m / P) mod 2)) as E.
      { rewrite Z.mul_comm. rewrite Z.rem_mul_r by lia. reflexivity. }
      assert (0 <= m mod P < P) by (apply Z.mod_pos_bound; lia).
      assert (0 <= (m / P) mod 2 < 2) by (apply Z.mod_pos_bound; lia).
      split.
      * intros [[H1 H2] H3]. split; [ exact H1 | ]. rewrite E, H2, H3. lia.
      * intros [H1 H2]. rewrite E in H2.
        assert (m mod P = 0) by nia.
        assert ((m / P) mod 2 = 0) by nia.
        auto.
Qed.

Lemma loc_of_shr_record_exact (mrs : shr_record) :
  loc_of_shr_record mrs = loc_Exact <-> shr_r mrs || shr_s mrs = false.
Proof.
  destruct mrs as [m [|] [|]]; simpl; intuition discriminate.
Qed.

Lemma shr_record_of_loc_m (m : Z) (l : location) :
  shr_m (shr_record_of_loc m l) = m.
Proof. destruct l as [|[| |]]; reflexivity. Qed.

Lemma shr_record_of_loc_exact (m : Z) (l : location) :
  shr_r (shr_record_of_loc m l) || shr_s (shr_record_of_loc m l) = false
  <-> l = loc_Exact.
Proof. destruct l as [|[| |]]; simpl; intuition discriminate. Qed.

(** [shr] divides the mantissa by [2^n] and remembers whether bits were lost *)
Lemma shr_spec (m : Z) (l : location) (e n : Z) :
  0 <= m ->
  snd (shr (shr_record_of_loc m l) e n) = e + Z.max n 0
  /\ shr_m (fst (shr (shr_record_of_loc m l) e n)) = m / 2 ^ Z.max n 0
  /\ (loc_of_shr_record (fst (shr (shr_record_of_loc m l) e n)) = loc_Exact
      <-> (l = loc_Exact /\ m mod 2 ^ Z.max n 0 = 0)).
Proof.
  intros Hm. destruct n as [|p|p]; cbn [shr fst snd Z.max Z.compare].
  - rewrite Z.add_0_r, Z.pow_0_r, Z.div_1_r, Z.mod_1_r.
    rewrite shr_record_of_loc_m, loc_of_shr_record_exact, shr_record_of_loc_exact.
    intuition.
  - rewrite iter_pos_nat.
    assert (0 <= shr_m (shr_record_of_loc m l)) as Hm'
        by (rewrite shr_record_of_loc_m; exact Hm).
    destruct (shr_iter_m (Pos.to_nat p) (shr_record_of_loc m l) Hm') as [E1 E2].
    rewrite positive_nat_Z in E1, E2.
    rewrite shr_record_of_loc_m in E1, E2.
    rewrite shr_record_of_loc_exact in E2.
    rewrite loc_of_shr_record_exact.
    replace (Z.max (Z.pos p) 0) with (Z.pos p) by lia.
    auto.
  - replace (Z.max (Z.neg p) 0) with 0 by lia.
    rewrite Z.add_0_r, Z.pow_0_r, Z.div_1_r, Z.mod_1_r.
    rewrite shr_record_of_loc_m, loc_of_shr_record_exact, shr_record_of_loc_exact.
    intuition.
Qed.

Lemma round_nearest_even_cases (m : Z) (l : location) :
  round_nearest_even m l = m
  \/ (round_nearest_even m l = m + 1 /\ l <> loc_Exact).
Proof.
  destruct l as [|[| |]]; simpl; auto.
  - destruct (Z.even m); [ left | right ]; auto. split; [ reflexivity | discriminate ].
  - right. split; [ reflexivity | discriminate ].
Qed.

Lemma Zdigits2_bounds (m : Z) :
  0 < m -> 0 < Zdigits2 m /\ 2 ^ (Zdigits2 m - 1) <= m < 2 ^ Zdigits2 m.
Proof.
  destruct m as [|p|p]; try lia. intros _. simpl Zdigits2.
  split; [ lia | apply digits2_pos_bounds ].
Qed.

Lemma Zdigits2_unique (m d : Z) :
  0 < d -> 2 ^ (d - 1) <= m < 2 ^ d -> Zdigits2 m = d.
Proof.
  intros Hd H.
  assert (0 < m).
  { assert (0 < 2 ^ (d - 1)) by (apply pow2_pos; lia). lia. }
  destruct m as [|p|p]; try lia. simpl.
  apply digits2_pos_unique; assumption.
Qed.

Lemma binary_round_aux_finish (s : bool) (mx ex : Z) (lx : location) :
  binary_round_aux prec emax s mx ex lx
  = finish s
      (round_nearest_even
         (shr_m (fst (shr_fexp prec emax mx ex lx)))
         (loc_of_shr_record (fst (shr_fexp prec emax mx ex lx))))
      (snd (shr_fexp prec emax mx ex lx)).
Proof.
  unfold binary_round_aux, finish.
  destruct (shr_fexp prec emax mx ex lx) as [mrs e1]. reflexivity.
Qed.

Lemma finish_zero (s : bool) (e1 : Z) : finish s 0 e1 = S754_zero s.
Proof.
  unfold finish, shr_fexp.
  destruct (shr_spec 0 loc_Exact e1
              (fexp prec emax (Zdigits2 0 + e1) - e1) ltac:(lia)) as (_ & Hm & _).
  destruct (shr _ _ _) as [mrs e2]. cbn [fst] in Hm.
  rewrite Hm, Z.div_0_l; [ reflexivity | ].
  apply Z.pow_nonzero; lia.
Qed.

Lemma finish_canonical (s : bool) (m : positive) (e1 : Z) :
  fexp prec emax (Zpos (digits2_pos m) + e1) = e1 ->
  finish s (Zpos m) e1
  = if e1 <=? emax - prec then S754_finite s m e1 else S754_infinity s.
Proof.
  intros Hc. unfold finish, shr_fexp. cbn [Zdigits2].
  rewrite Hc, Z.sub_diag. reflexivity.
Qed.

Lemma finish_carry (s : bool) (e1 : Z) :
  -1074 <= e1 ->
  finish s (2 ^ 53) e1
  = if e1 + 1 <=? emax - prec then S754_finite s (2 ^ 52)%positive (e1 + 1)
    else S754_infinity s.
Proof.
  intros He. unfold finish, shr_fexp.
  change (Zdigits2 (2 ^ 53)) with 54.
  rewrite fexp_eq.
  replace (Z.max (54 + e1 - 53) (-1074) - e1) with 1 by lia.
  reflexivity.
Qed.

Lemma div_pow2_bounds (m d k : Z) :
  0 <= k < d -> 2 ^ (d - 1) <= m < 2 ^ d ->
  2 ^ (d - k - 1) <= m / 2 ^ k < 2 ^ (d - k).
Proof.
  intros Hk [Hlo Hhi].
  assert (0 < 2 ^ k) by (apply pow2_pos; lia).
  assert (2 ^ (d - 1) = 2 ^ (d - k - 1) * 2 ^ k) as E1
      by (rewrite <- Z.pow_add_r by lia; f_equal; lia).
  assert (2 ^ d = 2 ^ (d - k) * 2 ^ k) as E2
      by (rewrite <- Z.pow_add_r by lia; f_equal; lia).
  split.
  - apply Z.div_le_lower_bound; lia.
  - apply Z.div_lt_upper_bound; lia.
Qed.

Lemma canonical_mantissa_iff (m : positive) (e : Z) :
  canonical_mantissa prec emax m e = true
  <-> Z.max (Zpos (digits2_pos m) + e - 53) (-1074) = e.
Proof.
  unfold canonical_mantissa. rewrite fexp_eq. apply Z.eqb_eq.
Qed.

Lemma binary_round_aux_spec (s : bool) (mx ex : Z) (lx : location) :
  0 <= mx ->
  ex <= fexp prec emax (Zdigits2 mx + ex) ->
  let e' := fexp prec emax (Zdigits2 mx + ex) in
  let k := e' - ex in
  exists m1,
    (m1 = mx / 2 ^ k
     \/ (m1 = mx / 2 ^ k + 1 /\ ~ (lx = loc_Exact /\ mx mod 2 ^ k = 0)))
    /\ represents s m1 e' (binary_round_aux prec emax s mx ex lx).
Proof.
  intros Hmx Hex e' k.
  assert (0 <= k) as Hk by (unfold k, e'; lia).
  rewrite binary_round_aux_finish. unfold shr_fexp. fold e'. fold k.
  destruct (shr_spec mx lx ex k Hmx) as (He1 & Hmt & Hloc).
  replace (Z.max k 0) with k in * by lia.
  replace (ex + k) with e' in He1 by (unfold k; lia).
  rewrite He1, Hmt.
  set (mt := mx / 2 ^ k) in *.
  set (l1 := loc_of_shr_record (fst (shr (shr_record_of_loc mx lx) ex k))) in *.
  assert (0 < 2 ^ k) as Hpk by (apply pow2_pos; lia).
  assert (0 <= mt) as Hmt0 by (apply Z.div_pos; lia).
  exists (round_nearest_even mt l1).
  split.
  { destruct (round_nearest_even_cases mt l1) as [E | [E Hl]]; [ left; exact E | ].
    right. split; [ exact E | ]. intros H. apply Hl. apply Hloc. exact H. }
  assert (round_nearest_even mt l1 = mt \/ round_nearest_even mt l1 = mt + 1)
    as Hm1 by (destruct (round_nearest_even_cases mt l1) as [E | [E _]]; auto).
  set (m1 := round_nearest_even mt l1) in *. clearbody m1. clear Hloc l1.
  assert (e' = Z.max (Zdigits2 mx + ex - 53) (-1074)) as He' by apply fexp_eq.
  destruct m1 as [|p|p]; [ | | lia ].
  - left. split; [ reflexivity | apply finish_zero ].
  - right.
    destruct (Z.eq_dec mt 0) as [Hz | Hnz].
    + (* everything was shifted out: the least subnormal *)
      assert (p = 1%positive) as -> by lia.
      assert (e' = -1074) as Hemin.
      { destruct (Z.eq_dec mx 0) as [-> | Hx].
        - simpl Zdigits2 in He'. unfold k in Hk. lia.
        - destruct (Zdigits2_bounds mx ltac:(lia)) as (Hd & Hlo & Hhi).
          assert (mx < 2 ^ k).
          { unfold mt in Hz. apply Z.div_small_iff in Hz; lia. }
          assert (Zdigits2 mx - 1 < k).
          { apply (Z.pow_lt_mono_r_iff 2); lia. }
          unfold k in *. lia. }
      exists 1%positive, e'.
      split; [ lia | ]. split; [ rewrite Z.sub_diag; reflexivity | ].
      split; [ apply canonical_mantissa_iff; simpl digits2_pos; lia | ].
      apply finish_canonical. rewrite fexp_eq. simpl digits2_pos. lia.
    + assert (0 < mx) as Hx.
      { destruct (Z.eq_dec mx 0) as [-> | ]; [ | lia ].
        unfold mt in Hnz. rewrite Z.div_0_l in Hnz; lia. }
      destruct (Zdigits2_bounds mx Hx) as (Hd & Hlo & Hhi).
      set (d := Zdigits2 mx) in *.
      assert (k < d) as Hkd.
      { destruct (Z_lt_le_dec k d) as [ | Hge ]; [ assumption | exfalso ].
        apply Hnz. unfold mt. apply Z.div_small. split; [ lia | ].
        assert (2 ^ d <= 2 ^ k) by (apply Z.pow_le_mono_r; lia). lia. }
      destruct (div_pow2_bounds mx d k ltac:(lia) ltac:(lia)) as [Hlo' Hhi'].
      fold mt in Hlo', Hhi'.
      assert (0 < 2 ^ (d - k - 1)) by (apply pow2_pos; lia).
      assert (2 ^ (d - k) = 2 * 2 ^ (d - k - 1)) as Hpow.
      { replace (d - k) with (d - k - 1 + 1) at 1 by lia. apply pow2_succ. lia. }
      destruct (Z_lt_le_dec (Z.pos p) (2 ^ (d - k))) as [Hsmall | Hbig].
      * (* no carry *)
        assert (Zpos (digits2_pos p) = d - k) as Hdp.
        { apply digits2_pos_unique; lia. }
        exists p, e'.
        split; [ lia | ]. split; [ rewrite Z.sub_diag; lia | ].
        split; [ apply canonical_mantissa_iff; rewrite Hdp; unfold k; lia | ].
        apply finish_canonical. rewrite fexp_eq, Hdp. unfold k. lia.
      * (* the mantissa was rounded up to a power of two *)
        assert (Z.pos p = 2 ^ (d - k)) as Hp by lia.
        destruct (Z_le_gt_dec (-1074) (d + ex - 53)) as [Hnormal | Hsub].
        -- assert (d - k = 53) as Hd53 by (unfold k; lia).
           rewrite Hd53 in Hp.
           exists (2 ^ 52)%positive, (e' + 1).
           split; [ lia | ].
           split; [ replace (e' + 1 - e') with 1 by lia; rewrite Hp; reflexivity | ].
           split; [ apply canonical_mantissa_iff;
                    change (Zpos (digits2_pos (2 ^ 52))) with 53; lia | ].
           rewrite Hp. apply finish_carry. lia.
        -- assert (Zpos (digits2_pos p) = d - k + 1) as Hdp.
           { apply digits2_pos_unique; [ | lia ].
             replace (d - k + 1 - 1) with (d - k) by lia.
             rewrite pow2_succ by lia. lia. }
           exists p, e'.
           split; [ lia | ]. split; [ rewrite Z.sub_diag; lia | ].
           split; [ apply canonical_mantissa_iff; rewrite Hdp; unfold k; lia | ].
           apply finish_canonical. rewrite fexp_eq, Hdp. unfold k. lia.
Qed.

Lemma digits2_pos_shift (m m0 : positive) (j : Z) :
  0 <= j -> Zpos m0 = Zpos m * 2 ^ j ->
  Zpos (digits2_pos m0) = Zpos (digits2_pos m) + j.
Proof.
  intros Hj E.
  destruct (digits2_pos_bounds m) as [Hlo Hhi].
  assert (0 < 2 ^ j) by (apply pow2_pos; lia).
  apply digits2_pos_unique; [ | lia ].
  rewrite E.
  replace (Zpos (digits2_pos m) + j - 1) with (Zpos (digits2_pos m) - 1 + j) by lia.
  rewrite !Z.pow_add_r by lia. nia.
Qed.

(** two canonical pairs with the same value are the same pair *)
Lemma canonical_unique (m m0 : positive) (e e0 : Z) :
  canonical_mantissa prec emax m e = true ->
  canonical_mantissa prec emax m0 e0 = true ->
  e0 <= e -> Zpos m * 2 ^ (e - e0) = Zpos m0 ->
  m = m0 /\ e = e0.
Proof.
  intros Hc Hc0 Hle E.
  apply canonical_mantissa_iff in Hc. apply canonical_mantissa_iff in Hc0.
  rewrite (digits2_pos_shift m m0 (e - e0)) in Hc0 by lia.
  assert (e = e0) as -> by lia.
  split; [ | reflexivity ].
  rewrite Z.sub_diag in E. simpl in E. lia.
Qed.

Lemma represents_canonical (s : bool) (m0 : positive) (e0 : Z)
      (f : spec_float) :
  bounded prec emax m0 e0 = true ->
  represents s (Zpos m0) e0 f -> f = S754_finite s m0 e0.
Proof.
  unfold bounded. intros Hb [[H _] | (m & e & Hle & E & Hc & ->)]; [ lia | ].
  apply andb_prop in Hb. destruct Hb as [Hc0 He0].
  destruct (canonical_unique m m0 e e0 Hc Hc0 Hle E) as [-> ->].
  rewrite He0. reflexivity.
Qed.

Lemma shl_align_left (m : positive) (e e0 : Z) :
  e0 <= e ->
  exists m0, Zpos m0 = Zpos m * 2 ^ (e - e0)
             /\ shl_align m e e0 = (m0, if e0 <? e then e0 else e).
Proof.
  intros Hle. unfold shl_align.
  destruct (e0 - e) as [|d|d] eqn:Ed; try lia.
  - assert (e = e0) as -> by lia. rewrite Z.sub_diag, Z.ltb_irrefl.
    exists m. split; [ simpl; lia | reflexivity ].
  - exists (Pos.iter xO m d).
    split.
    + rewrite pos_iter_xO. f_equal. f_equal. lia.
    + assert ((e0 <? e) = true) as -> by (apply Z.ltb_lt; lia). reflexivity.
Qed.

Lemma shl_align_keep (m : positive) (e e0 : Z) :
  e <= e0 -> shl_align m e e0 = (m, e).
Proof.
  intros Hle. unfold shl_align.
  destruct (e0 - e) as [|d|d] eqn:Ed; try lia; reflexivity.
Qed.

(** [binary_round] returns the canonical form of a representable value *)
Lemma binary_round_exact (s : bool) (m m0 : positive) (e e0 : Z) :
  bounded prec emax m0 e0 = true ->
  ((e0 <= e /\ Zpos m0 = Zpos m * 2 ^ (e - e0))
   \/ (e <= e0 /\ Zpos m = Zpos m0 * 2 ^ (e0 - e))) ->
  binary_round prec emax s m e = S754_finite s m0 e0.
Proof.
  intros Hb Hv.
  assert (Hb' := Hb). unfold bounded in Hb'.
  apply andb_prop in Hb'. destruct Hb' as [Hc0 He0].
  assert (Hc := proj1 (canonical_mantissa_iff m0 e0) Hc0).
  unfold binary_round.
  destruct Hv as [[Hle E] | [Hle E]].
  - (* the mantissa is shifted left *)
    assert (fexp prec emax (Zpos (digits2_pos m) + e) = e0) as Hf.
    { rewrite fexp_eq. rewrite (digits2_pos_shift m m0 (e - e0)) in Hc by lia. lia. }
    rewrite Hf.
    destruct (shl_align_left m e e0 Hle) as (m0' & E' & ->).
    assert (m0' = m0) as -> by lia.
    assert ((if e0 <? e then e0 else e) = e0) as ->.
    { destruct (e0 <? e) eqn:El; [ reflexivity | apply Z.ltb_ge in El; lia ]. }
    destruct (binary_round_aux_spec s (Zpos m0) e0 loc_Exact) as (m1 & Hm1 & Hr).
    + lia.
    + cbn [Zdigits2]. rewrite fexp_eq. lia.
    + cbn [Zdigits2] in Hm1, Hr. rewrite fexp_eq in Hm1, Hr.
      rewrite Hc in Hm1, Hr. rewrite Z.sub_diag in Hm1.
      rewrite Z.pow_0_r, Z.div_1_r, Z.mod_1_r in Hm1.
      assert (m1 = Zpos m0) as -> by (destruct Hm1 as [ | [_ H]]; [ assumption | tauto ]).
      apply represents_canonical; assumption.
  - (* the mantissa is shifted right, losing only zeros *)
    assert (fexp prec emax (Zpos (digits2_pos m) + e) = e0) as Hf.
    { rewrite fexp_eq. rewrite (digits2_pos_shift m0 m (e0 - e)) by lia. lia. }
    rewrite Hf. rewrite shl_align_keep by exact Hle.
    destruct (binary_round_aux_spec s (Zpos m) e loc_Exact) as (m1 & Hm1 & Hr).
    + lia.
    + cbn [Zdigits2]. rewrite Hf. exact Hle.
    + cbn [Zdigits2] in Hm1, Hr. rewrite Hf in Hm1, Hr.
      assert (0 < 2 ^ (e0 - e)) by (apply pow2_pos; lia).
      rewrite E in Hm1.
      rewrite Z.div_mul, Z.mod_mul in Hm1 by lia.
      assert (m1 = Zpos m0) as -> by (destruct Hm1 as [ | [_ H']]; [ assumption | tauto ]).
      apply represents_canonical; assumption.
Qed.

Lemma bounded_facts (m : positive) (e : Z) :
  bounded prec emax m e = true ->
  -1074 <= e <= 971 /\ Zpos m < 2 ^ 53
  /\ (-1074 < e -> 2 ^ 52 <= Zpos m).
Proof.
  unfold bounded. intros Hb. apply andb_prop in Hb. destruct Hb as [Hc He].
  apply canonical_mantissa_iff in Hc. apply Z.leb_le in He.
  change (emax - prec) with 971 in He.
  destruct (digits2_pos_bounds m) as [Hlo Hhi].
  set (d := Zpos (digits2_pos m)) in *.
  assert (0 < d) by (unfold d; lia).
  split; [ lia | ]. split.
  - assert (2 ^ d <= 2 ^ 53) by (apply Z.pow_le_mono_r; lia). lia.
  - intros Hn. assert (d = 53) as Hd by lia. rewrite Hd in Hlo. exact Hlo.
Qed.

Lemma shl_align_fst (m : positive) (e ez : Z) :
  ez <= e -> Zpos (fst (shl_align m e ez)) = Zpos m * 2 ^ (e - ez).
Proof.
  intros Hle. destruct (shl_align_left m e ez Hle) as (m0 & E & ->). exact E.
Qed.

Lemma binary_normalize_signed (s : bool) (X : positive) (e : Z) :
  binary_normalize prec emax (cond_Zopp s (Zpos X)) e false
  = binary_round prec emax s X e.
Proof. destruct s; reflexivity. Qed.

Lemma cond_Zopp_sub (s : bool) (a b : Z) :
  cond_Zopp s a - cond_Zopp s b = cond_Zopp s (a - b).
Proof. destruct s; simpl; lia. Qed.

Lemma cond_Zopp_add (s : bool) (a b : Z) :
  cond_Zopp s a + cond_Zopp s b = cond_Zopp s (a + b).
Proof. destruct s; simpl; lia. Qed.

Lemma cond_Zopp_abs (s : bool) (D : Z) :
  D <> 0 ->
  exists sd pd, cond_Zopp s D = cond_Zopp sd (Zpos pd) /\ Zpos pd = Z.abs D.
Proof.
  intros HD. destruct D as [|p|p]; [ lia | | ].
  - exists s, p. split; reflexivity.
  - exists (negb s), p. split; [ destruct s; reflexivity | reflexivity ].
Qed.

(** Sterbenz: the difference of two binary64 numbers within a factor two
    of each other is computed exactly, and adding it back restores the
    first. *)
Lemma sub_then_add_exact (s : bool) (mc mt : positive) (ec et : Z) :
  bounded prec emax mc ec = true ->
  bounded prec emax mt et = true ->
  units mc ec <= 2 * units mt et ->
  units mt et <= 2 * units mc ec ->
  SFadd prec emax
        (SFsub prec emax (S754_finite s mc ec) (S754_finite s mt et))
        (S754_finite s mt et)
  = S754_finite s mc ec.
Proof.
  intros Hbc Hbt H1 H2.
  destruct (bounded_facts mc ec Hbc) as (Hec & Hmc & _).
  destruct (bounded_facts mt et Hbt) as (Het & Hmt & _).
  cbn [SFsub].
  set (ez := Z.min ec et).
  assert (ez <= ec /\ ez <= et /\ -1074 <= ez) as (Hzc & Hzt & Hz) by (unfold ez; lia).
  rewrite !shl_align_fst by assumption.
  rewrite cond_Zopp_sub.
  set (Mc := Zpos mc * 2 ^ (ec - ez)).
  set (Mt := Zpos mt * 2 ^ (et - ez)).
  assert (0 < 2 ^ (ez + 1074)) as Hpz by (apply pow2_pos; lia).
  assert (units mc ec = Mc * 2 ^ (ez + 1074)) as EUc.
  { unfold units, Mc. rewrite <- Z.mul_assoc, <- Z.pow_add_r by lia.
    f_equal. f_equal. lia. }
  assert (units mt et = Mt * 2 ^ (ez + 1074)) as EUt.
  { unfold units, Mt. rewrite <- Z.mul_assoc, <- Z.pow_add_r by lia.
    f_equal. f_equal. lia. }
  assert (Mc <= 2 * Mt) as H1' by nia.
  assert (Mt <= 2 * Mc) as H2' by nia.
  assert (0 < Mc) as HMc.
  { unfold Mc. assert (0 < 2 ^ (ec - ez)) by (apply pow2_pos; lia). nia. }
  assert (0 < Mt) as HMt.
  { unfold Mt. assert (0 < 2 ^ (et - ez)) by (apply pow2_pos; lia). nia. }
  assert (Z.abs (Mc - Mt) < 2 ^ 53) as HD.
  { assert (ez = ec \/ ez = et) as [E | E] by (unfold ez; lia).
    - assert (Mc = Zpos mc)
        by (unfold Mc; rewrite E, Z.sub_diag, Z.pow_0_r; lia). lia.
    - assert (Mt = Zpos mt)
        by (unfold Mt; rewrite E, Z.sub_diag, Z.pow_0_r; lia). lia. }
  destruct (Z.eq_dec (Mc - Mt) 0) as [E0 | HD0].
  - (* equal values: the difference is +0 *)
    rewrite E0. replace (cond_Zopp s 0) with 0 by (destruct s; reflexivity).
    cbn [binary_normalize SFadd].
    assert (mt = mc /\ et = ec) as [-> ->]; [ | reflexivity ].
    apply andb_prop in Hbc. destruct Hbc as [Hcc _].
    apply andb_prop in Hbt. destruct Hbt as [Hct _].
    destruct (Z_le_gt_dec ec et).
    + apply (canonical_unique mt mc et ec); try assumption.
      unfold Mc, Mt in E0. replace ez with ec in E0 by (unfold ez; lia).
      rewrite Z.sub_diag, Z.pow_0_r in E0. lia.
    + destruct (canonical_unique mc mt ec et) as [-> ->];
        try assumption; try lia; auto.
      unfold Mc, Mt in E0. replace ez with et in E0 by (unfold ez; lia).
      rewrite Z.sub_diag, Z.pow_0_r in E0. lia.
  - destruct (cond_Zopp_abs s (Mc - Mt) HD0) as (sd & pd & Esd & Epd).
    rewrite Esd, binary_normalize_signed.
    (* the canonical form of the difference *)
    destruct (digits2_pos_bounds pd) as [Hdlo Hdhi].
    set (dd := Zpos (digits2_pos pd)) in *.
    assert (0 < dd) as Hdd0 by (unfold dd; lia).
    assert (dd <= 53) as Hdd.
    { destruct (Z_le_gt_dec dd 53); [ assumption | exfalso ].
      assert (2 ^ 53 <= 2 ^ (dd - 1)) by (apply Z.pow_le_mono_r; lia). lia. }
    set (ed := Z.max (dd + ez - 53) (-1074)).
    assert (-1074 <= ed <= ez) as Hed by (unfold ed; lia).
    assert (0 < 2 ^ (ez - ed)) as Hpd by (apply pow2_pos; lia).
    set (md := Z.to_pos (Zpos pd * 2 ^ (ez - ed))).
    assert (Zpos md = Zpos pd * 2 ^ (ez - ed)) as Emd
        by (unfold md; rewrite Z2Pos.id; nia).
    assert (bounded prec emax md ed = true) as Hbd.
    { unfold bounded. apply andb_true_intro. split.
      - apply canonical_mantissa_iff.
        rewrite (digits2_pos_shift pd md (ez - ed)) by (try lia; exact Emd).
        fold dd. unfold ed. lia.
      - apply Z.leb_le. change (emax - prec) with 971. lia. }
    rewrite (binary_round_exact sd pd md ez ed Hbd) by (left; split; [ lia | exact Emd ]).
    (* adding the second number back *)
    cbn [SFadd].
    replace (Z.min ed et) with ed by lia.
    rewrite !shl_align_fst by lia.
    rewrite Z.sub_diag, Z.pow_0_r, Z.mul_1_r.
    assert (cond_Zopp sd (Zpos md) = cond_Zopp s ((Mc - Mt) * 2 ^ (ez - ed))) as Esum.
    { rewrite Emd.
      assert (forall b x y, cond_Zopp b x * y = cond_Zopp b (x * y)) as Hmul
          by (intros [|] x y; simpl; lia).
      rewrite <- !Hmul. rewrite Esd. reflexivity. }
    rewrite Esum, cond_Zopp_add.
    assert ((Mc - Mt) * 2 ^ (ez - ed) + Zpos mt * 2 ^ (et - ed)
            = Zpos mc * 2 ^ (ec - ed)) as Eback.
    { unfold Mc, Mt.
      replace (ec - ed) with ((ec - ez) + (ez - ed)) by lia.
      replace (et - ed) with ((et - ez) + (ez - ed)) by lia.
      rewrite !Z.pow_add_r by lia. ring. }
    rewrite Eback.
    assert (0 < 2 ^ (ec - ed)) by (apply pow2_pos; lia).
    set (X := Z.to_pos (Zpos mc * 2 ^ (ec - ed))).
    assert (Zpos X = Zpos mc * 2 ^ (ec - ed)) as EX
        by (unfold X; rewrite Z2Pos.id; nia).
    rewrite <- EX, binary_normalize_signed.
    apply binary_round_exact; [ exact Hbc | ].
    right. split; [ lia | exact EX ].
Qed.

(** [int] to [double] is exact *)
Lemma binary_normalize_int (s : bool) (q : Z) :
  0 < q < 2 ^ 53 ->
  exists mq eq,
    binary_normalize prec emax (cond_Zopp s q) 0 false = S754_finite s mq eq
    /\ bounded prec emax mq eq = true
    /\ -52 <= eq <= 0
    /\ Zpos mq = q * 2 ^ (- eq)
    /\ 2 ^ 52 <= Zpos mq.
Proof.
  intros [Hq0 Hq]. destruct q as [|pq|pq]; try lia.
  destruct (digits2_pos_bounds pq) as [Hlo Hhi].
  set (dq := Zpos (digits2_pos pq)) in *.
  assert (0 < dq) by (unfold dq; lia).
  assert (dq <= 53).
  { destruct (Z_le_gt_dec dq 53); [ assumption | exfalso ].
    assert (2 ^ 53 <= 2 ^ (dq - 1)) by (apply Z.pow_le_mono_r; lia). lia. }
  assert (0 < 2 ^ (53 - dq)) by (apply pow2_pos; lia).
  set (mq := Z.to_pos (Zpos pq * 2 ^ (53 - dq))).
  assert (Zpos mq = Zpos pq * 2 ^ (53 - dq)) as Emq
      by (unfold mq; rewrite Z2Pos.id; nia).
  assert (Zpos (digits2_pos mq) = 53) as Hd.
  { rewrite (digits2_pos_shift pq mq (53 - dq)) by (try lia; exact Emq).
    fold dq. lia. }
  assert (bounded prec emax mq (dq - 53) = true) as Hb.
  { unfold bounded. apply andb_true_intro. split.
    - apply canonical_mantissa_iff. rewrite Hd. lia.
    - apply Z.leb_le. change (emax - prec) with 971. lia. }
  exists mq, (dq - 53).
  split.
  { rewrite binary_normalize_signed.
    apply binary_round_exact; [ exact Hb | ].
    left. split; [ lia | ]. rewrite Emq. f_equal. f_equal. lia. }
  split; [ exact Hb | ]. split; [ lia | ].
  split; [ rewrite Emq; f_equal; f_equal; lia | ].
  destruct (digits2_pos_bounds mq) as [Hlo' _]. rewrite Hd in Hlo'. exact Hlo'.
Qed.

(** the same inequality between dyadic numbers, at another scale *)
Lemma pow2_scale_le (X Y a b a' b' : Z) :
  0 <= a -> 0 <= b -> 0 <= a' -> 0 <= b' -> a - a' = b - b' ->
  X * 2 ^ a <= Y * 2 ^ b -> X * 2 ^ a' <= Y * 2 ^ b'.
Proof.
  intros Ha Hb Ha' Hb' E H.
  destruct (Z_le_gt_dec a' a).
  - assert (0 < 2 ^ (a - a')) by (apply pow2_pos; lia).
    replace a with (a' + (a - a')) in H by lia.
    replace b with (b' + (a - a')) in H by lia.
    rewrite !Z.pow_add_r in H by lia. nia.
  - assert (0 < 2 ^ (a' - a)) by (apply pow2_pos; lia).
    replace a' with (a + (a' - a)) by lia.
    replace b' with (b + (a' - a)) by lia.
    rewrite !Z.pow_add_r by lia. nia.
Qed.

Lemma pow2_scale_lt (X Y a b a' b' : Z) :
  0 <= a -> 0 <= b -> 0 <= a' -> 0 <= b' -> a - a' = b - b' ->
  X * 2 ^ a < Y * 2 ^ b -> X * 2 ^ a' < Y * 2 ^ b'.
Proof.
  intros Ha Hb Ha' Hb' E H.
  destruct (Z_le_gt_dec a' a).
  - assert (0 < 2 ^ (a - a')) by (apply pow2_pos; lia).
    replace a with (a' + (a - a')) in H by lia.
    replace b with (b' + (a - a')) in H by lia.
    rewrite !Z.pow_add_r in H by lia. nia.
  - assert (0 < 2 ^ (a' - a)) by (apply pow2_pos; lia).
    replace a' with (a + (a' - a)) by lia.
    replace b' with (b + (a' - a)) by lia.
    rewrite !Z.pow_add_r by lia. nia.
Qed.

(** the integer quotient computed by [SFdiv_core_binary] *)
Lemma SFdiv_core_binary_spec (m1 m2 : positive) (e1 e2 : Z) :
  let a := Zpos (digits2_pos m1) + e1 - (Zpos (digits2_pos m2) + e2) in
  let ez := Z.min (fexp prec emax a) (e1 - e2) in
  exists lz,
    SFdiv_core_binary prec emax (Zpos m1) e1 (Zpos m2) e2
    = (Zpos m1 * 2 ^ (e1 - e2 - ez) / Zpos m2, ez, lz).
Proof.
  intros a ez. unfold SFdiv_core_binary. cbn [Zdigits2].
  fold a. fold ez.
  assert (0 <= e1 - e2 - ez) as Hs by (unfold ez; lia).
  assert ((match e1 - e2 - ez with
           | 0 => Zpos m1
           | Zpos _ => Z.shiftl (Zpos m1) (e1 - e2 - ez)
           | Zneg _ => 0
           end) = Zpos m1 * 2 ^ (e1 - e2 - ez)) as ->.
  { destruct (e1 - e2 - ez) as [|p|p] eqn:E; try lia.
    rewrite Z.shiftl_mul_pow2 by lia. reflexivity. }
  set (m' := Zpos m1 * 2 ^ (e1 - e2 - ez)).
  assert (Hdiv := Zdiv.Zmod_eq_full m' (Zpos m2)).
  unfold Z.div. destruct (Z.div_eucl m' (Zpos m2)) as [q r].
  eexists. reflexivity.
Qed.

Lemma div_bounds (a b : Z) :
  0 < b -> a / b * b <= a < (a / b + 1) * b.
Proof.
  intros Hb.
  assert (H := Z.div_mod a b ltac:(lia)).
  assert (H' := Z.mod_pos_bound a b Hb).
  nia.
Qed.

Lemma units_pos (m : positive) (e : Z) : -1074 <= e -> 0 < units m e.
Proof.
  intros He. unfold units.
  assert (0 < 2 ^ (e + 1074)) by (apply pow2_pos; lia). nia.
Qed.

(** The quotient of two doubles is one of the two neighbours of the exact
    quotient on the grid of exponent [e'], where the mantissa has 53 bits
    unless the result is subnormal. *)
(** The quotient of two positive doubles is one of the two neighbours of
    the exact quotient on the grid of exponent [e'], and its mantissa has
    53 bits unless the result is subnormal. *)
Lemma SFdiv_faithful_normal (s : bool) (mc mp : positive) (ec ep : Z) :
  bounded prec emax mc ec = true ->
  bounded prec emax mp ep = true ->
  exists mt m1 e',
    represents s m1 e'
      (SFdiv prec emax (S754_finite s mc ec) (S754_finite false mp ep))
    /\ 0 <= mt /\ (m1 = mt \/ m1 = mt + 1) /\ -1074 <= e'
    /\ mt * units mp ep * 2 ^ Z.max e' 0 <= units mc ec * 2 ^ Z.max (- e') 0
    /\ units mc ec * 2 ^ Z.max (- e') 0
       < (mt + 1) * units mp ep * 2 ^ Z.max e' 0
    /\ (-1074 < e' -> 2 ^ 52 <= mt)
    /\ mt < 2 ^ 53.
Proof.
  intros Hbc Hbp.
  destruct (bounded_facts mc ec Hbc) as (Hec & _ & _).
  destruct (bounded_facts mp ep Hbp) as (Hep & _ & _).
  cbn [SFdiv]. rewrite xorb_false_r.
  destruct (SFdiv_core_binary_spec mc mp ec ep) as (lz & ->).
  destruct (digits2_pos_bounds mc) as [Hclo Hchi].
  destruct (digits2_pos_bounds mp) as [Hplo Hphi].
  set (d1 := Zpos (digits2_pos mc)) in *.
  set (d2 := Zpos (digits2_pos mp)) in *.
  assert (0 < d1 /\ 0 < d2) as [Hd1 Hd2] by (unfold d1, d2; lia).
  set (a := d1 + ec - (d2 + ep)).
  assert (fexp prec emax a = Z.max (a - 53) (-1074)) as Hfa by apply fexp_eq.
  set (ez := Z.min (fexp prec emax a) (ec - ep)).
  set (s' := ec - ep - ez).
  assert (0 <= s') as Hs' by (unfold s', ez; lia).
  assert (0 < 2 ^ s') as Hps by (apply pow2_pos; lia).
  set (mz := Zpos mc * 2 ^ s' / Zpos mp).
  assert (0 <= mz) as Hmz by (apply Z.div_pos; nia).
  assert (mz * Zpos mp <= Zpos mc * 2 ^ s' < (mz + 1) * Zpos mp) as [Hq1 Hq2].
  { unfold mz. apply div_bounds. lia. }
  assert (ez <= fexp prec emax (Zdigits2 mz + ez)) as Hpre.
  { rewrite fexp_eq.
    destruct (Z_le_gt_dec ez (-1074)) as [ | Hez ]; [ lia | ].
    assert (53 <= a - ez) by (unfold ez in *; lia).
    set (g := a - ez - 1).
    assert (2 ^ g <= mz) as Hg.
    { unfold mz. apply Z.div_le_lower_bound; [ lia | ].
      assert (2 ^ (d1 - 1) * 2 ^ s' = 2 ^ g * 2 ^ d2) as E.
      { rewrite <- !Z.pow_add_r by (unfold g; lia). f_equal. unfold g, a, s'. lia. }
      assert (0 < 2 ^ g) by (apply pow2_pos; unfold g; lia).
      nia. }
    assert (0 < mz) as Hmz' by (assert (0 < 2 ^ g) by (apply pow2_pos; unfold g; lia); lia).
    destruct (Zdigits2_bounds mz Hmz') as (Hdz & _ & Hzhi).
    assert (g < Zdigits2 mz).
    { apply (Z.pow_lt_mono_r_iff 2); lia. }
    unfold g in *. lia. }
  destruct (binary_round_aux_spec s mz ez lz Hmz Hpre) as (m1 & Hm1 & Hr).
  cbv zeta in Hm1, Hr.
  set (e' := fexp prec emax (Zdigits2 mz + ez)) in *.
  set (k := e' - ez) in *.
  assert (0 <= k) as Hk by (unfold k; lia).
  assert (0 < 2 ^ k) as Hpk by (apply pow2_pos; lia).
  set (mt := mz / 2 ^ k) in *.
  assert (0 <= mt) as Hmt by (apply Z.div_pos; lia).
  assert (mt * 2 ^ k <= mz < (mt + 1) * 2 ^ k) as [Hk1 Hk2].
  { unfold mt. apply div_bounds. lia. }
  assert (-1074 <= e') as He' by (unfold e'; rewrite fexp_eq; lia).
  exists mt, m1, e'.
  split; [ exact Hr | ]. split; [ exact Hmt | ].
  split; [ destruct Hm1 as [ | [? _]]; auto | ].
  split; [ exact He' | ].
  assert (mt * Zpos mp * 2 ^ k <= Zpos mc * 2 ^ s') as I1 by nia.
  assert (Zpos mc * 2 ^ s' < (mt + 1) * Zpos mp * 2 ^ k) as I2 by nia.
  assert (mt * Zpos mp * 2 ^ (ep + 1074 + Z.max e' 0)
          <= Zpos mc * 2 ^ (ec + 1074 + Z.max (- e') 0)) as I1'.
  { apply (pow2_scale_le _ _ k s');
      [ lia | lia | lia | lia | unfold k, s'; lia | exact I1 ]. }
  assert (Zpos mc * 2 ^ (ec + 1074 + Z.max (- e') 0)
          < (mt + 1) * Zpos mp * 2 ^ (ep + 1074 + Z.max e' 0)) as I2'.
  { apply (pow2_scale_lt _ _ s' k);
      [ lia | lia | lia | lia | unfold k, s'; lia | exact I2 ]. }
  unfold units.
  replace (mt * (Zpos mp * 2 ^ (ep + 1074)) * 2 ^ Z.max e' 0)
    with (mt * Zpos mp * 2 ^ (ep + 1074 + Z.max e' 0))
    by (rewrite (Z.pow_add_r 2 (ep + 1074)) by lia; ring).
  replace ((mt + 1) * (Zpos mp * 2 ^ (ep + 1074)) * 2 ^ Z.max e' 0)
    with ((mt + 1) * Zpos mp * 2 ^ (ep + 1074 + Z.max e' 0))
    by (rewrite (Z.pow_add_r 2 (ep + 1074)) by lia; ring).
  replace (Zpos mc * 2 ^ (ec + 1074) * 2 ^ Z.max (- e') 0)
    with (Zpos mc * 2 ^ (ec + 1074 + Z.max (- e') 0))
    by (rewrite (Z.pow_add_r 2 (ec + 1074)) by lia; ring).
  split; [ assumption | ]. split; [ assumption | ].
  assert (e' = Z.max (Zdigits2 mz + ez - 53) (-1074)) as Ee'
      by (unfold e'; apply fexp_eq).
  destruct (Z.eq_dec mz 0) as [Hz | Hnz].
  - split.
    + intros Hnormal. exfalso. rewrite Hz in Ee'. simpl Zdigits2 in Ee'. lia.
    + unfold mt. rewrite Hz, Z.div_0_l by lia. reflexivity.
  - destruct (Zdigits2_bounds mz ltac:(lia)) as (Hdz & Hzlo & Hzhi).
    split.
    + intros Hnormal.
      assert (k = Zdigits2 mz - 53) as Ek by (unfold k; lia).
      destruct (div_pow2_bounds mz (Zdigits2 mz) k ltac:(lia) ltac:(lia))
        as [Hlo _].
      fold mt in Hlo.
      replace (Zdigits2 mz - k - 1) with 52 in Hlo by lia. exact Hlo.
    + destruct (Z_lt_le_dec k (Zdigits2 mz)) as [Hlt | Hge].
      * destruct (div_pow2_bounds mz (Zdigits2 mz) k ltac:(lia) ltac:(lia))
          as [_ Hhi].
        fold mt in Hhi.
        assert (2 ^ (Zdigits2 mz - k) <= 2 ^ 53)
          by (apply Z.pow_le_mono_r; unfold k; lia).
        lia.
      * assert (mt = 0) as ->.
        { unfold mt. apply Z.div_small. split; [ lia | ].
          assert (2 ^ Zdigits2 mz <= 2 ^ k) by (apply Z.pow_le_mono_r; lia).
          lia. }
        reflexivity.
Qed.

(** [SFdiv] of two finite numbers is one of the two neighbours of the
    exact quotient on the grid of step [2^e'] *)
Lemma SFdiv_faithful (s : bool) (mc mp : positive) (ec ep : Z) :
  bounded prec emax mc ec = true ->
  bounded prec emax mp ep = true ->
  exists mt m1 e',
    represents s m1 e'
      (SFdiv prec emax (S754_finite s mc ec) (S754_finite false mp ep))
    /\ 0 <= mt /\ (m1 = mt \/ m1 = mt + 1) /\ -1074 <= e'
    /\ mt * units mp ep * 2 ^ Z.max e' 0 <= units mc ec * 2 ^ Z.max (- e') 0
    /\ units mc ec * 2 ^ Z.max (- e') 0
       < (mt + 1) * units mp ep * 2 ^ Z.max e' 0.
Proof.
  intros Hbc Hbp.
  destruct (SFdiv_faithful_normal s mc mp ec ep Hbc Hbp)
    as (mt & m1 & e' & Hr & Hmt & Hm1 & He' & I1 & I2 & _).
  exists mt, m1, e'. auto 10.
Qed.

(** the product of an integer by a finite number, on the grid of the result *)
Lemma SFmul_int_faithful (s : bool) (mq mp : positive) (eq ep q' : Z) :
  bounded prec emax mp ep = true ->
  2 ^ 52 <= Zpos mq -> -52 <= eq <= 0 -> Zpos mq = q' * 2 ^ (- eq) ->
  exists mt m1 e',
    represents s m1 e'
      (SFmul prec emax (S754_finite s mq eq) (S754_finite false mp ep))
    /\ 1 <= mt /\ -1074 <= e'
    /\ (m1 = mt \/ (m1 = mt + 1 /\ mt * 2 ^ (e' + 1074) < q' * units mp ep))
    /\ mt * 2 ^ (e' + 1074) <= q' * units mp ep < (mt + 1) * 2 ^ (e' + 1074)
    /\ (-1074 < e' -> 2 ^ 52 <= mt)
    /\ (e' = -1074 -> mt * 2 ^ (e' + 1074) = q' * units mp ep).
Proof.
  intros Hbp Hmq Heq Eq.
  destruct (bounded_facts mp ep Hbp) as (Hep & _ & _).
  cbn [SFmul]. rewrite xorb_false_r.
  set (P := Zpos (mq * mp)).
  assert (P = Zpos mq * Zpos mp) as EP by (unfold P; apply Pos2Z.inj_mul).
  assert (2 ^ 52 <= P) as HP52 by nia.
  destruct (Zdigits2_bounds P ltac:(lia)) as (Hd0 & Hdlo & Hdhi).
  set (d := Zdigits2 P) in *.
  assert (53 <= d) as Hd.
  { assert (52 < d); [ | lia ]. apply (Z.pow_lt_mono_r_iff 2); lia. }
  assert (fexp prec emax (d + (eq + ep)) = Z.max (d + (eq + ep) - 53) (-1074))
    as Hfe by apply fexp_eq.
  destruct (binary_round_aux_spec s P (eq + ep) loc_Exact) as (m1 & Hm1 & Hr);
    [ lia | fold d; lia | ].
  cbv zeta in Hm1, Hr. fold d in Hm1, Hr.
  set (e' := fexp prec emax (d + (eq + ep))) in *.
  set (k := e' - (eq + ep)) in *.
  assert (0 <= k < d) as Hk by (unfold k; lia).
  assert (0 < 2 ^ k) as Hpk by (apply pow2_pos; lia).
  set (mt := P / 2 ^ k) in *.
  destruct (div_pow2_bounds P d k Hk ltac:(lia)) as [Hmlo Hmhi]. fold mt in Hmlo, Hmhi.
  assert (0 < 2 ^ (d - k - 1)) by (apply pow2_pos; lia).
  assert (mt * 2 ^ k <= P < (mt + 1) * 2 ^ k) as [Hk1 Hk2]
      by (unfold mt; apply div_bounds; lia).
  assert (0 < 2 ^ (- eq)) as Hpq by (apply pow2_pos; lia).
  assert (P = q' * Zpos mp * 2 ^ (- eq)) as EP' by (rewrite EP, Eq; ring).
  assert (units mp ep = Zpos mp * 2 ^ (ep + 1074)) as EU by reflexivity.
  assert (mt * 2 ^ (e' + 1074) <= q' * Zpos mp * 2 ^ (ep + 1074)) as I1.
  { apply (pow2_scale_le _ _ k (- eq));
      [ lia | lia | lia | lia | unfold k; lia | rewrite <- EP'; exact Hk1 ]. }
  assert (q' * Zpos mp * 2 ^ (ep + 1074) < (mt + 1) * 2 ^ (e' + 1074)) as I2.
  { apply (pow2_scale_lt _ _ (- eq) k);
      [ lia | lia | lia | lia | unfold k; lia | rewrite <- EP'; exact Hk2 ]. }
  exists mt, m1, e'.
  split; [ exact Hr | ]. split; [ lia | ]. split; [ lia | ].
  split.
  { destruct Hm1 as [E | [E Hne]]; [ left; exact E | right ].
    split; [ exact E | ].
    assert (P mod 2 ^ k <> 0) as Hmod by tauto.
    assert (mt * 2 ^ k < P) as Hlt.
    { assert (H' := Z.div_mod P (2 ^ k) ltac:(lia)). fold mt in H'.
      assert (H'' := Z.mod_pos_bound P (2 ^ k) Hpk). lia. }
    rewrite EU.
    replace (q' * (Zpos mp * 2 ^ (ep + 1074))) with (q' * Zpos mp * 2 ^ (ep + 1074)) by ring.
    apply (pow2_scale_lt _ _ k (- eq));
      [ lia | lia | lia | lia | unfold k; lia | rewrite <- EP'; exact Hlt ]. }
  split.
  { rewrite EU.
    replace (q' * (Zpos mp * 2 ^ (ep + 1074))) with (q' * Zpos mp * 2 ^ (ep + 1074)) by ring.
    split; assumption. }
  split.
  - intros Hn. assert (d - k = 53) as E53 by (unfold k; lia).
    replace (d - k - 1) with 52 in Hmlo by lia. exact Hmlo.
  - intros Hs.
    assert (k <= - eq) as Hkq by (unfold k; lia).
    assert (P mod 2 ^ k = 0) as Hmod.
    { rewrite EP'. replace (- eq) with ((- eq - k) + k) by lia.
      rewrite Z.pow_add_r by lia. rewrite Z.mul_assoc. apply Z.mod_mul. lia. }
    assert (mt * 2 ^ k = P) as Hex.
    { assert (H' := Z.div_mod P (2 ^ k) ltac:(lia)). fold mt in H'. lia. }
    rewrite EU.
    replace (q' * (Zpos mp * 2 ^ (ep + 1074))) with (q' * Zpos mp * 2 ^ (ep + 1074)) by ring.
    apply Z.le_antisymm; [ exact I1 | ].
    apply (pow2_scale_le _ _ (- eq) k);
      [ lia | lia | lia | lia | unfold k; lia | rewrite <- EP'; lia ].
Qed.

(** the integer part of a number given on a grid of step [2^e'] *)
Lemma int_of_double_represented (s : bool) (m1 e' : Z) (x : spec_float)
      (q : Z) :
  represents s m1 e' x ->
  int_of_double x = Some q ->
  exists q',
    q = cond_Zopp s q' /\ 0 <= q' <= 2 ^ 31
    /\ (q' <> 0 ->
        e' < 0 /\ q' * 2 ^ (- e') <= m1 < (q' + 1) * 2 ^ (- e')).
Proof.
  intros [[-> ->] | (m & e & Hle & E & Hc & ->)] Hq.
  - injection Hq as <-. exists 0. split; [ destruct s; reflexivity | lia ].
  - destruct (e <=? emax - prec) eqn:He; [ | discriminate ].
    apply Z.leb_le in He. change (emax - prec) with 971 in He.
    unfold int_of_double, trunc in Hq.
    destruct ((INT_MIN <=? cond_Zopp s (Z.shiftl (Zpos m) e))
              && (cond_Zopp s (Z.shiftl (Zpos m) e) <=? INT_MAX)) eqn:Hr;
      [ | discriminate ].
    injection Hq as <-.
    apply andb_prop in Hr. destruct Hr as [Hr1 Hr2].
    apply Z.leb_le in Hr1. apply Z.leb_le in Hr2. unfold INT_MIN, INT_MAX in *.
    set (q' := Z.shiftl (Zpos m) e) in *.
    assert (0 <= q') as Hq0 by (unfold q'; apply Z.shiftl_nonneg; lia).
    exists q'. split; [ reflexivity | ].
    split; [ destruct s; simpl in *; lia | ].
    intros Hnz.
    apply canonical_mantissa_iff in Hc.
    destruct (digits2_pos_bounds m) as [Hlo Hhi].
    assert (q' <= 2 ^ 31) as Hq31 by (destruct s; simpl in *; lia).
    assert (e < 0) as Hneg.
    { destruct (Z_lt_le_dec e 0) as [ | Hge ]; [ assumption | exfalso ].
      assert (Zpos (digits2_pos m) = 53) as Hd by lia. rewrite Hd in Hlo.
      assert (q' = Zpos m * 2 ^ e) as Eq' by (unfold q'; apply Z.shiftl_mul_pow2; lia).
      assert (0 < 2 ^ e) by (apply pow2_pos; lia).
      assert (2 ^ 31 < 2 ^ 52) by (apply Z.pow_lt_mono_r; lia).
      nia. }
    split; [ lia | ].
    assert (q' = Zpos m / 2 ^ (- e)) as Eq'
        by (unfold q'; apply Z.shiftl_div_pow2; lia).
    assert (0 < 2 ^ (- e)) as Hpe by (apply pow2_pos; lia).
    assert (0 < 2 ^ (e - e')) as Hpd by (apply pow2_pos; lia).
    destruct (div_bounds (Zpos m) (2 ^ (- e)) Hpe) as [Hb1 Hb2].
    rewrite <- Eq' in Hb1, Hb2.
    replace (- e') with (- e + (e - e')) by lia.
    rewrite Z.pow_add_r by lia. rewrite <- E. nia.
Qed.

Lemma pow2_split (x y : Z) : 0 <= y <= x -> 2 ^ x = 2 ^ (x - y) * 2 ^ y.
Proof. intros H. rewrite <- Z.pow_add_r by lia. f_equal. lia. Qed.

(** what a purchase costs, rounded, is within a factor two of the cash *)
Lemma purchase_within_factor_two
      (mc : positive) (ec Up q' mt m1 e' : Z) :
  -1074 <= ec -> Zpos mc < 2 ^ 53 ->
  0 < Up -> 1 <= q' ->
  units mc ec < (q' + 1) * Up ->
  q' * Up <= 2 * units mc ec ->
  1 <= mt -> -1074 <= e' ->
  (m1 = mt \/ (m1 = mt + 1 /\ mt * 2 ^ (e' + 1074) < q' * Up)) ->
  mt * 2 ^ (e' + 1074) <= q' * Up < (mt + 1) * 2 ^ (e' + 1074) ->
  (-1074 < e' -> 2 ^ 52 <= mt) ->
  (e' = -1074 -> mt * 2 ^ (e' + 1074) = q' * Up) ->
  units mc ec <= 2 * (m1 * 2 ^ (e' + 1074))
  /\ m1 * 2 ^ (e' + 1074) <= 2 * units mc ec.
Proof.
  intros Hec Hmc HUp Hq' Hi Hii Hmt He' Hm1 [J1 J2] Hnorm Hsub.
  unfold units in *.
  set (Bc := 2 ^ (ec + 1074)) in *.
  set (W := 2 ^ (e' + 1074)) in *.
  assert (0 < Bc) by (apply pow2_pos; lia).
  assert (0 < W) by (apply pow2_pos; lia).
  split.
  - (* cash is at most twice the cost *)
    destruct Hm1 as [-> | [-> _]]; [ | nia ].
    destruct (Z_le_gt_dec (e' + 1) ec) as [Hhigh | Hlow].
    + assert (Bc = 2 ^ (ec - e' - 1) * (2 * W)) as EB.
      { unfold Bc, W. rewrite <- pow2_succ by lia.
        rewrite <- Z.pow_add_r by lia. f_equal. lia. }
      assert (0 < 2 ^ (ec - e' - 1)) by (apply pow2_pos; lia).
      set (A := Zpos mc * 2 ^ (ec - e' - 1)).
      assert (Zpos mc * Bc = A * (2 * W)) as EA by (unfold A; rewrite EB; ring).
      assert (A < mt + 1) by nia.
      nia.
    + destruct (Z.eq_dec e' (-1074)) as [Hs | Hn].
      * specialize (Hsub Hs). nia.
      * specialize (Hnorm ltac:(lia)).
        assert (Bc <= W) by (apply Z.pow_le_mono_r; lia).
        assert (2 ^ 53 = 2 * 2 ^ 52) by reflexivity.
        nia.
  - (* the cost is at most twice the cash *)
    destruct Hm1 as [-> | [-> Hstrict]]; [ nia | ].
    destruct (Z_le_gt_dec e' (ec + 1)) as [Hlow | Hhigh].
    + assert (2 * Bc = 2 ^ (ec + 1 - e') * W) as EB.
      { unfold Bc, W. rewrite <- pow2_succ by lia.
        rewrite <- Z.pow_add_r by lia. f_equal. lia. }
      assert (0 < 2 ^ (ec + 1 - e')) by (apply pow2_pos; lia).
      set (B := Zpos mc * 2 ^ (ec + 1 - e')).
      assert (2 * (Zpos mc * Bc) = B * W) as EB' by (unfold B; nia).
      assert (mt < B) by nia.
      nia.
    + exfalso.
      specialize (Hnorm ltac:(lia)).
      assert (4 * Bc <= W) as H4.
      { unfold Bc, W. replace 4 with (2 ^ 2) by reflexivity.
        rewrite <- Z.pow_add_r by lia. apply Z.pow_le_mono_r; lia. }
      assert (2 ^ 53 = 2 * 2 ^ 52) by reflexivity.
      nia.
Qed.

Lemma SFdiv_signs (s sp : bool) (mc mp : positive) (ec ep : Z) :
  SFdiv prec emax (S754_finite s mc ec) (S754_finite sp mp ep)
  = SFdiv prec emax (S754_finite (xorb s sp) mc ec) (S754_finite false mp ep).
Proof. destruct s, sp; reflexivity. Qed.

Lemma SFmul_signs (s sp : bool) (mq mp : positive) (eq ep : Z) :
  SFmul prec emax (S754_finite s mq eq) (S754_finite sp mp ep)
  = SFmul prec emax (S754_finite (xorb s sp) mq eq) (S754_finite false mp ep).
Proof. destruct s, sp; reflexivity. Qed.

(** A purchase of [int(c / p)] shares at [p] whose cost is finite, valued
    at [p]: the cost is within a factor two of the cash, the difference
    is exact, and adding the cost back returns the cash. *)
Lemma purchase_at_finite_cost_is_exact
      (s sp : bool) (mc mp : positive) (ec ep q : Z) :
  bounded prec emax mc ec = true ->
  bounded prec emax mp ep = true ->
  int_of_double
    (SFdiv prec emax (S754_finite s mc ec) (S754_finite sp mp ep))
  = Some q ->
  finite_double
    (SFmul prec emax (double_of_int q) (S754_finite sp mp ep)) = true ->
  SFadd prec emax
    (SFsub prec emax (S754_finite s mc ec)
       (SFmul prec emax (double_of_int q) (S754_finite sp mp ep)))
    (SFmul prec emax (double_of_int q) (S754_finite sp mp ep))
  = S754_finite s mc ec.
Proof.
  intros Hbc Hbp Hq Hfin.
  destruct (bounded_facts mc ec Hbc) as (Hec & Hmc & _).
  destruct (bounded_facts mp ep Hbp) as (Hep & _ & _).
  rewrite SFdiv_signs in Hq.
  destruct (SFdiv_faithful (xorb s sp) mc mp ec ep Hbc Hbp)
    as (mt & m1 & e' & Hr & Hmt & Hm1 & He' & I1 & I2).
  destruct (int_of_double_represented (xorb s sp) m1 e' _ q Hr Hq)
    as (q' & -> & Hq' & Hgrid).
  destruct (Z.eq_dec q' 0) as [-> | Hnz].
  - (* nothing is bought *)
    replace (cond_Zopp (xorb s sp) 0) with 0 by (destruct s, sp; reflexivity).
    destruct sp; reflexivity.
  - destruct (Hgrid Hnz) as (Hneg & G1 & G2).
    replace (Z.max e' 0) with 0 in I1, I2 by lia.
    replace (Z.max (- e') 0) with (- e') in I1, I2 by lia.
    rewrite Z.pow_0_r, Z.mul_1_r in I1, I2.
    assert (0 < units mp ep) as HUp by (apply units_pos; lia).
    assert (0 < units mc ec) as HUc by (apply units_pos; lia).
    set (Up := units mp ep) in *. set (Uc := units mc ec) in *.
    assert (2 <= 2 ^ (- e')) as HN.
    { replace 2 with (2 ^ 1) at 1 by reflexivity. apply Z.pow_le_mono_r; lia. }
    set (N := 2 ^ (- e')) in *.
    assert (1 <= mt) as Hmt1 by nia.
    assert (Uc < (q' + 1) * Up) as Hi.
    { assert (mt + 1 <= (q' + 1) * N) by lia.
      assert ((mt + 1) * Up <= (q' + 1) * N * Up)
        by (apply Z.mul_le_mono_nonneg_r; lia).
      nia. }
    assert (q' * Up <= 2 * Uc) as Hii.
    { assert (q' * N <= 2 * mt) by lia.
      assert (q' * N * Up <= 2 * mt * Up)
        by (apply Z.mul_le_mono_nonneg_r; lia).
      nia. }
    destruct (binary_normalize_int (xorb s sp) q')
      as (mq & eq & Eint & Hbq & Heq & Emq & Hmq52).
    { split; [ lia | ].
      assert (2 ^ 31 < 2 ^ 53) by (apply Z.pow_lt_mono_r; lia). lia. }
    unfold double_of_int in *. rewrite Eint in *.
    rewrite SFmul_signs in *.
    replace (xorb (xorb s sp) sp) with s in * by (destruct s, sp; reflexivity).
    destruct (SFmul_int_faithful s mq mp eq ep q' Hbp Hmq52 Heq Emq)
      as (mt' & m1' & e'' & Hr' & Hmt' & He'' & Hm1' & HJ & Hnorm & Hsub).
    fold Up in Hm1', HJ, Hsub.
    destruct (purchase_within_factor_two mc ec Up q' mt' m1' e''
                ltac:(lia) Hmc HUp ltac:(lia) Hi Hii Hmt' He'' Hm1' HJ Hnorm Hsub)
      as [HL HU].
    fold Uc in HL, HU.
    assert (1 <= m1') as Hm1'pos by (destruct Hm1' as [-> | [-> _]]; lia).
    destruct Hr' as [[Hz _] | (m_t & e_t & Hle & E & Hc & Et)]; [ lia | ].
    rewrite Et in *.
    assert (units m_t e_t = m1' * 2 ^ (e'' + 1074)) as EUt.
    { unfold units. rewrite <- E.
      rewrite (pow2_split (e_t + 1074) (e'' + 1074)) by lia.
      replace (e_t + 1074 - (e'' + 1074)) with (e_t - e'') by lia. ring. }
    destruct (e_t <=? emax - prec) eqn:Het; [ | discriminate Hfin ].
    apply sub_then_add_exact.
    + exact Hbc.
    + unfold bounded. rewrite Hc. exact Het.
    + rewrite EUt. exact HL.
    + rewrite EUt. exact HU.
Qed.

(** Validity and sign of the results *)

Lemma represents_valid (s : bool) (m1 e' : Z) (f : spec_float) :
  represents s m1 e' f -> valid_binary prec emax f = true.
Proof.
  intros [[_ ->] | (m & e & _ & _ & Hc & ->)]; [ reflexivity | ].
  destruct (e <=? emax - prec) eqn:He; [ | reflexivity ].
  simpl. unfold bounded. rewrite Hc, He. reflexivity.
Qed.

Lemma represents_nonzero (s : bool) (m1 e' : Z) (f : spec_float) :
  1 <= m1 -> represents s m1 e' f ->
  (exists m e, f = S754_finite s m e /\ e' <= e) \/ f = S754_infinity s.
Proof.
  intros H1 [[H0 _] | (m & e & Hle & _ & _ & ->)]; [ lia | ].
  destruct (e <=? emax - prec); [ left; eauto | right; reflexivity ].
Qed.

(** Rounding a positive number [m * 2^e] gives that number when it has
    less than [2^53] units of [2^-1074], and at least [2^53] units
    otherwise. *)
Lemma binary_round_magnitude (s : bool) (m : positive) (e : Z) :
  -1074 <= e ->
  exists m1 e',
    1 <= m1 /\ -1074 <= e'
    /\ represents s m1 e' (binary_round prec emax s m e)
    /\ (m1 * 2 ^ (e' + 1074) = Zpos m * 2 ^ (e + 1074)
        \/ 2 ^ 53 <= m1 * 2 ^ (e' + 1074)).
Proof.
  intros He. unfold binary_round.
  destruct (digits2_pos_bounds m) as [Hlo Hhi].
  set (d := Zpos (digits2_pos m)) in *.
  assert (0 < d) as Hd by (unfold d; lia).
  assert (fexp prec emax (d + e) = Z.max (d + e - 53) (-1074)) as Hf
      by apply fexp_eq.
  set (e0 := fexp prec emax (d + e)) in *.
  destruct (Z_lt_le_dec e0 e) as [Hleft | Hkeep].
  - destruct (shl_align_left m e e0 ltac:(lia)) as (m0 & E & ->).
    assert ((e0 <? e) = true) as -> by (apply Z.ltb_lt; lia).
    assert (Zpos (digits2_pos m0) = d + (e - e0)) as Hd0
        by (apply (digits2_pos_shift m m0); [ lia | exact E ]).
    destruct (binary_round_aux_spec s (Zpos m0) e0 loc_Exact)
      as (m1 & Hm1 & Hr).
    + lia.
    + cbn [Zdigits2]. rewrite Hd0, fexp_eq. lia.
    + cbn [Zdigits2] in Hm1, Hr. rewrite Hd0 in Hm1, Hr.
      replace (d + (e - e0) + e0) with (d + e) in Hm1, Hr by lia.
      fold e0 in Hm1, Hr. rewrite Z.sub_diag, Z.pow_0_r, Z.div_1_r in Hm1.
      assert (m1 = Zpos m0) as Em1.
      { destruct Hm1 as [-> | [_ Hn]]; [ reflexivity | exfalso ].
        apply Hn. split; [ reflexivity | apply Z.mod_1_r ]. }
      exists m1, e0.
      split; [ lia | ]. split; [ lia | ]. split; [ exact Hr | ].
      left. rewrite Em1, E.
      rewrite (pow2_split (e + 1074) (e0 + 1074)) by lia.
      replace (e + 1074 - (e0 + 1074)) with (e - e0) by lia. ring.
  - rewrite shl_align_keep by lia.
    destruct (binary_round_aux_spec s (Zpos m) e loc_Exact)
      as (m1 & Hm1 & Hr).
    + lia.
    + cbn [Zdigits2]. fold d. fold e0. lia.
    + cbn [Zdigits2] in Hm1, Hr. fold d in Hm1, Hr. fold e0 in Hm1, Hr.
      assert (0 <= e0 - e < d) as Hk by lia.
      destruct (div_pow2_bounds (Zpos m) d (e0 - e) Hk ltac:(lia))
        as [Hmlo _].
      assert (0 < 2 ^ (d - (e0 - e) - 1)) by (apply pow2_pos; lia).
      exists m1, e0.
      split; [ destruct Hm1 as [-> | [-> _]]; lia | ].
      split; [ lia | ]. split; [ exact Hr | ].
      destruct (Z.eq_dec e0 e) as [Eq | Hshift].
      * left. rewrite Eq in *. rewrite Z.sub_diag, Z.pow_0_r, Z.div_1_r in Hm1.
        destruct Hm1 as [-> | [_ Hn]]; [ reflexivity | exfalso ].
        apply Hn. split; [ reflexivity | apply Z.mod_1_r ].
      * right.
        assert (e0 = d + e - 53) as Ee0 by lia.
        replace (d - (e0 - e) - 1) with 52 in Hmlo by lia.
        assert (2 ^ 52 <= m1) as Hbig
            by (destruct Hm1 as [-> | [-> _]]; lia).
        assert (2 ^ 1 <= 2 ^ (e0 + 1074)) as Hp
            by (apply Z.pow_le_mono_r; lia).
        change (2 ^ 1) with 2 in Hp.
        assert (2 ^ 53 = 2 ^ 52 * 2) as -> by reflexivity.
        apply Z.mul_le_mono_nonneg; lia.
Qed.

(** [binary_round] of a mantissa at an exponent no smaller than the least
    one neither underflows nor leaves the format *)
Lemma binary_round_represents (s : bool) (m : positive) (e : Z) :
  -1074 <= e ->
  exists m1 e',
    1 <= m1 /\ -1074 <= e'
    /\ represents s m1 e' (binary_round prec emax s m e).
Proof.
  intros He.
  destruct (binary_round_magnitude s m e He) as (m1 & e' & H1 & He' & Hr & _).
  exists m1, e'. auto.
Qed.

Lemma binary_normalize_valid (M e : Z) :
  -1074 <= e ->
  valid_binary prec emax (binary_normalize prec emax M e false) = true
  /\ binary_normalize prec emax M e false <> S754_zero true.
Proof.
  intros He. destruct M as [|P|P]; cbn [binary_normalize].
  - split; [ reflexivity | discriminate ].
  - destruct (binary_round_represents false P e He) as (m1 & e' & H1 & _ & Hr).
    split; [ exact (represents_valid _ _ _ _ Hr) | ].
    destruct (represents_nonzero _ _ _ _ H1 Hr) as [(m & e1 & -> & _) | ->];
      discriminate.
  - destruct (binary_round_represents true P e He) as (m1 & e' & H1 & _ & Hr).
    split; [ exact (represents_valid _ _ _ _ Hr) | ].
    destruct (represents_nonzero _ _ _ _ H1 Hr) as [(m & e1 & -> & _) | ->];
      discriminate.
Qed.

Lemma valid_exponent (s : bool) (m : positive) (e : Z) :
  valid_binary prec emax (S754_finite s m e) = true -> -1074 <= e.
Proof.
  simpl. intros Hb. destruct (bounded_facts m e Hb) as (H & _). lia.
Qed.

Lemma SFadd_valid (c t : spec_float) :
  valid_binary prec emax c = true ->
  valid_binary prec emax t = true ->
  valid_binary prec emax (SFadd prec emax c t) = true
  /\ (t <> S754_zero true -> SFadd prec emax c t <> S754_zero true).
Proof.
  intros Hc Ht.
  destruct c as [sc|sc| |sc mc ec], t as [st|st| |st mt et];
    try (split; [ try reflexivity; try assumption | try discriminate ]);
    cbn [SFadd].
  - destruct sc, st; reflexivity.
  - destruct sc, st; try discriminate; congruence.
  - destruct sc, st; reflexivity.
  - destruct sc, st; discriminate.
  - apply binary_normalize_valid.
    assert (H1 := valid_exponent _ _ _ Hc). assert (H2 := valid_exponent _ _ _ Ht). lia.
  - intros _. apply binary_normalize_valid.
    assert (H1 := valid_exponent _ _ _ Hc). assert (H2 := valid_exponent _ _ _ Ht). lia.
Qed.

Lemma SFsub_valid (c t : spec_float) :
  valid_binary prec emax c = true ->
  valid_binary prec emax t = true ->
  valid_binary prec emax (SFsub prec emax c t) = true.
Proof.
  intros Hc Ht.
  destruct c as [sc|sc| |sc mc ec], t as [st|st| |st mt et];
    try reflexivity; try assumption; cbn [SFsub].
  - destruct sc, st; reflexivity.
  - destruct sc, st; reflexivity.
  - apply binary_normalize_valid.
    assert (H1 := valid_exponent _ _ _ Hc). assert (H2 := valid_exponent _ _ _ Ht). lia.
Qed.

(** The amount of a trade is a binary64 number or NaN. *)
Lemma SFmul_int_binary64 (sh : Z) (p : double) :
  INT_MIN <= sh <= INT_MAX ->
  valid_binary prec emax p = true ->
  valid_binary prec emax (SFmul prec emax (double_of_int sh) p) = true.
Proof.
  unfold INT_MIN, INT_MAX. intros Hsh Hp.
  destruct (Z.eq_dec sh 0) as [-> | Hnz].
  - destruct p; reflexivity.
  - assert (exists s q', sh = cond_Zopp s q' /\ 0 < q' <= 2 ^ 31)
      as (s & q' & -> & Hq').
    { destruct (Z_lt_le_dec sh 0).
      - exists true, (- sh). simpl. lia.
      - exists false, sh. simpl. lia. }
    destruct (binary_normalize_int s q')
      as (mq & eq & Eint & _ & Heq & Emq & Hmq52).
    { assert (2 ^ 31 < 2 ^ 53) by (apply Z.pow_lt_mono_r; lia). lia. }
    unfold double_of_int. rewrite Eint.
    destruct p as [sp|sp| |sp mp ep]; try reflexivity.
    rewrite SFmul_signs.
    destruct (SFmul_int_faithful (xorb s sp) mq mp eq ep q' Hp Hmq52 Heq Emq)
      as (mt & m1 & e' & Hr & _).
    exact (represents_valid _ _ _ _ Hr).
Qed.

(** Cash never becomes [-0.0]. *)
Lemma SFadd_not_negative_zero (c t : spec_float) :
  valid_binary prec emax c = true ->
  valid_binary prec emax t = true ->
  c <> S754_zero true -> SFadd prec emax c t <> S754_zero true.
Proof.
  intros Hc Ht Hnz.
  destruct c as [sc|sc| |sc mc ec], t as [st|st| |st mt et];
    cbn [SFadd]; try discriminate; try assumption.
  - destruct sc, st; try discriminate. contradiction Hnz. reflexivity.
  - destruct sc, st; discriminate.
  - apply binary_normalize_valid.
    assert (H1 := valid_exponent _ _ _ Hc).
    assert (H2 := valid_exponent _ _ _ Ht). lia.
Qed.

Lemma SFsub_not_negative_zero (c t : spec_float) :
  valid_binary prec emax c = true ->
  valid_binary prec emax t = true ->
  c <> S754_zero true -> SFsub prec emax c t <> S754_zero true.
Proof.
  intros Hc Ht Hnz.
  destruct c as [sc|sc| |sc mc ec], t as [st|st| |st mt et];
    cbn [SFsub SFopp]; try discriminate; try assumption.
  - destruct sc, st; try discriminate. contradiction Hnz. reflexivity.
  - destruct sc, st; discriminate.
  - apply binary_normalize_valid.
    assert (H1 := valid_exponent _ _ _ Hc).
    assert (H2 := valid_exponent _ _ _ Ht). lia.
Qed.

Lemma int_of_double_range (x : spec_float) (q : Z) :
  int_of_double x = Some q -> INT_MIN <= q <= INT_MAX.
Proof.
  unfold int_of_double. destruct (trunc x) as [z|]; [ | discriminate ].
  destruct ((INT_MIN <=? z) && (z <=? INT_MAX)) eqn:E; [ | discriminate ].
  intros [= <-]. apply andb_prop in E. destruct E as [E1 E2].
  apply Z.leb_le in E1. apply Z.leb_le in E2. lia.
Qed.

(** Signs *)

Lemma finite_positive_inv (p : double) :
  finite_positive p = true ->
  exists m e, p = S754_finite false m e /\ bounded prec emax m e = true.
Proof.
  destruct p as [| | |[|] m e]; try discriminate. simpl. eauto.
Qed.

Lemma non_negative_not_below_zero (x : double) :
  non_negative x = true -> lt x zero = false.
Proof. destruct x as [[|]|[|]| |[|] m e]; try discriminate; reflexivity. Qed.

Lemma represents_non_negative (m1 e' : Z) (f : double) :
  represents false m1 e' f -> non_negative f = true.
Proof.
  intros [[_ ->] | (m & e & _ & _ & Hc & ->)]; [ reflexivity | ].
  destruct (e <=? emax - prec) eqn:He; [ | reflexivity ].
  simpl. unfold bounded. rewrite Hc, He. reflexivity.
Qed.

Lemma add_non_negative (x p : double) :
  non_negative x = true -> finite_positive p = true ->
  non_negative (add x p) = true.
Proof.
  intros Hx Hp.
  destruct (finite_positive_inv p Hp) as (mp & ep & -> & Hbp).
  destruct x as [[|]|[|]| |[|] m e]; try discriminate; try exact Hbp;
    try reflexivity.
  simpl in Hx. unfold add. cbn [SFadd cond_Zopp].
  destruct (bounded_facts m e Hx) as (He & _).
  destruct (bounded_facts mp ep Hbp) as (Hep & _).
  rewrite <- Pos2Z.inj_add. cbn [binary_normalize].
  destruct (binary_round_represents false
              (fst (shl_align m e (Z.min e ep))
               + fst (shl_align mp ep (Z.min e ep)))
              (Z.min e ep) ltac:(lia)) as (m1 & e' & _ & _ & Hr).
  exact (represents_non_negative _ _ _ Hr).
Qed.

Lemma div_non_negative (x : double) (n : Z) :
  non_negative x = true -> 0 < n <= INT_MAX ->
  non_negative (div x (double_of_int n)) = true.
Proof.
  intros Hx Hn.
  destruct (binary_normalize_int false n) as (mq & eq & Eint & Hbq & _).
  { unfold INT_MAX in Hn.
    assert (2 ^ 31 < 2 ^ 53) by (apply Z.pow_lt_mono_r; lia). lia. }
  unfold double_of_int, div. cbn [cond_Zopp] in Eint. rewrite Eint.
  destruct x as [[|]|[|]| |[|] m e]; try discriminate; try reflexivity.
  simpl in Hx.
  destruct (SFdiv_faithful false m mq e eq Hx Hbq) as (mt & m1 & e' & Hr & _).
  exact (represents_non_negative _ _ _ Hr).
Qed.

(** ** Conversions and comparisons *)

Lemma size_t_of_int_nonneg (z : Z) :
  0 <= z <= INT_MAX -> size_t_of_int z = z.
Proof.
  unfold size_t_of_int, INT_MAX. intros H.
  apply Z.mod_small. lia.
Qed.

Lemma size_t_of_int_neg (z : Z) :
  INT_MIN <= z < 0 -> size_t_of_int z = 2 ^ 64 + z.
Proof.
  unfold size_t_of_int, INT_MIN. intros H.
  replace z with ((2 ^ 64 + z) + (-1) * 2 ^ 64) at 1 by ring.
  rewrite Z.mod_add by lia.
  apply Z.mod_small. lia.
Qed.

Lemma size_lt_int_spec (n : nat) (period : Z) :
  0 <= period <= INT_MAX ->
  size_lt_int n period = true <-> Z.of_nat n < period.
Proof.
  intros H. unfold size_lt_int.
  rewrite size_t_of_int_nonneg by exact H.
  apply Z.ltb_lt.
Qed.

Lemma size_lt_int_negative (n : nat) (period : Z) :
  INT_MIN <= period < 0 ->
  Z.of_nat n <= vector_max_size ->
  size_lt_int n period = true.
Proof.
  intros H Hn. unfold size_lt_int.
  rewrite size_t_of_int_neg by exact H.
  apply Z.ltb_lt.
  unfold INT_MIN in H.
  assert (vector_max_size < 2 ^ 63) by (vm_compute; reflexivity).
  lia.
Qed.

(** ** The moving average *)

Lemma last_elements_length (period : Z) (prices : list double) :
  0 <= period <= Z.of_nat (length prices) ->
  length (last_elements period prices) = Z.to_nat period.
Proof.
  intros H. unfold last_elements.
  rewrite length_skipn. lia.
Qed.

(** C2: for a period in [1, INT_MAX], [calculateSMA] returns the mean of
    the last [period] prices when there are at least [period] of them, and
    exactly the sentinel [0.0] when there are fewer. *)
Theorem calculateSMA_mean_or_sentinel (prices : list double) (period : Z) :
  0 < period <= INT_MAX ->
  (period <= Z.of_nat (length prices) ->
   calculateSMA prices period = mean (last_n (Z.to_nat period) prices))
  /\ (Z.of_nat (length prices) < period ->
      calculateSMA prices period = S754_zero false).
Proof.
  intros Hp. split; intros Hlen; unfold calculateSMA.
  - destruct (size_lt_int (length prices) period) eqn:E.
    + apply size_lt_int_spec in E; lia.
    + unfold mean, accumulate, last_n.
      fold (last_elements period prices).
      rewrite last_elements_length by lia.
      rewrite Z2Nat.id by lia. reflexivity.
  - destruct (size_lt_int (length prices) period) eqn:E.
    + reflexivity.
    + assert (size_lt_int (length prices) period = true) as E'
        by (apply size_lt_int_spec; lia).
      congruence.
Qed.

Lemma calculateSMA_mean_or_sentinel_witness :
  calculateSMA three_days 2
  = mean [double_of_int 101; double_of_int 102]
  /\ calculateSMA three_days 4 = S754_zero false.
Proof.
  split.
  - apply (proj1 (calculateSMA_mean_or_sentinel three_days 2
                    ltac:(unfold INT_MAX; lia))).
    simpl. lia.
  - apply (proj2 (calculateSMA_mean_or_sentinel three_days 4
                    ltac:(unfold INT_MAX; lia))).
    simpl. lia.
Defined.

(** ** One day of the crossover detector *)

Lemma not_self_app {A : Type} (l : list A) (x : A) : l <> l ++ [x].
Proof.
  intros H. apply (f_equal (@length A)) in H.
  rewrite length_app in H. simpl in H. lia.
Qed.

Lemma quiet_day_fires_nothing (st st' : sim_state) :
  output st' = output st -> ~ buy_fired st st' /\ ~ sell_fired st st'.
Proof.
  intros E. split.
  - intros (d & p & n & H). rewrite E in H. exact (not_self_app _ _ H).
  - intros (d & p & n & c & H). rewrite E in H. exact (not_self_app _ _ H).
Qed.

Lemma buy_line_is_no_sell (st st' : sim_state) (d : nat) (p : double) (n : Z) :
  output st' = output st ++ [BuySignal d p n] ->
  buy_fired st st' /\ ~ sell_fired st st'.
Proof.
  intros E. split.
  - exists d, p, n. exact E.
  - intros (d' & p' & n' & c' & H). rewrite E in H.
    apply app_inv_head in H. discriminate.
Qed.

Lemma sell_line_is_no_buy (st st' : sim_state) (d : nat) (p : double) (n : Z)
      (c : double) :
  output st' = output st ++ [SellSignal d p n c] ->
  sell_fired st st' /\ ~ buy_fired st st'.
Proof.
  intros E. split.
  - exists d, p, n, c. exact E.
  - intros (d' & p' & n' & H). rewrite E in H.
    apply app_inv_head in H. discriminate.
Qed.

(** The three ways a warmed-up day can end, read off [loop_body]. *)
Lemma loop_body_warmed_up (sw lw : Z) (i : nat) (price : double)
      (st st' : sim_state) :
  warming_up lw st price = false ->
  loop_body sw lw i price st = Some st' ->
  let cur := currentPrices st ++ [price] in
  let shortSMA := calculateSMA cur sw in
  let longSMA := calculateSMA cur lw in
  currentPrices st' = cur
  /\ prevShortSMA st' = shortSMA
  /\ prevLongSMA st' = longSMA
  /\ ((gt shortSMA longSMA = true
       /\ le (prevShortSMA st) (prevLongSMA st) = true
       /\ positionOpen st = false
       /\ int_of_double (div (portfolioValue st) price) = Some (sharesOwned st')
       /\ portfolioValue st'
          = sub (portfolioValue st)
                (mul (double_of_int (sharesOwned st')) price)
       /\ positionOpen st' = true
       /\ output st' = output st ++ [BuySignal (S i) price (sharesOwned st')])
      \/ (gt shortSMA longSMA && le (prevShortSMA st) (prevLongSMA st)
          && negb (positionOpen st) = false
          /\ lt shortSMA longSMA = true
          /\ ge (prevShortSMA st) (prevLongSMA st) = true
          /\ positionOpen st = true
          /\ portfolioValue st'
             = add (portfolioValue st)
                   (mul (double_of_int (sharesOwned st)) price)
          /\ sharesOwned st' = 0
          /\ positionOpen st' = false
          /\ output st'
             = output st ++ [SellSignal (S i) price (sharesOwned st)
                                        (portfolioValue st')])
      \/ (gt shortSMA longSMA && le (prevShortSMA st) (prevLongSMA st)
          && negb (positionOpen st) = false
          /\ lt shortSMA longSMA && ge (prevShortSMA st) (prevLongSMA st)
             && positionOpen st = false
          /\ portfolioValue st' = portfolioValue st
          /\ sharesOwned st' = sharesOwned st
          /\ positionOpen st' = positionOpen st
          /\ output st' = output st)).
Proof.
  unfold warming_up, loop_body. intros Hwarm. rewrite Hwarm.
  destruct (gt _ _ && le _ _ && negb _) eqn:Ebuy.
  - destruct (int_of_double _) as [n|] eqn:En; [ | discriminate ].
    intros [= <-]. simpl.
    apply andb_prop in Ebuy. destruct Ebuy as [Ebuy E3].
    apply andb_prop in Ebuy. destruct Ebuy as [E1 E2].
    apply negb_true_iff in E3.
    repeat split; auto. left. repeat split; auto.
  - destruct (lt _ _ && ge _ _ && positionOpen st) eqn:Esell.
    + intros [= <-]. simpl.
      apply andb_prop in Esell. destruct Esell as [Esell E3].
      apply andb_prop in Esell. destruct Esell as [E1 E2].
      repeat split; auto. right. left. repeat split; auto.
    + intros [= <-]. simpl.
      repeat split; auto. right. right. repeat split; auto.
Qed.

(** C3: on a warmed-up day a BUY fires exactly when the short average is
    strictly above the long one, was at or below it the day before, and no
    position is open.  When it fires the position is open afterwards, the
    shares bought are the truncated quotient of cash by price and their
    cost is deducted from cash; under the condition the day is carried out
    as soon as that quotient fits an [int]. *)
Theorem buy_signal_iff (sw lw : Z) (i : nat) (price : double)
        (st : sim_state) :
  warming_up lw st price = false ->
  let crossing :=
    gt (shortSMA_of sw st price) (longSMA_of lw st price) = true
    /\ le (prevShortSMA st) (prevLongSMA st) = true
    /\ positionOpen st = false in
  (forall st', loop_body sw lw i price st = Some st' ->
     (buy_fired st st' <-> crossing)
     /\ (buy_fired st st' ->
         positionOpen st' = true
         /\ int_of_double (div (portfolioValue st) price)
            = Some (sharesOwned st')
         /\ portfolioValue st'
            = sub (portfolioValue st)
                  (mul (double_of_int (sharesOwned st')) price)
         /\ output st'
            = output st ++ [BuySignal (S i) price (sharesOwned st')]))
  /\ (crossing ->
      forall n, int_of_double (div (portfolioValue st) price) = Some n ->
      exists st', loop_body sw lw i price st = Some st' /\ buy_fired st st').
Proof.
  unfold shortSMA_of, longSMA_of. intros Hwarm. split.
  - intros st' Hstep.
    destruct (loop_body_warmed_up sw lw i price st st' Hwarm Hstep)
      as (_ & _ & _ & [Hbuy | [Hsell | Hquiet]]).
    + destruct Hbuy as (H1 & H2 & H3 & H4 & H5 & H6 & H7).
      destruct (buy_line_is_no_sell _ _ _ _ _ H7) as [Hf _].
      split; [ split; auto | auto ].
    + destruct Hsell as (_ & _ & _ & Hopen & _ & _ & _ & Hout).
      destruct (sell_line_is_no_buy _ _ _ _ _ _ Hout) as [_ Hn].
      split; [ split | ]; try contradiction.
      intros (_ & _ & Hclosed). congruence.
    + destruct Hquiet as (Hb & _ & _ & _ & _ & Hout).
      destruct (quiet_day_fires_nothing _ _ Hout) as [Hn _].
      split; [ split | ]; try contradiction.
      intros (H1 & H2 & H3). rewrite H1, H2, H3 in Hb. discriminate.
  - intros (H1 & H2 & H3) n Hn.
    unfold warming_up in Hwarm.
    unfold loop_body. rewrite Hwarm, H1, H2, H3, Hn. simpl.
    eexists. split; [ reflexivity | ].
    exists (S i), price, n. reflexivity.
Qed.

(** C4: on a warmed-up day a SELL fires exactly when the short average is
    strictly below the long one, was at or above it the day before, and a
    position is open.  When it fires, cash grows by [sharesOwned * price],
    the share count returns to 0 and the position is closed.  A day on
    which the condition holds is always carried out. *)
Theorem sell_signal_iff (sw lw : Z) (i : nat) (price : double)
        (st : sim_state) :
  warming_up lw st price = false ->
  let crossing :=
    lt (shortSMA_of sw st price) (longSMA_of lw st price) = true
    /\ ge (prevShortSMA st) (prevLongSMA st) = true
    /\ positionOpen st = true in
  (forall st', loop_body sw lw i price st = Some st' ->
     (sell_fired st st' <-> crossing)
     /\ (sell_fired st st' ->
         portfolioValue st'
         = add (portfolioValue st) (mul (double_of_int (sharesOwned st)) price)
         /\ sharesOwned st' = 0
         /\ positionOpen st' = false
         /\ output st'
            = output st ++ [SellSignal (S i) price (sharesOwned st)
                                       (portfolioValue st')]))
  /\ (crossing ->
      exists st', loop_body sw lw i price st = Some st' /\ sell_fired st st').
Proof.
  unfold shortSMA_of, longSMA_of. intros Hwarm. split.
  - intros st' Hstep.
    destruct (loop_body_warmed_up sw lw i price st st' Hwarm Hstep)
      as (_ & _ & _ & [Hbuy | [Hsell | Hquiet]]).
    + destruct Hbuy as (_ & _ & Hclosed & _ & _ & _ & Hout).
      destruct (buy_line_is_no_sell _ _ _ _ _ Hout) as [_ Hn].
      split; [ split | ]; try contradiction.
      intros (_ & _ & Hopen). congruence.
    + destruct Hsell as (_ & H1 & H2 & H3 & H4 & H5 & H6 & H7).
      destruct (sell_line_is_no_buy _ _ _ _ _ _ H7) as [Hf _].
      split; [ split; auto | auto ].
    + destruct Hquiet as (_ & Hs & _ & _ & _ & Hout).
      destruct (quiet_day_fires_nothing _ _ Hout) as [_ Hn].
      split; [ split | ]; try contradiction.
      intros (H1 & H2 & H3). rewrite H1, H2, H3 in Hs. discriminate.
  - intros (H1 & H2 & H3).
    unfold warming_up in Hwarm.
    assert (gt (calculateSMA (currentPrices st ++ [price]) sw)
               (calculateSMA (currentPrices st ++ [price]) lw)
            && le (prevShortSMA st) (prevLongSMA st)
            && negb (positionOpen st) = false) as Hb
        by (rewrite H3; simpl; apply andb_false_r).
    unfold loop_body. rewrite Hwarm, Hb, H1, H2, H3. simpl.
    eexists. split; [ reflexivity | ].
    eexists _, _, _, _. reflexivity.
Qed.

(** A day of the warm-up, read off [loop_body]. *)
Lemma loop_body_warming_up (sw lw : Z) (i : nat) (price : double)
      (st : sim_state) :
  warming_up lw st price = true ->
  exists st', loop_body sw lw i price st = Some st'
              /\ only_history_grows st st' price.
Proof.
  unfold warming_up, loop_body. intros Hwarm. rewrite Hwarm.
  eexists. split; [ reflexivity | ].
  unfold only_history_grows. simpl. repeat split.
Qed.


Lemma buy_signal_iff_witness :
  exists st',
    loop_body 1 2 1 (double_of_int 101) day1_state = Some st'
    /\ buy_fired day1_state st'.
Proof.
  apply (proj2 (buy_signal_iff 1 2 1 (double_of_int 101) day1_state eq_refl))
    with (n := 99).
  - vm_compute. auto.
  - vm_compute. reflexivity.
Defined.

Lemma sell_signal_iff_witness :
  exists st',
    loop_body 1 2 2 (double_of_int 90) day2_state = Some st'
    /\ sell_fired day2_state st'.
Proof.
  apply (proj2 (sell_signal_iff 1 2 2 (double_of_int 90) day2_state eq_refl)).
  vm_compute. auto.
Defined.


(** ** The whole run *)

Lemma rising_series_report :
  runTradingSimulation rising_series 10 30
  = Some [Banner 10 30;
          BuySignal 30 (double_of_int (rising_price 30))
                    (10000 / rising_price 30);
          EndOfSimulation (10000 / rising_price 30)
                          (double_of_int (rising_price 200));
          SimulationComplete;
          FinalPortfolioValue
            (double_of_int
               (10000 / rising_price 30 * rising_price 200
                + (10000 - 10000 / rising_price 30 * rising_price 30)))].
Proof. vm_compute. reflexivity. Qed.

Lemma rising_series_quiet_before_day_30 (n : nat) (st : sim_state) :
  (n < 30)%nat ->
  state_after 10 30 rising_series n = Some st ->
  output st = [Banner 10 30] /\ positionOpen st = false.
Proof.
  intros Hn.
  do 30 (destruct n as [|n];
         [ intros H; vm_compute in H; injection H as <-; split; reflexivity
         | ]).
  lia.
Qed.

(** The report of the three zigzag days with windows 1 and 2. *)
Lemma zigzag_run : runTradingSimulation zigzag_days 1 2 = Some zigzag_report.
Proof. vm_compute. reflexivity. Qed.

(** C1: on the rising series (day [d] of 200 costs [100 + d]) with windows
    10 and 30, the only trade line is a BUY on day 30, nothing is printed
    and no position is open before that day, there is no SELL, and the
    final value is what 10000 buys in whole shares at the day-30 price,
    sold at the day-200 price, plus the cash left over. *)
Theorem rising_series_buys_once_on_day_30 :
  let shares := 10000 / rising_price 30 in
  let final :=
    shares * rising_price 200 + (10000 - shares * rising_price 30) in
  runTradingSimulation rising_series 10 30
  = Some [Banner 10 30;
          BuySignal 30 (double_of_int (rising_price 30)) shares;
          EndOfSimulation shares (double_of_int (rising_price 200));
          SimulationComplete;
          FinalPortfolioValue (double_of_int final)]
  /\ option_map buy_days (runTradingSimulation rising_series 10 30)
     = Some [30%nat]
  /\ option_map sell_days (runTradingSimulation rising_series 10 30)
     = Some []
  /\ (forall n st, (n < 30)%nat ->
        state_after 10 30 rising_series n = Some st ->
        output st = [Banner 10 30] /\ positionOpen st = false)
  /\ double_of_int final
     = add (mul (double_of_int shares) (double_of_int (rising_price 200)))
           (sub ten_thousand
                (mul (double_of_int shares) (double_of_int (rising_price 30)))).
Proof.
  split; [ exact rising_series_report | ].
  rewrite rising_series_report.
  split; [ reflexivity | ].
  split; [ reflexivity | ].
  split; [ exact rising_series_quiet_before_day_30 | ].
  vm_compute. reflexivity.
Qed.

(** The same run when the 200 prices are 100, 101, ..., 299: the BUY is
    again on day 30, now at 129. *)
Example rising_from_100 :
  runTradingSimulation
    (map (fun k => double_of_int (100 + Z.of_nat k)) (seq 0 200)) 10 30
  = Some [Banner 10 30;
          BuySignal 30 (double_of_int 129) (10000 / 129);
          EndOfSimulation (10000 / 129) (double_of_int 299);
          SimulationComplete;
          FinalPortfolioValue
            (double_of_int (10000 / 129 * 299 + (10000 - 10000 / 129 * 129)))].
Proof. vm_compute. reflexivity. Qed.

(** ** Invariants of the loop *)

Lemma sim_loop_preserves (sw lw : Z) (P : sim_state -> Prop) :
  (forall i price st st',
      P st -> loop_body sw lw i price st = Some st' -> P st') ->
  forall days i st st',
    P st -> sim_loop sw lw days i st = Some st' -> P st'.
Proof.
  intros Hbody. induction days as [|price rest IH]; simpl; intros i st st' HP.
  - intros [= <-]. exact HP.
  - destruct (loop_body sw lw i price st) as [st1|] eqn:E; [ | discriminate ].
    apply IH. exact (Hbody _ _ _ _ HP E).
Qed.

Lemma loop_body_cases (sw lw : Z) (i : nat) (price : double)
      (st st' : sim_state) :
  loop_body sw lw i price st = Some st' ->
  (warming_up lw st price = true /\ only_history_grows st st' price)
  \/ (warming_up lw st price = false
      /\ (buy_fired st st' /\ positionOpen st = false
          /\ positionOpen st' = true
          \/ sell_fired st st' /\ positionOpen st = true
             /\ positionOpen st' = false /\ sharesOwned st' = 0
          \/ output st' = output st
             /\ positionOpen st' = positionOpen st
             /\ sharesOwned st' = sharesOwned st
             /\ portfolioValue st' = portfolioValue st)).
Proof.
  intros Hstep.
  destruct (warming_up lw st price) eqn:Hwarm.
  - left. split; [ reflexivity | ].
    destruct (loop_body_warming_up sw lw i price st Hwarm)
      as (st1 & E & Hst1).
    congruence.
  - right. split; [ reflexivity | ].
    destruct (loop_body_warmed_up sw lw i price st st' Hwarm Hstep)
      as (_ & _ & _ & [Hbuy | [Hsell | Hquiet]]).
    + destruct Hbuy as (_ & _ & H3 & _ & _ & H6 & H7).
      left. repeat split; auto. eexists _, _, _. exact H7.
    + destruct Hsell as (_ & _ & _ & H3 & _ & H5 & H6 & H7).
      right. left. repeat split; auto. eexists _, _, _, _. exact H7.
    + destruct Hquiet as (_ & _ & H1 & H2 & H3 & H4).
      right. right. auto.
Qed.

(** Whenever no position is open, no share is held. *)
Lemma closed_position_holds_no_shares (sw lw : Z) (marketData : list double)
      (n : nat) (st : sim_state) :
  state_after sw lw marketData n = Some st ->
  positionOpen st = false -> sharesOwned st = 0.
Proof.
  unfold state_after.
  apply (sim_loop_preserves sw lw
           (fun s => positionOpen s = false -> sharesOwned s = 0)).
  - intros i price s s' Hs Hstep.
    destruct (loop_body_cases sw lw i price s s' Hstep)
      as [(_ & Hg) | (_ & [Hb | [Hs' | Hq]])].
    + destruct Hg as (_ & _ & E2 & E3 & _). rewrite E2, E3. exact Hs.
    + destruct Hb as (_ & _ & E). congruence.
    + destruct Hs' as (_ & _ & _ & E). intros _. exact E.
    + destruct Hq as (_ & E1 & E2 & _). rewrite E1, E2. exact Hs.
  - reflexivity.
Qed.

(** C7: the converse fails.  On 29 days at 10000 followed by a day at
    20000 the golden cross of day 30 buys [int(10000 / 20000) = 0] shares
    and still marks the position open. *)
Theorem position_open_with_no_shares :
  exists st,
    state_after 10 30 expensive_series 30 = Some st
    /\ positionOpen st = true
    /\ sharesOwned st = 0
    /\ output st = [Banner 10 30; BuySignal 30 (double_of_int 20000) 0].
Proof.
  eexists. split; [ vm_compute; reflexivity | ].
  repeat split.
Qed.

(** C5: cash goes below zero.  The prices rise by 1.75 a day from 101.75
    to 150.75 and reach 151.51515151515153, which is
    [0x12f07c1f07c1f1 * 2^-45], on day 30, the day of the golden cross.
    66 shares at that price cost more than 10000, but the quotient of
    10000.0 by the price, a little under 66, rounds to 66.0: 66 shares are
    bought for 10000.000000000002 and cash becomes [-2^-39]. *)
Theorem cash_negative_after_purchase :
  Forall (fun p => gt p zero = true /\ ge p ten = true) overspend_series
  /\ 10000 * 2 ^ 45 < 66 * 0x12f07c1f07c1f1
  /\ div ten_thousand price_151_52 = double_of_int 66
  /\ mul (double_of_int 66) price_151_52
     = S754_finite false (10000 * 2 ^ 39 + 1) (-39)
  /\ exists st,
       state_after 10 30 overspend_series 30 = Some st
       /\ output st = [Banner 10 30; BuySignal 30 price_151_52 66]
       /\ sharesOwned st = 66
       /\ portfolioValue st = S754_finite true (2 ^ 52) (-91)
       /\ lt (portfolioValue st) zero = true
       /\ ge (portfolioValue st) zero = false.
Proof.
  split; [ | split; [ | split; [ | split ] ] ].
  - unfold overspend_series.
    repeat (apply Forall_cons; [ split; vm_compute; reflexivity | ]).
    apply Forall_nil.
  - reflexivity.
  - vm_compute. reflexivity.
  - vm_compute. reflexivity.
  - eexists. split; [ vm_compute; reflexivity | ].
    repeat split.
Qed.

(** ** Configurations the program does not check *)

Lemma calculateSMA_period_zero (prices : list double) :
  calculateSMA prices 0 = S754_nan.
Proof.
  unfold calculateSMA, size_lt_int, size_t_of_int.
  rewrite Z.mod_0_l by lia.
  destruct (Z.of_nat (length prices) <? 0) eqn:E;
    [ apply Z.ltb_lt in E; lia | ].
  unfold last_elements. simpl Z.to_nat.
  rewrite Nat.sub_0_r, skipn_all. reflexivity.
Qed.

Lemma calculateSMA_period_negative (prices : list double) (period : Z) :
  INT_MIN <= period < 0 ->
  Z.of_nat (length prices) <= vector_max_size ->
  calculateSMA prices period = zero.
Proof.
  intros Hp Hlen. unfold calculateSMA.
  rewrite size_lt_int_negative by assumption. reflexivity.
Qed.

Lemma nan_is_never_below (x : double) : lt x S754_nan = false.
Proof. destruct x; reflexivity. Qed.

Lemma nan_is_never_above (x : double) : gt x S754_nan = false.
Proof. reflexivity. Qed.

Lemma nothing_is_below_nan (x : double) : lt S754_nan x = false.
Proof. reflexivity. Qed.

Lemma nothing_is_above_nan (x : double) : gt S754_nan x = false.
Proof. destruct x; reflexivity. Qed.

(** With a long window at or below zero, or a short window of zero, a day
    changes neither the ledger nor the output. *)
Lemma loop_body_degenerate (sw lw : Z) (i : nat) (price : double)
      (st : sim_state) :
  INT_MIN <= lw <= 0 \/ sw = 0 ->
  Z.of_nat (length (currentPrices st ++ [price])) <= vector_max_size ->
  exists st',
    loop_body sw lw i price st = Some st'
    /\ currentPrices st' = currentPrices st ++ [price]
    /\ portfolioValue st' = portfolioValue st
    /\ positionOpen st' = positionOpen st
    /\ output st' = output st.
Proof.
  intros Hcfg Hlen.
  destruct (warming_up lw st price) eqn:Hwarm.
  - destruct (loop_body_warming_up sw lw i price st Hwarm)
      as (st' & E & H1 & H2 & _ & H4 & _ & _ & H7).
    exists st'. auto.
  - assert (calculateSMA (currentPrices st ++ [price]) lw = S754_nan
            \/ calculateSMA (currentPrices st ++ [price]) sw = S754_nan)
      as Hnan.
    { destruct Hcfg as [Hlw | ->].
      - left. assert (lw = 0 \/ INT_MIN <= lw < 0) as [-> | Hneg] by lia.
        + apply calculateSMA_period_zero.
        + unfold warming_up in Hwarm.
          rewrite size_lt_int_negative in Hwarm by assumption.
          discriminate.
      - right. apply calculateSMA_period_zero. }
    unfold warming_up in Hwarm. unfold loop_body. rewrite Hwarm.
    destruct Hnan as [-> | ->].
    + rewrite nan_is_never_above, nan_is_never_below. simpl.
      eexists. repeat split.
    + rewrite nothing_is_above_nan, nothing_is_below_nan. simpl.
      eexists. repeat split.
Qed.

Lemma sim_loop_degenerate (sw lw : Z) :
  INT_MIN <= lw <= 0 \/ sw = 0 ->
  forall days i st,
    Z.of_nat (length (currentPrices st) + length days) <= vector_max_size ->
    exists st',
      sim_loop sw lw days i st = Some st'
      /\ portfolioValue st' = portfolioValue st
      /\ positionOpen st' = positionOpen st
      /\ output st' = output st.
Proof.
  intros Hcfg. induction days as [|price rest IH]; simpl; intros i st Hlen.
  - exists st. auto.
  - destruct (loop_body_degenerate sw lw i price st Hcfg)
      as (st1 & E & Hc & Hp & Ho & Hout).
    { rewrite length_app. simpl. lia. }
    rewrite E.
    destruct (IH (S i) st1) as (st' & E' & Hp' & Ho' & Hout').
    { rewrite Hc, length_app. simpl. lia. }
    exists st'. repeat split; congruence.
Qed.

(** The report always opens with the banner. *)
Lemma output_starts_with_banner (sw lw : Z) (days : list double) (i : nat)
      (st st' : sim_state) :
  (exists trades, output st = Banner sw lw :: trades) ->
  sim_loop sw lw days i st = Some st' ->
  exists trades, output st' = Banner sw lw :: trades.
Proof.
  intros H Hloop.
  apply (sim_loop_preserves sw lw
           (fun s => exists trades, output s = Banner sw lw :: trades))
    with (days := days) (i := i) (st := st); [ | exact H | exact Hloop ].
  intros j price s s' (trades & Hs) Hstep.
  destruct (loop_body_cases sw lw j price s s' Hstep)
    as [(_ & Hg) | (_ & [Hb | [Hs' | Hq]])].
  - destruct Hg as (_ & _ & _ & _ & _ & _ & E). rewrite E. eauto.
  - destruct Hb as ((d & p & n & E) & _). rewrite E, Hs.
    eexists. reflexivity.
  - destruct Hs' as ((d & p & n & c & E) & _). rewrite E, Hs.
    eexists. reflexivity.
  - destruct Hq as (E & _). rewrite E. eauto.
Qed.

(** Sums and averages of positive prices are not below zero. *)
Lemma accumulate_non_negative (l : list double) (x : double) :
  Forall (fun p => finite_positive p = true) l ->
  non_negative x = true ->
  non_negative (accumulate l x) = true.
Proof.
  unfold accumulate. revert x.
  induction l as [|p l IH]; simpl; intros x Hl Hx; [ exact Hx | ].
  inversion Hl as [|? ? Hp Hrest]; subst.
  apply IH; [ exact Hrest | ]. apply add_non_negative; assumption.
Qed.

Lemma Forall_skipn_of {A : Type} (Q : A -> Prop) (n : nat) (l : list A) :
  Forall Q l -> Forall Q (skipn n l).
Proof.
  revert n. induction l as [|x l IH]; intros [|n] H; simpl; try assumption.
  apply IH. inversion H; assumption.
Qed.

Lemma calculateSMA_non_negative (prices : list double) (period : Z) :
  Forall (fun p => finite_positive p = true) prices ->
  0 < period <= INT_MAX ->
  non_negative (calculateSMA prices period) = true.
Proof.
  intros Hp Hn. unfold calculateSMA.
  destruct (size_lt_int (length prices) period); [ reflexivity | ].
  apply div_non_negative; [ | exact Hn ].
  apply accumulate_non_negative; [ | reflexivity ].
  apply Forall_skipn_of. exact Hp.
Qed.

(** With a negative short window the short average is the sentinel, which
    is never above an average of positive prices: while no position is
    open, nothing happens. *)
Lemma loop_body_negative_short_window (sw lw : Z) (i : nat) (price : double)
      (st : sim_state) :
  INT_MIN <= sw < 0 -> 0 < lw <= INT_MAX ->
  Forall (fun p => finite_positive p = true) (currentPrices st ++ [price]) ->
  positionOpen st = false ->
  Z.of_nat (length (currentPrices st ++ [price])) <= vector_max_size ->
  exists st',
    loop_body sw lw i price st = Some st'
    /\ currentPrices st' = currentPrices st ++ [price]
    /\ portfolioValue st' = portfolioValue st
    /\ positionOpen st' = false
    /\ output st' = output st.
Proof.
  intros Hsw Hlw Hprices Hclosed Hlen.
  destruct (warming_up lw st price) eqn:Hwarm.
  - destruct (loop_body_warming_up sw lw i price st Hwarm)
      as (st' & E & H1 & H2 & _ & H4 & _ & _ & H7).
    exists st'. repeat split; congruence.
  - unfold warming_up in Hwarm. unfold loop_body. rewrite Hwarm.
    rewrite (calculateSMA_period_negative _ sw Hsw Hlen).
    assert (gt zero (calculateSMA (currentPrices st ++ [price]) lw) = false)
      as -> by (apply non_negative_not_below_zero,
                calculateSMA_non_negative; assumption).
    rewrite Hclosed. simpl. rewrite andb_false_r.
    eexists. repeat split.
Qed.

Lemma sim_loop_negative_short_window (sw lw : Z) :
  INT_MIN <= sw < 0 -> 0 < lw <= INT_MAX ->
  forall days i st,
    Forall (fun p => finite_positive p = true) (currentPrices st ++ days) ->
    positionOpen st = false ->
    Z.of_nat (length (currentPrices st) + length days) <= vector_max_size ->
    exists st',
      sim_loop sw lw days i st = Some st'
      /\ portfolioValue st' = portfolioValue st
      /\ positionOpen st' = false
      /\ output st' = output st.
Proof.
  intros Hsw Hlw. induction days as [|price rest IH]; simpl;
    intros i st Hprices Hclosed Hlen.
  - exists st. auto.
  - replace (currentPrices st ++ price :: rest)
      with ((currentPrices st ++ [price]) ++ rest) in Hprices
      by (rewrite <- app_assoc; reflexivity).
    destruct (loop_body_negative_short_window sw lw i price st Hsw Hlw)
      as (st1 & E & Hc & Hp & Ho & Hout).
    { apply Forall_app in Hprices. tauto. }
    { exact Hclosed. }
    { rewrite length_app. simpl. lia. }
    rewrite E.
    destruct (IH (S i) st1) as (st' & E' & Hp' & Ho' & Hout').
    { rewrite Hc. exact Hprices. }
    { exact Ho. }
    { rewrite Hc, length_app. simpl. lia. }
    exists st'. repeat split; congruence.
Qed.

(** C6, as the program behaves: no configuration is rejected.  Whenever
    [runTradingSimulation] returns it has printed the banner, the
    completion line and a final value.  With a long window at or below
    zero, or a short window of zero, it does return, without a single
    trade, and reports the initial 10000.0; on finite positive prices it
    does so for every window at or below zero.  A period of zero makes
    [calculateSMA] return NaN, a negative period makes it return the
    sentinel [0.0]. *)
Theorem no_configuration_is_rejected (marketData : list double) (sw lw : Z) :
  (forall out, runTradingSimulation marketData sw lw = Some out ->
               simulation_ran (Some out))
  /\ (Z.of_nat (length marketData) <= vector_max_size ->
      INT_MIN <= lw <= 0 \/ sw = 0 ->
      runTradingSimulation marketData sw lw
      = Some [Banner sw lw; SimulationComplete;
              FinalPortfolioValue ten_thousand])
  /\ (Z.of_nat (length marketData) <= vector_max_size ->
      int_range sw -> int_range lw ->
      invalid_configuration sw lw ->
      Forall (fun p => finite_positive p = true) marketData ->
      runTradingSimulation marketData sw lw
      = Some [Banner sw lw; SimulationComplete;
              FinalPortfolioValue ten_thousand])
  /\ calculateSMA marketData 0 = S754_nan
  /\ (Z.of_nat (length marketData) <= vector_max_size ->
      INT_MIN <= sw < 0 ->
      calculateSMA marketData sw = S754_zero false).
Proof.
  assert (forall st,
             sim_loop sw lw marketData 0 (initial_state sw lw) = Some st ->
             portfolioValue st = ten_thousand -> positionOpen st = false ->
             output st = [Banner sw lw] ->
             runTradingSimulation marketData sw lw
             = Some [Banner sw lw; SimulationComplete;
                     FinalPortfolioValue ten_thousand]) as Hquiet.
  { intros st E Hp Ho Hout.
    unfold runTradingSimulation, final_state. rewrite E.
    unfold final_liquidation. rewrite Ho. simpl.
    rewrite Hout, Hp. reflexivity. }
  split; [ | split; [ | split; [ | split ] ] ].
  - intros out. unfold runTradingSimulation, final_state.
    destruct (sim_loop sw lw marketData 0 (initial_state sw lw))
      as [st|] eqn:E; [ | discriminate ].
    intros [= <-].
    assert (exists trades,
               output (initial_state sw lw) = Banner sw lw :: trades) as H0
        by (exists []; reflexivity).
    destruct (output_starts_with_banner sw lw marketData 0 _ st H0 E)
      as (trades & Ht).
    unfold final_liquidation.
    destruct (positionOpen st); simpl; rewrite Ht.
    + exists sw, lw, (trades ++ [EndOfSimulation (sharesOwned st)
                                                 (last marketData zero)]).
      eexists. reflexivity.
    + exists sw, lw, trades. eexists. reflexivity.
  - intros Hlen Hcfg.
    destruct (sim_loop_degenerate sw lw Hcfg marketData 0
                (initial_state sw lw) Hlen) as (st & E & Hp & Ho & Hout).
    exact (Hquiet st E Hp Ho Hout).
  - intros Hlen Hsw Hlw Hcfg Hprices.
    assert (INT_MIN <= lw <= 0 \/ sw = 0
            \/ (INT_MIN <= sw < 0 /\ 0 < lw <= INT_MAX))
      as [H | [H | [H1 H2]]]
        by (unfold invalid_configuration, int_range in *; lia).
    + destruct (sim_loop_degenerate sw lw (or_introl H) marketData 0
                  (initial_state sw lw) Hlen) as (st & E & Hp & Ho & Hout).
      exact (Hquiet st E Hp Ho Hout).
    + destruct (sim_loop_degenerate sw lw (or_intror H) marketData 0
                  (initial_state sw lw) Hlen) as (st & E & Hp & Ho & Hout).
      exact (Hquiet st E Hp Ho Hout).
    + destruct (sim_loop_negative_short_window sw lw H1 H2 marketData 0
                  (initial_state sw lw) Hprices eq_refl Hlen)
        as (st & E & Hp & Ho & Hout).
      exact (Hquiet st E Hp Ho Hout).
  - apply calculateSMA_period_zero.
  - intros Hlen Hsw. apply calculateSMA_period_negative; assumption.
Qed.

Lemma no_configuration_is_rejected_witness :
  runTradingSimulation three_days 10 0
  = Some [Banner 10 0; SimulationComplete; FinalPortfolioValue ten_thousand]
  /\ calculateSMA three_days (-1) = S754_zero false
  /\ runTradingSimulation three_days (-1) 2
     = Some [Banner (-1) 2; SimulationComplete;
             FinalPortfolioValue ten_thousand].
Proof.
  split; [ | split ].
  - apply (proj1 (proj2 (no_configuration_is_rejected three_days 10 0))).
    + vm_compute. discriminate.
    + left. unfold INT_MIN. lia.
  - apply (proj2 (proj2 (proj2 (proj2
             (no_configuration_is_rejected three_days (-1) 30))))).
    + vm_compute. discriminate.
    + unfold INT_MIN. lia.
  - apply (proj1 (proj2 (proj2
             (no_configuration_is_rejected three_days (-1) 2)))).
    + vm_compute. discriminate.
    + unfold int_range, INT_MIN, INT_MAX. lia.
    + unfold int_range, INT_MIN, INT_MAX. lia.
    + left. lia.
    + repeat constructor.
Defined.

(** C6, as stated, fails: a long window of zero is simulated like any other
    and its report ends in a final value. *)
Lemma invalid_configuration_is_simulated :
  ~ (forall marketData sw lw,
        invalid_configuration sw lw ->
        ~ simulation_ran (runTradingSimulation marketData sw lw)).
Proof.
  intros H.
  apply (H three_days 10 0).
  - right. lia.
  - exists 10, 0, [], ten_thousand. vm_compute. reflexivity.
Qed.

(** ** The order of the trade lines *)

Lemma trade_days_app (l1 l2 : list event) :
  trade_days (l1 ++ l2) = trade_days l1 ++ trade_days l2.
Proof.
  induction l1 as [|ev l1 IH]; simpl; [ reflexivity | ].
  destruct ev; simpl; rewrite IH; reflexivity.
Qed.

Lemma sorted_snoc (l : list nat) (d : nat) :
  StronglySorted Nat.lt l -> Forall (fun x => (x < d)%nat) l ->
  StronglySorted Nat.lt (l ++ [d]).
Proof.
  induction l as [|x l IH]; simpl; intros Hs Hb.
  - constructor; constructor.
  - inversion Hs as [|? ? Hs' Hx]; subst.
    inversion Hb as [|? ? Hxd Hb']; subst.
    constructor; [ apply IH; assumption | ].
    apply Forall_app. split; [ exact Hx | constructor; [ exact Hxd | constructor ] ].
Qed.

(** The trade lines come out in the order of the days: day numbers
    increase strictly along the report, and lie between 1 and the number
    of prices. *)
Lemma sim_loop_day_order (sw lw : Z) (days : list double) :
  forall i st st',
    StronglySorted Nat.lt (trade_days (output st)) ->
    Forall (fun d => (1 <= d <= i)%nat) (trade_days (output st)) ->
    sim_loop sw lw days i st = Some st' ->
    StronglySorted Nat.lt (trade_days (output st'))
    /\ Forall (fun d => (1 <= d <= i + length days)%nat)
              (trade_days (output st')).
Proof.
  induction days as [|price rest IH]; simpl; intros i st st' Hs Hb.
  - intros [= <-]. split; [ exact Hs | ].
    rewrite Nat.add_0_r. exact Hb.
  - destruct (loop_body sw lw i price st) as [st1|] eqn:E; [ | discriminate ].
    intros Hloop.
    assert (StronglySorted Nat.lt (trade_days (output st1))
            /\ Forall (fun d => (1 <= d <= S i)%nat) (trade_days (output st1)))
      as [Hs1 Hb1].
    { assert (Forall (fun d => (1 <= d <= S i)%nat) (trade_days (output st)))
        as Hb' by (eapply Forall_impl; [ | exact Hb ]; simpl; intros; lia).
      assert (Forall (fun d => (d < S i)%nat) (trade_days (output st)))
        as Hlt by (eapply Forall_impl; [ | exact Hb ]; simpl; intros; lia).
      destruct (loop_body_cases sw lw i price st st1 E)
        as [(_ & Hg) | (Hwarm & _)].
      - destruct Hg as (_ & _ & _ & _ & _ & _ & Hout). rewrite Hout. auto.
      - destruct (loop_body_warmed_up sw lw i price st st1 Hwarm E)
          as (_ & _ & _ & [Hbuy | [Hsell | Hquiet]]).
        + destruct Hbuy as (_ & _ & _ & _ & _ & _ & Hout).
          rewrite Hout, trade_days_app. simpl. split.
          * apply sorted_snoc; assumption.
          * apply Forall_app. split; [ exact Hb' | ].
            constructor; [ lia | constructor ].
        + destruct Hsell as (_ & _ & _ & _ & _ & _ & _ & Hout).
          rewrite Hout, trade_days_app. simpl. split.
          * apply sorted_snoc; assumption.
          * apply Forall_app. split; [ exact Hb' | ].
            constructor; [ lia | constructor ].
        + destruct Hquiet as (_ & _ & _ & _ & _ & Hout). rewrite Hout. auto. }
    destruct (IH (S i) st1 st' Hs1 Hb1 Hloop) as [Hs' Hb'].
    split; [ exact Hs' | ].
    eapply Forall_impl; [ | exact Hb' ]. simpl. intros. lia.
Qed.

(** X8: the trade lines of a report come in strictly increasing order of
    their days, which lie between 1 and the number of prices: at most one
    trade a day. *)
Theorem trade_lines_in_day_order (marketData : list double) (sw lw : Z)
      (out : list event) :
  runTradingSimulation marketData sw lw = Some out ->
  StronglySorted Nat.lt (trade_days out)
  /\ Forall (fun d => (1 <= d <= length marketData)%nat) (trade_days out).
Proof.
  unfold runTradingSimulation, final_state.
  destruct (sim_loop sw lw marketData 0 (initial_state sw lw)) as [st|] eqn:E;
    [ | discriminate ].
  intros [= <-].
  assert (trade_days (output (initial_state sw lw)) = []) as H0 by reflexivity.
  destruct (sim_loop_day_order sw lw marketData 0 (initial_state sw lw) st)
    as [Hs Hb]; [ rewrite H0; constructor | rewrite H0; constructor | exact E | ].
  assert (trade_days
            (output (final_liquidation marketData st)
             ++ [SimulationComplete;
                 FinalPortfolioValue
                   (portfolioValue (final_liquidation marketData st))])
          = trade_days (output st)) as ->.
  { rewrite trade_days_app. simpl. rewrite app_nil_r.
    unfold final_liquidation. destruct (positionOpen st); [ | reflexivity ].
    simpl. rewrite trade_days_app. simpl. apply app_nil_r. }
  split; assumption.
Qed.

Lemma trade_lines_in_day_order_witness :
  StronglySorted Nat.lt (trade_days zigzag_report)
  /\ Forall (fun d => (1 <= d <= length zigzag_days)%nat)
            (trade_days zigzag_report).
Proof.
  exact (trade_lines_in_day_order zigzag_days 1 2 zigzag_report zigzag_run).
Defined.

(** ** Trades at their own price *)

Lemma sim_loop_preserves_on (sw lw : Z) (Q : double -> Prop)
      (P : sim_state -> Prop) :
  (forall i price st st',
      Q price -> P st -> loop_body sw lw i price st = Some st' -> P st') ->
  forall days i st st',
    Forall Q days -> P st -> sim_loop sw lw days i st = Some st' -> P st'.
Proof.
  intros Hbody. induction days as [|price rest IH]; simpl; intros i st st' HQ HP.
  - intros [= <-]. exact HP.
  - destruct (loop_body sw lw i price st) as [st1|] eqn:E; [ | discriminate ].
    inversion HQ as [|? ? Hprice Hrest]; subst.
    apply IH; [ exact Hrest | ]. exact (Hbody _ _ _ _ Hprice HP E).
Qed.

Lemma sim_loop_app (sw lw : Z) (l1 l2 : list double) (i : nat)
      (st : sim_state) :
  sim_loop sw lw (l1 ++ l2) i st
  = match sim_loop sw lw l1 i st with
    | Some st1 => sim_loop sw lw l2 (i + length l1) st1
    | None => None
    end.
Proof.
  revert i st. induction l1 as [|p l1 IH]; simpl; intros i st.
  - rewrite Nat.add_0_r. reflexivity.
  - destruct (loop_body sw lw i p st) as [st1|]; [ | reflexivity ].
    rewrite IH. replace (S i + length l1)%nat with (i + S (length l1))%nat by lia.
    reflexivity.
Qed.

Lemma firstn_succ_nth {A : Type} (l : list A) (n : nat) (a : A) :
  nth_error l n = Some a -> firstn (S n) l = firstn n l ++ [a].
Proof.
  revert n. induction l as [|x l IH]; intros [|n]; simpl; try discriminate.
  - intros [= ->]. reflexivity.
  - intros H. f_equal. apply IH. exact H.
Qed.

Lemma Forall_firstn_of {A : Type} (Q : A -> Prop) (n : nat) (l : list A) :
  Forall Q l -> Forall Q (firstn n l).
Proof.
  revert n. induction l as [|x l IH]; intros [|n] H; simpl; try constructor.
  - inversion H; assumption.
  - apply IH. inversion H; assumption.
Qed.

(** Day [n + 1] is one more turn of the loop body, at index [n]. *)
Lemma state_after_succ (sw lw : Z) (marketData : list double) (n : nat)
      (p : double) :
  nth_error marketData n = Some p ->
  state_after sw lw marketData (S n)
  = match state_after sw lw marketData n with
    | Some st => loop_body sw lw n p st
    | None => None
    end.
Proof.
  intros Hn. unfold state_after.
  rewrite (firstn_succ_nth _ _ _ Hn), sim_loop_app.
  destruct (sim_loop sw lw (firstn n marketData) 0 (initial_state sw lw))
    as [st|]; [ | reflexivity ].
  simpl. destruct (loop_body sw lw _ p st) eqn:E.
  - rewrite length_firstn in E.
    assert (n < length marketData)%nat
      by (apply nth_error_Some; congruence).
    rewrite Nat.min_l in E by lia. rewrite E. reflexivity.
  - rewrite length_firstn in E.
    assert (n < length marketData)%nat
      by (apply nth_error_Some; congruence).
    rewrite Nat.min_l in E by lia. rewrite E. reflexivity.
Qed.

(** On binary64 prices cash stays a binary64 number or NaN, is never
    [-0.0], and the share count stays an [int]. *)
Lemma cash_is_well_formed (sw lw : Z) (marketData : list double) (n : nat)
      (st : sim_state) :
  Forall (fun p => binary64 p = true) marketData ->
  state_after sw lw marketData n = Some st ->
  valid_binary prec emax (portfolioValue st) = true
  /\ portfolioValue st <> S754_zero true
  /\ int_range (sharesOwned st).
Proof.
  intros Hprices. unfold state_after.
  apply (sim_loop_preserves_on sw lw (fun p => binary64 p = true)
           (fun s => valid_binary prec emax (portfolioValue s) = true
                     /\ portfolioValue s <> S754_zero true
                     /\ int_range (sharesOwned s))).
  - intros i price s s' Hp (Hv & Hz & Hr) Hstep.
    unfold binary64 in Hp.
    destruct (warming_up lw s price) eqn:Hwarm.
    + destruct (loop_body_warming_up sw lw i _ s Hwarm)
        as (s1 & E & _ & E2 & E3 & _).
      assert (s1 = s') as <- by congruence.
      rewrite E2, E3. auto.
    + destruct (loop_body_warmed_up sw lw i _ s s' Hwarm Hstep)
        as (_ & _ & _ & [Hbuy | [Hsell | Hquiet]]).
      * destruct Hbuy as (_ & _ & _ & Hq & Hcash & _).
        assert (Hrange := int_of_double_range _ _ Hq).
        assert (Hvt := SFmul_int_binary64 _ price Hrange Hp).
        rewrite Hcash. unfold sub, mul.
        split; [ apply SFsub_valid; assumption | ].
        split; [ apply SFsub_not_negative_zero; assumption | exact Hrange ].
      * destruct Hsell as (_ & _ & _ & _ & Hcash & Hzero & _).
        assert (Hvt := SFmul_int_binary64 _ price Hr Hp).
        rewrite Hcash, Hzero. unfold add, mul.
        split; [ apply SFadd_valid; assumption | ].
        split; [ apply SFadd_not_negative_zero; assumption | ].
        unfold int_range, INT_MIN, INT_MAX; lia.
      * destruct Hquiet as (_ & _ & E1 & E2 & _). rewrite E1, E2. auto.
  - apply Forall_firstn_of. exact Hprices.
  - split; [ reflexivity | ].
    split; [ discriminate | unfold int_range, INT_MIN, INT_MAX; simpl; lia ].
Qed.

Lemma SFadd_signed_zero_r (x : double) (s : bool) :
  x <> S754_zero true -> add x (S754_zero s) = x.
Proof.
  destruct x as [[|]| | |]; try reflexivity.
  - intros H. contradiction H. reflexivity.
  - destruct s; reflexivity.
Qed.

(** No shares at a finite price are worth a zero. *)
Lemma nothing_is_worth_zero (p : double) :
  finite_double p = true ->
  exists s, mul (double_of_int 0) p = S754_zero s.
Proof.
  destruct p as [s|s| |s m e]; try discriminate; intros _.
  - exists s. reflexivity.
  - exists s. reflexivity.
Qed.

(** C10, as the program behaves.  Every BUY whose cost
    [sharesToBuy * p] is finite and every SELL at a finite price [p]
    leaves [portfolioValue + sharesOwned * p], computed in doubles at the
    price [p] of the trade, exactly as it was.  The liquidation after the
    loop adds [sharesOwned * p] to cash, so that the final portfolio
    value is that quantity as it stood before. *)
Theorem trades_conserve_marked_to_market
        (sw lw : Z) (marketData : list double) :
  Forall (fun p => binary64 p = true) marketData ->
  (forall n p st st',
      state_after sw lw marketData n = Some st ->
      nth_error marketData n = Some p ->
      state_after sw lw marketData (S n) = Some st' ->
      (buy_fired st st' ->
       finite_double (mul (double_of_int (sharesOwned st')) p) = true ->
       marked_to_market st' p = marked_to_market st p)
      /\ (sell_fired st st' ->
          finite_double p = true ->
          marked_to_market st' p = marked_to_market st p))
  /\ (forall st,
        sim_loop sw lw marketData 0 (initial_state sw lw) = Some st ->
        positionOpen st = true ->
        portfolioValue (final_liquidation marketData st)
        = marked_to_market st (last marketData zero)).
Proof.
  intros Hprices. split.
  - intros n p st st' Hst Hp Hst'.
    destruct (cash_is_well_formed sw lw marketData n st Hprices Hst)
      as (Hvalid & Hnz & Hrange).
    destruct (cash_is_well_formed sw lw marketData (S n) st' Hprices Hst')
      as (Hvalid' & Hnz' & _).
    rewrite (state_after_succ sw lw marketData n p Hp), Hst in Hst'.
    assert (valid_binary prec emax p = true) as Hvp.
    { rewrite Forall_forall in Hprices. apply Hprices.
      exact (nth_error_In _ _ Hp). }
    destruct (warming_up lw st p) eqn:Hwarm.
    { destruct (loop_body_warming_up sw lw n _ st Hwarm)
        as (s1 & E & _ & _ & _ & _ & _ & _ & Hout).
      assert (s1 = st') as <- by congruence.
      destruct (quiet_day_fires_nothing _ _ Hout) as [Hnb Hns].
      split; intros; contradiction. }
    destruct (loop_body_warmed_up sw lw n _ st st' Hwarm Hst')
      as (_ & _ & _ & [Hbuy | [Hsell | Hquiet]]).
    + destruct Hbuy as (_ & _ & Hclosed & Hq & Hcash & _ & Hout).
      destruct (buy_line_is_no_sell _ _ _ _ _ Hout) as [_ Hns].
      split; [ | intros; contradiction ].
      intros _ Hcost.
      assert (sharesOwned st = 0) as Hnone
          by exact (closed_position_holds_no_shares sw lw marketData n st
                      Hst Hclosed).
      unfold marked_to_market. rewrite Hcash, Hnone.
      assert (finite_double p = true) as Hfp.
      { destruct p as [sp|sp| |sp mp ep]; try reflexivity.
        - destruct (portfolioValue st) as [sc|sc| |sc mc ec];
            try discriminate Hq.
          + assert (int_of_double (div (S754_zero sc) (S754_infinity sp))
                    = Some 0) as H0 by (destruct sc, sp; reflexivity).
            assert (sharesOwned st' = 0) as E0 by congruence.
            rewrite E0 in Hcost. destruct sp; discriminate Hcost.
          + assert (int_of_double
                      (div (S754_finite sc mc ec) (S754_infinity sp))
                    = Some 0) as H0 by (destruct sc, sp; reflexivity).
            assert (sharesOwned st' = 0) as E0 by congruence.
            rewrite E0 in Hcost. destruct sp; discriminate Hcost.
        - destruct (portfolioValue st); discriminate Hq.
        - exact Hvp. }
      destruct (nothing_is_worth_zero p Hfp) as (s0 & ->).
      rewrite (SFadd_signed_zero_r _ s0 Hnz).
      destruct (portfolioValue st) as [sc|sc| |sc mc ec] eqn:Ec.
      * (* no cash: nothing is bought *)
        destruct p as [sp|sp| |sp mp ep]; try discriminate Hfp;
          try discriminate Hq.
        assert (int_of_double
                  (div (S754_zero sc) (S754_finite sp mp ep)) = Some 0)
          as H0 by (destruct sc, sp; reflexivity).
        assert (sharesOwned st' = 0) as -> by congruence.
        destruct sc, sp; try reflexivity; contradiction Hnz; reflexivity.
      * destruct p; discriminate Hq.
      * discriminate Hq.
      * destruct p as [sp|sp| |sp mp ep]; try discriminate Hfp.
        -- destruct sc, sp; discriminate Hq.
        -- apply purchase_at_finite_cost_is_exact; assumption.
    + destruct Hsell as (_ & _ & _ & _ & Hcash & Hzero & _ & Hout).
      destruct (sell_line_is_no_buy _ _ _ _ _ _ Hout) as [_ Hnb].
      split; [ intros; contradiction | ].
      intros _ Hfp. unfold marked_to_market. rewrite Hzero.
      destruct (nothing_is_worth_zero p Hfp) as (s0 & ->).
      rewrite (SFadd_signed_zero_r _ s0 Hnz'). exact Hcash.
    + destruct Hquiet as (_ & _ & _ & _ & _ & Hout).
      destruct (quiet_day_fires_nothing _ _ Hout) as [Hnb Hns].
      split; intros; contradiction.
  - intros st _ Hopen. unfold final_liquidation. rewrite Hopen.
    reflexivity.
Qed.

Lemma trades_conserve_marked_to_market_witness :
  marked_to_market day2_state (double_of_int 101)
  = marked_to_market day1_state (double_of_int 101)
  /\ marked_to_market day3_state (double_of_int 90)
     = marked_to_market day2_state (double_of_int 90).
Proof.
  assert (Forall (fun p => binary64 p = true) zigzag_days) as Hprices
      by (repeat constructor).
  assert (output day2_state
          = output day1_state ++ [BuySignal 2 (double_of_int 101) 99])
    as Hbuy by (vm_compute; reflexivity).
  assert (output day3_state
          = output day2_state
            ++ [SellSignal 3 (double_of_int 90) 99 (double_of_int 8911)])
    as Hsell by (vm_compute; reflexivity).
  split.
  - apply (proj1 (proj1 (trades_conserve_marked_to_market 1 2 zigzag_days
                           Hprices)
                    1%nat (double_of_int 101) day1_state day2_state
                    eq_refl eq_refl eq_refl)).
    + exists 2%nat, (double_of_int 101), 99. exact Hbuy.
    + vm_compute. reflexivity.
  - apply (proj2 (proj1 (trades_conserve_marked_to_market 1 2 zigzag_days
                           Hprices)
                    2%nat (double_of_int 90) day2_state day3_state
                    eq_refl eq_refl eq_refl)).
    + exists 3%nat, (double_of_int 90), 99, (double_of_int 8911). exact Hsell.
    + reflexivity.
Defined.

(** C10, as stated, fails where a purchase overflows and where a price is
    infinite.  With windows 1 and 2 on [overflow_days] one share is
    bought at 10000 and sold on day 4 for [DBL_MAX]; on day 6 the
    quotient of [DBL_MAX] by [0x1.5555555555555p+1022] rounds to 3.0 and
    three shares are bought, whose cost, [2^1024 - 2^970] before
    rounding, overflows to plus infinity: cash becomes minus infinity and
    [portfolioValue + sharesOwned * p] goes from [DBL_MAX] to NaN.  With
    windows 3 and 1 on [infinite_price_days] the sale at plus infinity
    takes cash to minus infinity, and the quantity goes from minus
    infinity to NaN, since no shares at an infinite price are worth NaN. *)
Lemma trade_amounts_beyond_the_doubles :
  (Forall (fun p => finite_positive p = true) overflow_days
   /\ div DBL_MAX third_of_two_pow_1024 = double_of_int 3
   /\ mul (double_of_int 3) third_of_two_pow_1024 = S754_infinity false
   /\ exists st st',
        state_after 1 2 overflow_days 5 = Some st
        /\ state_after 1 2 overflow_days 6 = Some st'
        /\ output st
           = [Banner 1 2; BuySignal 2 (double_of_int 10000) 1;
              SellSignal 4 DBL_MAX 1 DBL_MAX]
        /\ output st' = output st ++ [BuySignal 6 third_of_two_pow_1024 3]
        /\ portfolioValue st = DBL_MAX
        /\ portfolioValue st' = S754_infinity true
        /\ marked_to_market st third_of_two_pow_1024 = DBL_MAX
        /\ marked_to_market st' third_of_two_pow_1024 = S754_nan
        /\ marked_to_market st' third_of_two_pow_1024
           <> marked_to_market st third_of_two_pow_1024)
  /\ exists st st',
       state_after 3 1 infinite_price_days 1 = Some st
       /\ state_after 3 1 infinite_price_days 2 = Some st'
       /\ output st = [Banner 3 1; BuySignal 1 (double_of_int (-1)) (-10000)]
       /\ output st'
          = output st
            ++ [SellSignal 2 (S754_infinity false) (-10000)
                           (S754_infinity true)]
       /\ marked_to_market st (S754_infinity false) = S754_infinity true
       /\ marked_to_market st' (S754_infinity false) = S754_nan
       /\ marked_to_market st' (S754_infinity false)
          <> marked_to_market st (S754_infinity false).
Proof.
  split.
  - split; [ repeat constructor | ].
    split; [ vm_compute; reflexivity | ].
    split; [ vm_compute; reflexivity | ].
    eexists. eexists.
    split; [ vm_compute; reflexivity | ].
    split; [ vm_compute; reflexivity | ].
    do 6 (split; [ reflexivity | ]).
    vm_compute. discriminate.
  - eexists. eexists.
    split; [ vm_compute; reflexivity | ].
    split; [ vm_compute; reflexivity | ].
    do 4 (split; [ reflexivity | ]).
    vm_compute. discriminate.
Qed.

(** ** More binary64 arithmetic *)

(** The integer a double converts to, on the grid of exponent [e']. *)
Lemma int_of_double_grid (s : bool) (m1 e' : Z) (x : spec_float) (q : Z) :
  represents s m1 e' x ->
  int_of_double x = Some q ->
  exists q',
    q = cond_Zopp s q' /\ 0 <= q' <= 2 ^ 31
    /\ q' * 2 ^ Z.max (- e') 0 <= m1 * 2 ^ Z.max e' 0
    /\ m1 * 2 ^ Z.max e' 0 < (q' + 1) * 2 ^ Z.max (- e') 0.
Proof.
  intros Hr Hq.
  destruct (int_of_double_represented s m1 e' x q Hr Hq)
    as (q' & Eq & Hq' & Hgrid).
  exists q'. split; [ exact Eq | ]. split; [ exact Hq' | ].
  destruct (Z.eq_dec q' 0) as [-> | Hnz].
  - destruct Hr as [[-> ->] | (m & e & Hle & E & Hc & Ex)].
    + assert (0 < 2 ^ Z.max (- e') 0) by (apply pow2_pos; lia). lia.
    + rewrite Ex in Hq.
      destruct (e <=? emax - prec); [ | discriminate Hq ].
      unfold int_of_double, trunc in Hq.
      destruct ((INT_MIN <=? cond_Zopp s (Z.shiftl (Zpos m) e))
                && (cond_Zopp s (Z.shiftl (Zpos m) e) <=? INT_MAX));
        [ | discriminate Hq ].
      injection Hq as Hq. rewrite Eq in Hq.
      assert (Z.shiftl (Zpos m) e = 0) as Hs
          by (destruct s; simpl in Hq; lia).
      assert (e < 0) as Hneg.
      { destruct (Z_lt_le_dec e 0); [ assumption | exfalso ].
        rewrite Z.shiftl_mul_pow2 in Hs by lia.
        assert (0 < 2 ^ e) by (apply pow2_pos; lia). nia. }
      rewrite Z.shiftl_div_pow2 in Hs by lia.
      assert (0 < 2 ^ (- e)) as Hpe by (apply pow2_pos; lia).
      apply Z.div_small_iff in Hs; [ | lia ].
      replace (Z.max e' 0) with 0 by lia.
      replace (Z.max (- e') 0) with (- e') by lia.
      rewrite Z.pow_0_r, Z.mul_1_r, Z.mul_0_l. rewrite <- E.
      assert (0 < 2 ^ (e - e')) as Hpd by (apply pow2_pos; lia).
      split; [ nia | ].
      replace (- e') with (- e + (e - e')) by lia.
      rewrite Z.pow_add_r by lia. nia.
  - destruct (Hgrid Hnz) as (Hneg & G1 & G2).
    replace (Z.max e' 0) with 0 by lia.
    replace (Z.max (- e') 0) with (- e') by lia.
    rewrite Z.pow_0_r, Z.mul_1_r. split; assumption.
Qed.

(** The shares a positive cash amount buys at a positive price, on the
    exact values [Uc] and [Up] of cash and price in units of [2^-1074]. *)
Lemma quotient_floor_or_one_more (mc mp : positive) (ec ep q : Z) :
  bounded prec emax mc ec = true ->
  bounded prec emax mp ep = true ->
  int_of_double
    (SFdiv prec emax (S754_finite false mc ec) (S754_finite false mp ep))
  = Some q ->
  units mc ec / units mp ep <= q <= units mc ec / units mp ep + 1
  /\ (q * units mp ep - units mc ec) * 2 ^ 52 <= q * units mp ep.
Proof.
  intros Hbc Hbp Hq.
  destruct (bounded_facts mc ec Hbc) as (Hec & _ & _).
  destruct (bounded_facts mp ep Hbp) as (Hep & _ & _).
  destruct (SFdiv_faithful_normal false mc mp ec ep Hbc Hbp)
    as (mt & m1 & e' & Hr & Hmt & Hm1 & He' & I1 & I2 & Hnorm & Hmt53).
  destruct (int_of_double_grid false m1 e' _ q Hr Hq)
    as (q' & -> & Hq' & G1 & G2).
  cbn [cond_Zopp].
  assert (0 < units mp ep) as HUp by (apply units_pos; lia).
  assert (0 < units mc ec) as HUc by (apply units_pos; lia).
  set (Up := units mp ep) in *. set (Uc := units mc ec) in *.
  assert (2 ^ 31 < 2 ^ 52) as H3152 by (apply Z.pow_lt_mono_r; lia).
  assert (2 ^ 53 = 2 * 2 ^ 52) as H53 by reflexivity.
  destruct (Z_lt_le_dec e' 0) as [Hneg | Hpos].
  - replace (Z.max e' 0) with 0 in * by lia.
    replace (Z.max (- e') 0) with (- e') in * by lia.
    rewrite Z.pow_0_r, !Z.mul_1_r in *.
    assert (2 <= 2 ^ (- e')) as HN.
    { replace 2 with (2 ^ 1) at 1 by reflexivity.
      apply Z.pow_le_mono_r; lia. }
    set (N := 2 ^ (- e')) in *.
    assert (Uc < (q' + 1) * Up) as Hup.
    { assert (mt + 1 <= (q' + 1) * N) by lia.
      assert ((mt + 1) * Up <= (q' + 1) * N * Up)
        by (apply Z.mul_le_mono_nonneg_r; lia).
      nia. }
    assert ((q' - 1) * Up <= Uc) as Hlow.
    { assert ((q' - 1) * N <= mt) by lia.
      assert ((q' - 1) * N * Up <= mt * Up)
        by (apply Z.mul_le_mono_nonneg_r; lia).
      nia. }
    assert (Uc / Up <= q') as H1.
    { apply Z.lt_succ_r. apply Z.div_lt_upper_bound; lia. }
    assert (q' - 1 <= Uc / Up) as H2.
    { apply Z.div_le_lower_bound; lia. }
    split; [ lia | ].
    destruct (Z_le_gt_dec (q' * Up) Uc) as [Hfits | Hover].
    { assert (0 <= q' * Up) by nia. nia. }
    (* one share too many: the quotient was rounded up to the integer *)
    assert (mt < q' * N) as Hround.
    { destruct (Z_lt_le_dec mt (q' * N)) as [ | Hge ]; [ assumption | exfalso ].
      assert (q' * N * Up <= mt * Up)
        by (apply Z.mul_le_mono_nonneg_r; lia).
      nia. }
    assert (1 <= q') as Hq1 by nia.
    assert (-1074 < e') as Hnormal.
    { destruct (Z.eq_dec e' (-1074)) as [E | ]; [ exfalso | lia ].
      assert (2 ^ 53 < N).
      { unfold N. rewrite E. apply Z.pow_lt_mono_r; lia. }
      nia. }
    specialize (Hnorm Hnormal).
    assert (2 ^ 52 <= q' * N) as Hbig by lia.
    assert ((q' * Up - Uc) * N <= Up) as Hgap by nia.
    assert ((q' * Up - Uc) * N * 2 ^ 52 <= Up * (q' * N)) as Hscaled.
    { assert (0 < q' * Up - Uc) by lia.
      assert ((q' * Up - Uc) * N * 2 ^ 52 <= Up * 2 ^ 52)
        by (apply Z.mul_le_mono_nonneg_r; lia).
      assert (Up * 2 ^ 52 <= Up * (q' * N))
        by (apply Z.mul_le_mono_nonneg_l; lia).
      lia. }
    apply (Z.mul_le_mono_pos_r _ _ N); [ lia | ].
    replace ((q' * Up - Uc) * 2 ^ 52 * N)
      with ((q' * Up - Uc) * N * 2 ^ 52) by ring.
    replace (q' * Up * N) with (Up * (q' * N)) by ring.
    exact Hscaled.
  - (* a quotient on a grid coarser than the integers exceeds every int *)
    exfalso.
    replace (Z.max e' 0) with e' in * by lia.
    replace (Z.max (- e') 0) with 0 in * by lia.
    rewrite Z.pow_0_r, !Z.mul_1_r in *.
    specialize (Hnorm ltac:(lia)).
    assert (1 <= 2 ^ e') by (assert (0 < 2 ^ e') by (apply pow2_pos; lia); lia).
    assert (2 ^ 52 <= m1 * 2 ^ e') by nia.
    lia.
Qed.

Lemma represents_units (m1 e' : Z) (f : double) :
  1 <= m1 -> -1074 <= e' ->
  represents false m1 e' f ->
  at_least_units (m1 * 2 ^ (e' + 1074)) f
  /\ forall m e, f = S754_finite false m e ->
                 units m e = m1 * 2 ^ (e' + 1074).
Proof.
  intros H1 He' [[H0 _] | (m & e & Hle & E & Hc & ->)]; [ lia | ].
  assert (units m e = m1 * 2 ^ (e' + 1074)) as EU.
  { unfold units. rewrite <- E.
    rewrite (pow2_split (e + 1074) (e' + 1074)) by lia.
    replace (e + 1074 - (e' + 1074)) with (e - e') by lia. ring. }
  destruct (e <=? emax - prec) eqn:Ee.
  - split.
    + right. exists m, e. split; [ reflexivity | ].
      split; [ unfold bounded; rewrite Hc, Ee; reflexivity | lia ].
    + intros m' e0 [= <- <-]. exact EU.
  - split; [ left; reflexivity | discriminate ].
Qed.

(** Adding a positive price to a sum of at least [n] units, [n] below
    [2^53], gives a sum of at least [n + 1] units. *)
Lemma add_gains_a_unit (n : Z) (x p : double) :
  0 <= n < 2 ^ 53 ->
  at_least_units n x -> finite_positive p = true ->
  at_least_units (n + 1) (add x p).
Proof.
  intros Hn Hx Hp.
  destruct (finite_positive_inv p Hp) as (mp & ep & -> & Hbp).
  destruct Hx as [-> | (m & e & -> & Hb & Hu)]; [ left; reflexivity | ].
  unfold add. cbn [SFadd cond_Zopp].
  destruct (bounded_facts m e Hb) as (He & _).
  destruct (bounded_facts mp ep Hbp) as (Hep & _).
  rewrite <- Pos2Z.inj_add. cbn [binary_normalize].
  set (ez := Z.min e ep).
  destruct (binary_round_magnitude false
              (fst (shl_align m e ez) + fst (shl_align mp ep ez)) ez
              ltac:(unfold ez; lia))
    as (m1 & e' & H1 & He' & Hr & Hmag).
  destruct (represents_units m1 e' _ H1 He' Hr) as [Hat _].
  assert (n + 1 <= m1 * 2 ^ (e' + 1074)) as Hge.
  { destruct Hmag as [-> | Hbig]; [ | lia ].
    rewrite Pos2Z.inj_add, !shl_align_fst by (unfold ez; lia).
    assert (0 < units mp ep) as HUp by (apply units_pos; lia).
    unfold units in *.
    rewrite Z.mul_add_distr_r.
    rewrite <- !Z.mul_assoc, <- !Z.pow_add_r by (unfold ez; lia).
    replace (e - ez + (ez + 1074)) with (e + 1074) by lia.
    replace (ep - ez + (ez + 1074)) with (ep + 1074) by lia.
    lia. }
  destruct Hat as [-> | (m' & e1 & -> & Hb' & Hu')]; [ left; reflexivity | ].
  right. exists m', e1. split; [ reflexivity | ]. split; [ exact Hb' | lia ].
Qed.

Lemma accumulate_gains_units (l : list double) :
  forall n x,
    Forall (fun p => finite_positive p = true) l ->
    0 <= n -> n + Z.of_nat (length l) <= 2 ^ 53 ->
    at_least_units n x ->
    at_least_units (n + Z.of_nat (length l)) (accumulate l x).
Proof.
  unfold accumulate.
  induction l as [|p l IH]; intros n x Hl Hn Hlen Hx.
  - simpl. rewrite Z.add_0_r. exact Hx.
  - inversion Hl as [|? ? Hp Hrest]; subst.
    cbn [fold_left length] in *. rewrite Nat2Z.inj_succ in *.
    replace (n + Z.succ (Z.of_nat (length l)))
      with (n + 1 + Z.of_nat (length l)) by lia.
    apply IH; [ exact Hrest | lia | lia | ].
    apply add_gains_a_unit; [ lia | exact Hx | exact Hp ].
Qed.

(** The sum of a non-empty window of positive prices. *)
Lemma window_sum_units (l : list double) :
  l <> [] -> Z.of_nat (length l) <= 2 ^ 53 ->
  Forall (fun p => finite_positive p = true) l ->
  at_least_units (Z.of_nat (length l)) (accumulate l zero).
Proof.
  intros Hne Hlen Hl. destruct l as [|p l]; [ contradiction | ].
  inversion Hl as [|? ? Hp Hrest]; subst.
  destruct (finite_positive_inv p Hp) as (mp & ep & -> & Hbp).
  unfold accumulate. cbn [fold_left length] in *.
  change (add zero (S754_finite false mp ep)) with (S754_finite false mp ep).
  rewrite Nat2Z.inj_succ in *.
  replace (Z.succ (Z.of_nat (length l))) with (1 + Z.of_nat (length l)) by lia.
  apply (accumulate_gains_units l 1); [ exact Hrest | lia | lia | ].
  right. exists mp, ep. split; [ reflexivity | ]. split; [ exact Hbp | ].
  destruct (bounded_facts mp ep Hbp) as (Hep & _).
  assert (0 < units mp ep) by (apply units_pos; lia). lia.
Qed.

(** A sum of at least [n] units divided by [n] does not underflow to
    zero. *)
Lemma div_keeps_a_unit (n : Z) (x : double) :
  0 < n <= INT_MAX -> at_least_units n x ->
  gt (div x (double_of_int n)) zero = true.
Proof.
  intros Hn Hx.
  destruct (binary_normalize_int false n)
    as (mq & eq & Eint & Hbq & Heq & Emq & _).
  { unfold INT_MAX in Hn.
    assert (2 ^ 31 < 2 ^ 53) by (apply Z.pow_lt_mono_r; lia). lia. }
  unfold double_of_int, div. cbn [cond_Zopp] in Eint. rewrite Eint.
  destruct Hx as [-> | (m & e & -> & Hb & Hu)]; [ reflexivity | ].
  destruct (SFdiv_faithful_normal false m mq e eq Hb Hbq)
    as (mt & m1 & e' & Hr & Hmt & Hm1 & He' & I1 & I2 & Hnorm & _).
  assert (units mq eq = n * 2 ^ 1074) as EUq.
  { unfold units. rewrite Emq.
    rewrite (pow2_split 1074 (eq + 1074)) by lia.
    replace (1074 - (eq + 1074)) with (- eq) by lia. ring. }
  assert (1 <= m1) as H1.
  { destruct (Z.eq_dec mt 0) as [Hz | ]; [ | lia ].
    destruct Hm1 as [-> | ->]; [ exfalso | lia ].
    rewrite Hz in *.
    assert (e' = -1074) as Ee'.
    { destruct (Z.eq_dec e' (-1074)); [ assumption | exfalso ].
      specialize (Hnorm ltac:(lia)).
      assert (0 < 2 ^ 52) by (apply pow2_pos; lia). lia. }
    rewrite Ee', EUq in I2.
    replace (Z.max (-1074) 0) with 0 in I2 by reflexivity.
    replace (Z.max (- -1074) 0) with 1074 in I2 by reflexivity.
    rewrite Z.pow_0_r in I2.
    assert (0 < 2 ^ 1074) by (apply pow2_pos; lia).
    set (T := 2 ^ 1074) in *.
    assert (units m e * T < n * T) by lia.
    assert (units m e < n) by (apply (Z.mul_lt_mono_pos_r T); lia).
    lia. }
  destruct (represents_nonzero _ _ _ _ H1 Hr) as [(m' & e1 & -> & _) | ->];
    reflexivity.
Qed.

Lemma binary_normalize_not_nan (M e : Z) :
  -1074 <= e -> binary_normalize prec emax M e false <> S754_nan.
Proof.
  intros He. destruct M as [|P|P]; cbn [binary_normalize].
  - discriminate.
  - destruct (binary_round_represents false P e He) as (m1 & e' & H1 & _ & Hr).
    destruct (represents_nonzero _ _ _ _ H1 Hr) as [(m & e1 & -> & _) | ->];
      discriminate.
  - destruct (binary_round_represents true P e He) as (m1 & e' & H1 & _ & Hr).
    destruct (represents_nonzero _ _ _ _ H1 Hr) as [(m & e1 & -> & _) | ->];
      discriminate.
Qed.

(** Comparing the other way round gives the opposite answer. *)
Lemma SFcompare_antisym (x y : spec_float) :
  SFcompare y x = option_map CompOpp (SFcompare x y).
Proof.
  destruct x as [sx|sx| |sx mx ex], y as [sy|sy| |sy my ey];
    try reflexivity;
    try (destruct sx; reflexivity);
    try (destruct sy; reflexivity);
    try (destruct sx, sy; reflexivity).
  destruct sx, sy; simpl; try reflexivity.
  - rewrite (Z.compare_antisym ex ey).
    destruct (ex ?= ey); simpl; try reflexivity.
    rewrite (Pos.compare_cont_antisym mx my Eq). reflexivity.
  - rewrite (Z.compare_antisym ex ey).
    destruct (ex ?= ey); simpl; try reflexivity.
    rewrite (Pos.compare_cont_antisym mx my Eq). reflexivity.
Qed.

Lemma not_below_is_at_least (y t : double) :
  y <> S754_nan -> t <> S754_nan -> lt y t = false -> ge y t = true.
Proof.
  intros Hy Ht. unfold lt, ge, le, SFltb, SFleb.
  rewrite (SFcompare_antisym y t).
  destruct (SFcompare y t) as [[ | | ]|] eqn:E; simpl;
    try reflexivity; try discriminate.
  intros _.
  destruct y as [sy|sy| |sy my ey], t as [st|st| |st mt et];
    try contradiction; try congruence; simpl in E;
    try discriminate; try (destruct sy; discriminate);
    try (destruct sy, st; discriminate).
Qed.

(** A price at least 10.0 moved by a finite change is a number. *)
Lemma moved_price_is_a_number (x c : double) :
  valid_binary prec emax x = true -> ge x ten = true ->
  valid_binary prec emax c = true -> finite_double c = true ->
  valid_binary prec emax (add x c) = true /\ add x c <> S754_nan.
Proof.
  intros Hvx Hx Hvc Hc.
  split; [ apply SFadd_valid; assumption | ].
  unfold add.
  destruct x as [sx|sx| |sx mx ex].
  - destruct sx; vm_compute in Hx; discriminate.
  - destruct sx; [ vm_compute in Hx; discriminate | ].
    destruct c; try discriminate Hc; cbn [SFadd]; discriminate.
  - vm_compute in Hx. discriminate.
  - destruct c as [sc|sc| |sc mc ec]; try discriminate Hc; cbn [SFadd].
    + discriminate.
    + apply binary_normalize_not_nan.
      assert (H1 := valid_exponent _ _ _ Hvx).
      assert (H2 := valid_exponent _ _ _ Hvc). lia.
Qed.

Lemma finite_double_valid (c : double) :
  finite_double c = true -> valid_binary prec emax c = true.
Proof.
  destruct c; simpl; try discriminate; auto.
Qed.

(** No double is below itself. *)
Lemma lt_irrefl (x : double) : lt x x = false.
Proof.
  unfold lt, SFltb.
  destruct x as [s|s| |s m e]; simpl; try (destruct s; reflexivity).
  reflexivity.
  destruct s; rewrite Z.compare_refl, Pos.compare_cont_refl; reflexivity.
Qed.

(** ** The average of a full window *)

Lemma last_elements_window (period : Z) (prices : list double) :
  0 < period <= Z.of_nat (length prices) ->
  last_elements period prices <> []
  /\ Z.of_nat (length (last_elements period prices)) = period.
Proof.
  intros H.
  assert (length (last_elements period prices) = Z.to_nat period) as E
      by (apply last_elements_length; lia).
  split; [ | lia ].
  intros Hnil. rewrite Hnil in E. simpl in E. lia.
Qed.

(** X1: on finite positive prices and for a period in [1, INT_MAX], the
    average of a full window is strictly above zero (a positive double, or
    plus infinity when the sum overflows): [calculateSMA] returns its
    value for missing history, [0.0], exactly when fewer than [period]
    prices are there. *)
Theorem sentinel_only_without_history
        (prices : list double) (period : Z) :
  Forall (fun p => finite_positive p = true) prices ->
  0 < period <= INT_MAX ->
  (period <= Z.of_nat (length prices) ->
   gt (calculateSMA prices period) zero = true)
  /\ (calculateSMA prices period = zero
      <-> Z.of_nat (length prices) < period).
Proof.
  intros Hprices Hp.
  assert (period <= Z.of_nat (length prices) ->
          gt (calculateSMA prices period) zero = true) as Hready.
  { intros Hlen. unfold calculateSMA.
    destruct (size_lt_int (length prices) period) eqn:E.
    - apply size_lt_int_spec in E; lia.
    - destruct (last_elements_window period prices ltac:(lia)) as [Hne Hw].
      apply div_keeps_a_unit; [ exact Hp | ].
      rewrite <- Hw at 1.
      apply window_sum_units.
      + exact Hne.
      + rewrite Hw. unfold INT_MAX in Hp.
        assert (2 ^ 31 < 2 ^ 53) by (apply Z.pow_lt_mono_r; lia). lia.
      + unfold last_elements. apply Forall_skipn_of. exact Hprices. }
  split; [ exact Hready | ].
  split.
  - intros Hzero.
    destruct (Z_lt_le_dec (Z.of_nat (length prices)) period) as [ | Hlen ];
      [ assumption | exfalso ].
    specialize (Hready Hlen). rewrite Hzero in Hready. discriminate.
  - intros Hshort. unfold calculateSMA.
    assert (size_lt_int (length prices) period = true) as ->
        by (apply size_lt_int_spec; lia).
    reflexivity.
Qed.

Lemma sentinel_only_without_history_witness :
  gt (calculateSMA three_days 2) zero = true
  /\ (calculateSMA three_days 4 = zero <-> 3 < 4).
Proof.
  assert (Forall (fun p => finite_positive p = true) three_days) as Hprices
      by (repeat constructor).
  split.
  - apply (proj1 (sentinel_only_without_history three_days 2 Hprices
                    ltac:(unfold INT_MAX; lia))).
    simpl. lia.
  - exact (proj2 (sentinel_only_without_history three_days 4 Hprices
                    ltac:(unfold INT_MAX; lia))).
Defined.

(** ** The shares a purchase buys *)

(** X2: a BUY made with positive cash at a positive price buys the whole
    part of the exact quotient of cash by price, or one share more; when
    it buys one more, the exact cost exceeds the cash by at most [2^-52]
    of the cost.  Cash and price are taken exactly, in units of
    [2^-1074]. *)
Theorem shares_bought_are_floor_or_one_more
        (sw lw : Z) (i : nat) (st st' : sim_state)
        (mc mp : positive) (ec ep : Z) :
  bounded prec emax mc ec = true ->
  bounded prec emax mp ep = true ->
  portfolioValue st = S754_finite false mc ec ->
  loop_body sw lw i (S754_finite false mp ep) st = Some st' ->
  buy_fired st st' ->
  units mc ec / units mp ep <= sharesOwned st'
  /\ sharesOwned st' <= units mc ec / units mp ep + 1
  /\ (sharesOwned st' * units mp ep - units mc ec) * 2 ^ 52
     <= sharesOwned st' * units mp ep.
Proof.
  intros Hbc Hbp Hcash Hstep Hfired.
  destruct (warming_up lw st (S754_finite false mp ep)) eqn:Hwarm.
  { destruct (loop_body_warming_up sw lw i _ st Hwarm)
      as (s1 & E & _ & _ & _ & _ & _ & _ & Hout).
    assert (s1 = st') as <- by congruence.
    destruct (quiet_day_fires_nothing _ _ Hout) as [Hnb _]. contradiction. }
  destruct (loop_body_warmed_up sw lw i _ st st' Hwarm Hstep)
    as (_ & _ & _ & [Hbuy | [Hsell | Hquiet]]).
  - destruct Hbuy as (_ & _ & _ & Hq & _).
    rewrite Hcash in Hq.
    destruct (quotient_floor_or_one_more mc mp ec ep _ Hbc Hbp Hq)
      as [[H1 H2] H3].
    auto.
  - destruct Hsell as (_ & _ & _ & _ & _ & _ & _ & Hout).
    destruct (sell_line_is_no_buy _ _ _ _ _ _ Hout) as [_ Hnb]. contradiction.
  - destruct Hquiet as (_ & _ & _ & _ & _ & Hout).
    destruct (quiet_day_fires_nothing _ _ Hout) as [Hnb _]. contradiction.
Qed.

Lemma shares_bought_are_floor_or_one_more_witness :
  units (10000 * 2 ^ 39) (-39) / units 0x12f07c1f07c1f1 (-45) = 65
  /\ sharesOwned overspend_day30_state = 66
  /\ (66 * units 0x12f07c1f07c1f1 (-45) - units (10000 * 2 ^ 39) (-39))
     * 2 ^ 52
     <= 66 * units 0x12f07c1f07c1f1 (-45).
Proof.
  assert (loop_body 10 30 29 (S754_finite false 0x12f07c1f07c1f1 (-45))
                    overspend_day29_state
          = Some overspend_day30_state) as Hstep
      by (vm_compute; reflexivity).
  assert (buy_fired overspend_day29_state overspend_day30_state) as Hfired.
  { exists 30%nat, price_151_52, 66. vm_compute. reflexivity. }
  destruct (shares_bought_are_floor_or_one_more
              10 30 29 overspend_day29_state overspend_day30_state
              (10000 * 2 ^ 39) 0x12f07c1f07c1f1 (-39) (-45)
              eq_refl eq_refl eq_refl Hstep Hfired) as (H1 & H2 & H3).
  split; [ vm_compute; reflexivity | ].
  split; [ vm_compute; reflexivity | exact H3 ].
Defined.

(** ** The course of a run *)

Lemma loop_body_history (sw lw : Z) (i : nat) (price : double)
      (st st' : sim_state) :
  loop_body sw lw i price st = Some st' ->
  currentPrices st' = currentPrices st ++ [price].
Proof.
  intros Hstep.
  destruct (warming_up lw st price) eqn:Hwarm.
  - destruct (loop_body_warming_up sw lw i price st Hwarm)
      as (s1 & E & Hc & _).
    congruence.
  - destruct (loop_body_warmed_up sw lw i price st st' Hwarm Hstep)
      as (Hc & _).
    exact Hc.
Qed.

Lemma sim_loop_history (sw lw : Z) (days : list double) :
  forall i st st',
    sim_loop sw lw days i st = Some st' ->
    currentPrices st' = currentPrices st ++ days.
Proof.
  induction days as [|price rest IH]; simpl; intros i st st'.
  - intros [= <-]. symmetry. apply app_nil_r.
  - destruct (loop_body sw lw i price st) as [st1|] eqn:E; [ | discriminate ].
    intros Hloop. rewrite (IH _ _ _ Hloop), (loop_body_history _ _ _ _ _ _ E).
    rewrite <- app_assoc. reflexivity.
Qed.

Lemma sim_loop_preserves_indexed (sw lw : Z) (P : nat -> sim_state -> Prop) :
  (forall i price st st',
      P i st -> loop_body sw lw i price st = Some st' -> P (S i) st') ->
  forall days i st st',
    P i st -> sim_loop sw lw days i st = Some st' ->
    P (i + length days)%nat st'.
Proof.
  intros Hbody. induction days as [|price rest IH]; simpl; intros i st st' HP.
  - intros [= <-]. rewrite Nat.add_0_r. exact HP.
  - destruct (loop_body sw lw i price st) as [st1|] eqn:E; [ | discriminate ].
    intros Hloop.
    replace (i + S (length rest))%nat with (S i + length rest)%nat by lia.
    apply (IH (S i) st1); [ | exact Hloop ].
    exact (Hbody _ _ _ _ HP E).
Qed.

Lemma size_lt_int_earlier (n : nat) (lw : Z) :
  size_lt_int (S n) lw = true -> size_lt_int n lw = true.
Proof.
  unfold size_lt_int. rewrite !Z.ltb_lt. lia.
Qed.

(** X3: after [n] turns of the loop the history holds the first [n]
    prices.  While it is shorter than the long window nothing else has
    changed since the start; once it is not, the previous averages are the
    averages of the history as it stands. *)
Theorem previous_averages_follow_history
        (sw lw : Z) (marketData : list double) (n : nat) (st : sim_state) :
  state_after sw lw marketData n = Some st ->
  currentPrices st = firstn n marketData
  /\ (size_lt_int (length (currentPrices st)) lw = true ->
      st = warm_up_state sw lw (currentPrices st))
  /\ (size_lt_int (length (currentPrices st)) lw = false ->
      currentPrices st <> [] ->
      prevShortSMA st = calculateSMA (currentPrices st) sw
      /\ prevLongSMA st = calculateSMA (currentPrices st) lw).
Proof.
  unfold state_after. intros Hrun. split.
  - apply sim_loop_history in Hrun. exact Hrun.
  - revert Hrun.
    apply (sim_loop_preserves sw lw
             (fun s =>
                (size_lt_int (length (currentPrices s)) lw = true ->
                 s = warm_up_state sw lw (currentPrices s))
                /\ (size_lt_int (length (currentPrices s)) lw = false ->
                    currentPrices s <> [] ->
                    prevShortSMA s = calculateSMA (currentPrices s) sw
                    /\ prevLongSMA s = calculateSMA (currentPrices s) lw))).
    + intros i price s s' [Hw Hr] Hstep.
      destruct (warming_up lw s price) eqn:Hwarm.
      * destruct (loop_body_warming_up sw lw i price s Hwarm)
          as (s1 & E & Hc & H2 & H3 & H4 & H5 & H6 & H7).
        assert (s1 = s') as -> by congruence.
        unfold warming_up in Hwarm.
        split.
        -- intros _.
           assert (size_lt_int (length (currentPrices s)) lw = true) as Hs.
           { apply size_lt_int_earlier.
             rewrite length_app, Nat.add_1_r in Hwarm. exact Hwarm. }
           specialize (Hw Hs).
           destruct s'; simpl in *. rewrite Hw in *. simpl in *.
           unfold warm_up_state. congruence.
        -- rewrite Hc. congruence.
      * destruct (loop_body_warmed_up sw lw i price s s' Hwarm Hstep)
          as (Hc & Hs & Hl & _).
        unfold warming_up in Hwarm.
        split.
        -- rewrite Hc. congruence.
        -- intros _ _. rewrite Hc. split; assumption.
    + split.
      * intros _. reflexivity.
      * intros _ H. contradiction H. reflexivity.
Qed.

Lemma previous_averages_follow_history_witness :
  currentPrices day2_state = firstn 2 zigzag_days
  /\ prevShortSMA day2_state = calculateSMA (currentPrices day2_state) 1
  /\ prevLongSMA day2_state = calculateSMA (currentPrices day2_state) 2.
Proof.
  destruct (previous_averages_follow_history 1 2 zigzag_days 2 day2_state
              eq_refl) as (H1 & _ & H3).
  split; [ exact H1 | ].
  apply H3; [ reflexivity | vm_compute; discriminate ].
Defined.
Lemma size_lt_int_fewer (n m : nat) (lw : Z) :
  (n <= m)%nat -> size_lt_int m lw = true -> size_lt_int n lw = true.
Proof.
  unfold size_lt_int. rewrite !Z.ltb_lt. lia.
Qed.

(** While the guard of the warm-up holds the loop only collects prices. *)
Lemma sim_loop_warm_up (sw lw : Z) (days : list double) :
  forall i history,
    size_lt_int (length (history ++ days)) lw = true ->
    sim_loop sw lw days i (warm_up_state sw lw history)
    = Some (warm_up_state sw lw (history ++ days)).
Proof.
  induction days as [|price rest IH]; simpl; intros i history Hlen.
  - rewrite app_nil_r. reflexivity.
  - assert (size_lt_int (length (history ++ [price])) lw = true) as Hwarm.
    { apply (size_lt_int_fewer _ (length (history ++ price :: rest)));
        [ | exact Hlen ].
      rewrite !length_app. simpl. lia. }
    unfold loop_body. simpl currentPrices. rewrite Hwarm.
    change (sim_loop sw lw rest (S i) (warm_up_state sw lw (history ++ [price]))
            = Some (warm_up_state sw lw (history ++ price :: rest))).
    rewrite IH by (rewrite <- app_assoc; exact Hlen).
    rewrite <- app_assoc. reflexivity.
Qed.

Lemma warm_up_run (sw lw : Z) (days : list double) :
  size_lt_int (length days) lw = true ->
  sim_loop sw lw days 0 (initial_state sw lw)
  = Some (warm_up_state sw lw days).
Proof.
  intros Hlen.
  exact (sim_loop_warm_up sw lw days 0 [] Hlen).
Qed.

(** X4: a series shorter than the long window, or empty, is run without
    a trade: the report is the banner, the completion line and the initial
    10000.0, and [marketData.back()] is not evaluated. *)
Theorem short_history_never_trades (marketData : list double) (sw lw : Z) :
  marketData = [] \/ size_lt_int (length marketData) lw = true ->
  runTradingSimulation marketData sw lw = Some (quiet_report sw lw).
Proof.
  intros [-> | Hlen].
  - reflexivity.
  - unfold runTradingSimulation, final_state.
    rewrite (warm_up_run sw lw marketData Hlen). reflexivity.
Qed.

Lemma short_history_never_trades_witness :
  runTradingSimulation three_days 10 30 = Some (quiet_report 10 30).
Proof.
  apply (short_history_never_trades three_days 10 30).
  right. reflexivity.
Defined.

Lemma loop_body_equal_windows (w : Z) (i : nat) (price : double)
      (st : sim_state) :
  exists st',
    loop_body w w i price st = Some st'
    /\ portfolioValue st' = portfolioValue st
    /\ positionOpen st' = positionOpen st
    /\ output st' = output st.
Proof.
  unfold loop_body.
  destruct (size_lt_int _ w).
  - eexists. repeat split.
  - unfold gt. rewrite !lt_irrefl. simpl.
    eexists. repeat split.
Qed.

Lemma sim_loop_equal_windows (w : Z) (days : list double) :
  forall i st,
  exists st',
    sim_loop w w days i st = Some st'
    /\ portfolioValue st' = portfolioValue st
    /\ positionOpen st' = positionOpen st
    /\ output st' = output st.
Proof.
  induction days as [|price rest IH]; simpl; intros i st.
  - exists st. auto.
  - destruct (loop_body_equal_windows w i price st)
      as (st1 & E & Hp & Ho & Hout).
    rewrite E.
    destruct (IH (S i) st1) as (st' & E' & Hp' & Ho' & Hout').
    exists st'. repeat split; congruence.
Qed.

(** X5: with equal windows the two averages of a day are the same number,
    neither is strictly above the other, and the run ends without a trade
    whatever the prices. *)
Theorem equal_windows_never_trade (marketData : list double) (w : Z) :
  runTradingSimulation marketData w w = Some (quiet_report w w).
Proof.
  destruct (sim_loop_equal_windows w marketData 0 (initial_state w w))
    as (st & E & Hp & Ho & Hout).
  unfold runTradingSimulation, final_state. rewrite E.
  unfold final_liquidation. rewrite Ho. simpl.
  rewrite Hout, Hp. reflexivity.
Qed.

(** X6: on the first day with a long average, day [longWindow], the
    previous averages are still the initial [0.0]: the day buys as soon as
    the short average is above the long one, without a crossing, and does
    nothing otherwise.  The state after that day, in full. *)
Theorem first_valid_day_needs_no_cross
        (sw : Z) (n : nat) (marketData : list double) (p : double) :
  Z.of_nat (S n) <= INT_MAX ->
  nth_error marketData n = Some p ->
  let lw := Z.of_nat (S n) in
  let history := firstn (S n) marketData in
  let shortSMA := calculateSMA history sw in
  let longSMA := calculateSMA history lw in
  state_after sw lw marketData (S n)
  = if gt shortSMA longSMA then
      match int_of_double (div ten_thousand p) with
      | Some q =>
        Some {| currentPrices := history;
                portfolioValue := sub ten_thousand (mul (double_of_int q) p);
                sharesOwned := q;
                positionOpen := true;
                prevShortSMA := shortSMA;
                prevLongSMA := longSMA;
                output := [Banner sw lw; BuySignal (S n) p q] |}
      | None => None
      end
    else
      Some {| currentPrices := history;
              portfolioValue := ten_thousand;
              sharesOwned := 0;
              positionOpen := false;
              prevShortSMA := shortSMA;
              prevLongSMA := longSMA;
              output := [Banner sw lw] |}.
Proof.
  intros Hmax Hp lw history shortSMA longSMA.
  assert (n < length marketData)%nat as Hn
      by (apply nth_error_Some; congruence).
  rewrite (state_after_succ sw lw marketData n p Hp).
  unfold state_after.
  rewrite warm_up_run.
  2:{ apply size_lt_int_spec; [ subst lw; lia | ].
      rewrite length_firstn. subst lw. lia. }
  assert (size_lt_int (length (firstn n marketData ++ [p])) lw = false)
    as Hwarm.
  { destruct (size_lt_int _ lw) eqn:E; [ | reflexivity ].
    apply size_lt_int_spec in E; [ | subst lw; lia ].
    rewrite length_app, length_firstn in E. simpl in E. subst lw. lia. }
  unfold loop_body. simpl currentPrices. rewrite Hwarm.
  rewrite <- (firstn_succ_nth _ _ _ Hp).
  fold history. fold shortSMA. fold longSMA.
  simpl prevShortSMA. simpl prevLongSMA. simpl positionOpen.
  simpl portfolioValue. simpl sharesOwned. simpl output.
  replace (le zero zero) with true by reflexivity.
  destruct (gt shortSMA longSMA); cbn [andb negb].
  - reflexivity.
  - rewrite andb_false_r. reflexivity.
Qed.

Lemma first_valid_day_needs_no_cross_witness :
  state_after 1 2 zigzag_days 2 = Some day2_state.
Proof.
  assert (Z.of_nat 2 <= INT_MAX) as Hmax by (unfold INT_MAX; simpl; lia).
  exact (eq_trans
           (first_valid_day_needs_no_cross
              1 1 zigzag_days (double_of_int 101) Hmax eq_refl)
           eq_refl).
Defined.

(** Trade lines are only printed once the long window is full. *)
Lemma sim_loop_trades_after_warm_up (sw lw : Z) (days : list double)
      (st : sim_state) :
  sim_loop sw lw days 0 (initial_state sw lw) = Some st ->
  Forall (fun d => size_t_of_int lw <= Z.of_nat d
                   /\ (d <= length days)%nat)
         (trade_days (output st)).
Proof.
  intros Hloop.
  assert (length (currentPrices st) = (0 + length days)%nat
          /\ Forall (fun d => size_t_of_int lw <= Z.of_nat d
                              /\ (d <= 0 + length days)%nat)
                    (trade_days (output st))) as [_ H].
  { apply (sim_loop_preserves_indexed sw lw
             (fun i s =>
                length (currentPrices s) = i
                /\ Forall (fun d => size_t_of_int lw <= Z.of_nat d
                                    /\ (d <= i)%nat)
                          (trade_days (output s))))
      with (st := initial_state sw lw); [ | | exact Hloop ].
    - intros i price s s' [Hi Hd] Hstep.
      split.
      { rewrite (loop_body_history _ _ _ _ _ _ Hstep), length_app. simpl. lia. }
      assert (Forall (fun d => size_t_of_int lw <= Z.of_nat d
                               /\ (d <= S i)%nat)
                     (trade_days (output s))) as Hd'
          by (eapply Forall_impl; [ | exact Hd ]; simpl; intros; lia).
      destruct (warming_up lw s price) eqn:Hwarm.
      + destruct (loop_body_warming_up sw lw i price s Hwarm)
          as (s1 & E & _ & _ & _ & _ & _ & _ & Hout).
        assert (s1 = s') as -> by congruence.
        rewrite Hout. exact Hd'.
      + assert (size_t_of_int lw <= Z.of_nat (S i)) as Hfull.
        { unfold warming_up, size_lt_int in Hwarm.
          apply Z.ltb_ge in Hwarm.
          rewrite length_app, Hi in Hwarm. simpl in Hwarm. lia. }
        destruct (loop_body_warmed_up sw lw i price s s' Hwarm Hstep)
          as (_ & _ & _ & [Hbuy | [Hsell | Hquiet]]).
        * destruct Hbuy as (_ & _ & _ & _ & _ & _ & Hout).
          rewrite Hout, trade_days_app. simpl.
          apply Forall_app. split; [ exact Hd' | ].
          constructor; [ split; [ exact Hfull | lia ] | constructor ].
        * destruct Hsell as (_ & _ & _ & _ & _ & _ & _ & Hout).
          rewrite Hout, trade_days_app. simpl.
          apply Forall_app. split; [ exact Hd' | ].
          constructor; [ split; [ exact Hfull | lia ] | constructor ].
        * destruct Hquiet as (_ & _ & _ & _ & _ & Hout).
          rewrite Hout. exact Hd'.
    - split; [ reflexivity | constructor ]. }
  exact H.
Qed.

Lemma trade_days_of_report (marketData : list double) (st : sim_state) :
  trade_days
    (output (final_liquidation marketData st)
     ++ [SimulationComplete;
         FinalPortfolioValue (portfolioValue (final_liquidation marketData st))])
  = trade_days (output st).
Proof.
  rewrite trade_days_app. simpl. rewrite app_nil_r.
  unfold final_liquidation. destruct (positionOpen st); [ | reflexivity ].
  simpl. rewrite trade_days_app. simpl. apply app_nil_r.
Qed.

Lemma report_trades_after_warm_up (marketData : list double) (sw lw : Z)
      (out : list event) :
  runTradingSimulation marketData sw lw = Some out ->
  Forall (fun d => size_t_of_int lw <= Z.of_nat d
                   /\ (d <= length marketData)%nat)
         (trade_days out).
Proof.
  unfold runTradingSimulation, final_state.
  destruct (sim_loop sw lw marketData 0 (initial_state sw lw)) as [st|] eqn:E;
    [ | discriminate ].
  intros [= <-]. rewrite trade_days_of_report.
  exact (sim_loop_trades_after_warm_up sw lw marketData st E).
Qed.

(** X7: every trade line carries a day from [longWindow], converted to
    [size_t], to the number of prices; with a negative long window there
    is no trade line at all. *)
Theorem no_trade_before_long_window
        (marketData : list double) (sw lw : Z) (out : list event) :
  runTradingSimulation marketData sw lw = Some out ->
  Forall (fun d => size_t_of_int lw <= Z.of_nat d
                   /\ (d <= length marketData)%nat)
         (trade_days out)
  /\ (0 <= lw <= INT_MAX ->
      Forall (fun d => lw <= Z.of_nat d) (trade_days out))
  /\ (INT_MIN <= lw < 0 ->
      Z.of_nat (length marketData) <= vector_max_size ->
      trade_days out = []).
Proof.
  intros Hrun.
  assert (H := report_trades_after_warm_up marketData sw lw out Hrun).
  split; [ exact H | split ].
  - intros Hlw. rewrite (size_t_of_int_nonneg lw Hlw) in H.
    eapply Forall_impl; [ | exact H ]. simpl. tauto.
  - intros Hlw Hlen. rewrite (size_t_of_int_neg lw Hlw) in H.
    destruct (trade_days out) as [|d l]; [ reflexivity | ].
    inversion H as [|? ? [H1 H2] _]; subst.
    assert (vector_max_size < 2 ^ 63) by (vm_compute; reflexivity).
    unfold INT_MIN in Hlw. lia.
Qed.

Lemma no_trade_before_long_window_witness :
  Forall (fun d => 2 <= Z.of_nat d) (trade_days zigzag_report).
Proof.
  apply (proj1 (proj2 (no_trade_before_long_window
                         zigzag_days 1 2 zigzag_report zigzag_run))).
  unfold INT_MAX. lia.
Defined.

(** The lines of a kind, counted along two pieces of a report. *)
Lemma buy_days_app (l1 l2 : list event) :
  buy_days (l1 ++ l2) = buy_days l1 ++ buy_days l2.
Proof.
  induction l1 as [|ev l1 IH]; simpl; [ reflexivity | ].
  destruct ev; simpl; rewrite IH; reflexivity.
Qed.

Lemma sell_days_app (l1 l2 : list event) :
  sell_days (l1 ++ l2) = sell_days l1 ++ sell_days l2.
Proof.
  induction l1 as [|ev l1 IH]; simpl; [ reflexivity | ].
  destruct ev; simpl; rewrite IH; reflexivity.
Qed.

Lemma end_lines_app (l1 l2 : list event) :
  end_lines (l1 ++ l2) = end_lines l1 ++ end_lines l2.
Proof.
  induction l1 as [|ev l1 IH]; simpl; [ reflexivity | ].
  destruct ev; simpl; rewrite IH; reflexivity.
Qed.

(** In the loop every BUY but the last has its SELL. *)
Lemma sim_loop_buys_and_sells (sw lw : Z) (days : list double) (i : nat)
      (st st' : sim_state) :
  length (buy_days (output st))
  = (length (sell_days (output st)) + if positionOpen st then 1 else 0)%nat ->
  end_lines (output st) = [] ->
  sim_loop sw lw days i st = Some st' ->
  length (buy_days (output st'))
  = (length (sell_days (output st')) + if positionOpen st' then 1 else 0)%nat
  /\ end_lines (output st') = [].
Proof.
  intros H1 H2.
  apply (sim_loop_preserves sw lw
           (fun s =>
              length (buy_days (output s))
              = (length (sell_days (output s))
                 + if positionOpen s then 1 else 0)%nat
              /\ end_lines (output s) = [])); [ | split; assumption ].
  clear. intros i price s s' [Hc He] Hstep.
  destruct (loop_body_cases sw lw i price s s' Hstep)
    as [(_ & Hg) | (_ & [Hb | [Hs | Hq]])].
  - destruct Hg as (_ & _ & _ & Ho & _ & _ & Hout).
    rewrite Hout, Ho. auto.
  - destruct Hb as ((d & p & n & Hout) & Ho & Ho').
    rewrite Hout, Ho', buy_days_app, sell_days_app, end_lines_app, He.
    rewrite Ho in Hc. simpl. rewrite !length_app. simpl. split; [ lia | auto ].
  - destruct Hs as ((d & p & n & c & Hout) & Ho & Ho' & _).
    rewrite Hout, Ho', buy_days_app, sell_days_app, end_lines_app, He.
    rewrite Ho in Hc. simpl. rewrite !length_app. simpl. split; [ lia | auto ].
  - destruct Hq as (Hout & Ho & _). rewrite Hout, Ho. auto.
Qed.

(** X9: a report has as many BUY lines as SELL and end-of-simulation
    lines together, and at most one end-of-simulation line: it is there
    exactly when a position is open after the loop, and names the shares
    held and the last price. *)
Theorem every_purchase_is_sold
        (marketData : list double) (sw lw : Z) (out : list event) :
  runTradingSimulation marketData sw lw = Some out ->
  length (buy_days out)
  = (length (sell_days out) + length (end_lines out))%nat
  /\ (length (end_lines out) <= 1)%nat
  /\ exists st,
       sim_loop sw lw marketData 0 (initial_state sw lw) = Some st
       /\ end_lines out
          = if positionOpen st
            then [(sharesOwned st, last marketData zero)] else [].
Proof.
  unfold runTradingSimulation, final_state.
  destruct (sim_loop sw lw marketData 0 (initial_state sw lw)) as [st|] eqn:E;
    [ | discriminate ].
  intros [= <-].
  destruct (sim_loop_buys_and_sells sw lw marketData 0 (initial_state sw lw)
              st eq_refl eq_refl E) as [Hc He].
  rewrite buy_days_app, sell_days_app, end_lines_app. simpl.
  rewrite !app_nil_r.
  unfold final_liquidation.
  destruct (positionOpen st) eqn:Ho; simpl.
  - rewrite buy_days_app, sell_days_app, end_lines_app, He. simpl.
    rewrite !app_nil_r.
    split; [ lia | split; [ lia | ] ].
    exists st. rewrite Ho. auto.
  - rewrite He. simpl.
    split; [ lia | split; [ lia | ] ].
    exists st. rewrite Ho. auto.
Qed.

Lemma every_purchase_is_sold_witness :
  length (buy_days zigzag_report)
  = (length (sell_days zigzag_report) + length (end_lines zigzag_report))%nat.
Proof.
  exact (proj1 (every_purchase_is_sold zigzag_days 1 2 zigzag_report
                  zigzag_run)).
Defined.







(** ** The generated prices *)

Lemma generate_length (gen : Type) (draw : gen -> double * gen) (n : nat) :
  forall g lastPrice, length (generate gen draw n g lastPrice) = n.
Proof.
  induction n as [|n IH]; simpl; intros g lastPrice; [ reflexivity | ].
  destruct (draw g) as [change g']. simpl. rewrite IH. reflexivity.
Qed.

Lemma generate_floor (gen : Type) (draw : gen -> double * gen) (n : nat) :
  forall g lastPrice,
    Forall (fun p => lt p ten = false) (generate gen draw n g lastPrice).
Proof.
  induction n as [|n IH]; simpl; intros g lastPrice; [ constructor | ].
  destruct (draw g) as [change g'].
  constructor; [ | apply IH ].
  destruct (lt (add lastPrice change) ten) eqn:E; [ reflexivity | exact E ].
Qed.

Lemma generate_at_least_ten (gen : Type) (draw : gen -> double * gen) :
  (forall g, finite_double (fst (draw g)) = true) ->
  forall n g lastPrice,
    valid_binary prec emax lastPrice = true -> ge lastPrice ten = true ->
    Forall (fun p => ge p ten = true) (generate gen draw n g lastPrice).
Proof.
  intros finite_draws.
  induction n as [|n IH]; simpl; intros g lastPrice Hv Hge; [ constructor | ].
  assert (Hd := finite_draws g).
  destruct (draw g) as [change g']. simpl in Hd.
  destruct (moved_price_is_a_number lastPrice change Hv Hge
              (finite_double_valid _ Hd) Hd) as [Hv1 Hn1].
  destruct (lt (add lastPrice change) ten) eqn:E.
  - constructor; [ reflexivity | ]. apply IH; reflexivity.
  - assert (ge (add lastPrice change) ten = true) as Hge1.
    { apply not_below_is_at_least; [ exact Hn1 | discriminate | exact E ]. }
    constructor; [ exact Hge1 | ]. apply IH; assumption.
Qed.
(** X11: whatever the engine and the distribution, [main] generates 200
    prices, none of which compares below 10.0; when every draw is finite,
    each price is a number at least 10.0. *)
Theorem generated_prices_respect_the_floor
        (gen : Type) (seed_gen : Z -> gen) (draw : gen -> double * gen)
        (rd : Z) :
  length (marketData_of gen seed_gen draw rd) = 200%nat
  /\ Forall (fun p => lt p ten = false) (marketData_of gen seed_gen draw rd)
  /\ ((forall g, finite_double (fst (draw g)) = true) ->
      Forall (fun p => ge p ten = true) (marketData_of gen seed_gen draw rd)).
Proof.
  unfold marketData_of. split; [ | split ].
  - apply generate_length.
  - apply generate_floor.
  - intros Hd. apply generate_at_least_ten; [ exact Hd | | ]; reflexivity.
Qed.

Lemma generated_prices_respect_the_floor_witness :
  Forall (fun p => ge p ten = true)
         (marketData_of unit (fun _ => tt) steady_draw 0).
Proof.
  apply (proj2 (proj2 (generated_prices_respect_the_floor
                         unit (fun _ => tt) steady_draw 0))).
  intros g. reflexivity.
Defined.

Lemma report_starts_with_banner (marketData : list double) (sw lw : Z)
      (out : list event) :
  runTradingSimulation marketData sw lw = Some out ->
  exists rest, out = Banner sw lw :: rest.
Proof.
  unfold runTradingSimulation, final_state.
  destruct (sim_loop sw lw marketData 0 (initial_state sw lw)) as [st|] eqn:E;
    [ | discriminate ].
  intros [= <-].
  assert (exists trades,
             output (initial_state sw lw) = Banner sw lw :: trades) as H0
      by (exists []; reflexivity).
  destruct (output_starts_with_banner sw lw marketData 0 _ st H0 E)
    as (trades & Ht).
  unfold final_liquidation.
  destruct (positionOpen st); simpl; rewrite Ht; eexists; reflexivity.
Qed.

Lemma marketData_of_length (gen : Type) (seed_gen : Z -> gen)
      (draw : gen -> double * gen) (rd : Z) :
  length (marketData_of gen seed_gen draw rd) = 200%nat.
Proof. unfold marketData_of. apply generate_length. Qed.

Lemma main_is_a_run (gen : Type) (seed_gen : Z -> gen)
      (draw : gen -> double * gen) (rd : Z) :
  main gen seed_gen draw rd
  = runTradingSimulation (marketData_of gen seed_gen draw rd) 10 30.
Proof. reflexivity. Qed.

(** X12: whatever [std::random_device] returns, a report of [main] opens
    with the banner of windows 10 and 30, and its trade lines carry days
    from 30 to 200. *)
Theorem main_trades_between_day_30_and_day_200
        (gen : Type) (seed_gen : Z -> gen) (draw : gen -> double * gen)
        (rd : Z) (out : list event) :
  main gen seed_gen draw rd = Some out ->
  (exists rest, out = Banner 10 30 :: rest)
  /\ Forall (fun d => (30 <= d <= 200)%nat) (trade_days out).
Proof.
  rewrite main_is_a_run. intros Hrun. split.
  - exact (report_starts_with_banner
             (marketData_of gen seed_gen draw rd) 10 30 out Hrun).
  - assert (H := report_trades_after_warm_up
                   (marketData_of gen seed_gen draw rd) 10 30 out Hrun).
    rewrite marketData_of_length in H.
    rewrite size_t_of_int_nonneg in H by (unfold INT_MAX; lia).
    eapply Forall_impl; [ | exact H ].
    intros d [H1 H2]. lia.
Qed.

Lemma steady_draw_run :
  main unit (fun _ => tt) steady_draw 0
  = Some [Banner 10 30;
          BuySignal 30 (double_of_int 130) 76;
          EndOfSimulation 76 (double_of_int 300);
          SimulationComplete;
          FinalPortfolioValue (double_of_int 22920)].
Proof. vm_compute. reflexivity. Qed.

Lemma main_trades_between_day_30_and_day_200_witness :
  Forall (fun d => (30 <= d <= 200)%nat)
         (trade_days [Banner 10 30;
                      BuySignal 30 (double_of_int 130) 76;
                      EndOfSimulation 76 (double_of_int 300);
                      SimulationComplete;
                      FinalPortfolioValue (double_of_int 22920)]).
Proof.
  exact (proj2 (main_trades_between_day_30_and_day_200
                  unit (fun _ => tt) steady_draw 0 _ steady_draw_run)).
Defined.
